(** * The SLA scheduling genetic algorithm (package [gen]): a shallow embedding

    The development follows the modules of the package:
    [constants], [models], [fitness_evaluator], [population_manager],
    [selection_methods], [genetic_operators] and [algorithm_engine].

    Conventions.
    - Python [int] is [Z]; list positions and lengths are [nat].
    - Python [float] is modelled by the exact rationals [Q]: the scores are
      sums of decimal constants and every property stated below is about
      which branch is taken or which constant is added, never about
      rounding.  Equality of scores is [Qeq] ([==]).
    - [str | None] fields are [option string]; Python truthiness of such a
      field ([if assignment.room:]) is [truthy].
    - A Python [dict] whose iteration order matters (the assignments of a
      schedule, the catalog) is an association list in insertion order; the
      counting dictionaries of the evaluator, which are only looked up and
      summed over, are [gmap]s.
    - The random module and the process-wide fitness cache are threaded
      through a state-and-exception monad [M]; the progress messages the
      engine prints are left out. *)

From Stdlib Require Import ZArith QArith Qabs Lia Lqa.
From stdpp Require Import base gmap strings list fin_maps.

Local Open Scope Z_scope.

(** ** Python helpers *)

Definition truthy (x : option string) : bool :=
  match x with
  | Some s => negb (String.eqb s "")
  | None => false
  end.

(** [d.get(k)] on an insertion-ordered dictionary. *)
Fixpoint dict_get {V : Type} (d : list (string * V)) (k : string) : option V :=
  match d with
  | [] => None
  | (k', v) :: d' => if String.eqb k' k then Some v else dict_get d' k
  end.

Definition dict_keys {V : Type} (d : list (string * V)) : list string := map fst d.
Definition dict_values {V : Type} (d : list (string * V)) : list V := map snd d.

(** [x in l] for a list of strings. *)
Definition str_in (x : string) (l : list string) : bool := existsb (String.eqb x) l.

(** Exceptions the package can raise, and results of fallible code. *)
Inductive Exn := ValueError | KeyError | IndexError.

Inductive Res (A : Type) :=
| Ok (a : A)
| Raise (e : Exn).
Arguments Ok {A} a.
Arguments Raise {A} e.

(** [d[k]]: raises [KeyError] when the key is missing. *)
Definition dict_getitem {V : Type} (d : list (string * V)) (k : string) : Res V :=
  match dict_get d k with
  | Some v => Ok v
  | None => Raise KeyError
  end.

(** ** constants.py *)

Definition ALL_FACILITATORS : list string :=
  ["Lock"; "Glen"; "Banks"; "Richards"; "Shaw";
   "Singer"; "Uther"; "Tyler"; "Numen"; "Zeldin"]%string.

Definition ALL_TIME_SLOTS : list string :=
  ["10 AM"; "11 AM"; "12 PM"; "1 PM"; "2 PM"; "3 PM"]%string.

Definition ROOMS_WITH_CAPACITIES : list (string * Z) :=
  [("Beach 201", 18); ("Beach 301", 25); ("Frank 119", 95);
   ("Loft 206", 55); ("Loft 310", 48); ("James 325", 110);
   ("Roman 201", 40); ("Roman 216", 80); ("Slater 003", 32)]%string.

Record ActivityInfo := {
  expected_enrollment : Z;
  preferred_facilitators : list string;
  acceptable_facilitators : list string
}.

Definition ACTIVITY_DEFINITIONS : list (string * ActivityInfo) :=
  [("SLA101A", {| expected_enrollment := 40;
                  preferred_facilitators := ["Glen"; "Lock"; "Banks"];
                  acceptable_facilitators := ["Numen"; "Richards"; "Shaw"; "Singer"] |});
   ("SLA101B", {| expected_enrollment := 35;
                  preferred_facilitators := ["Glen"; "Lock"; "Banks"];
                  acceptable_facilitators := ["Numen"; "Richards"; "Shaw"; "Singer"] |});
   ("SLA191A", {| expected_enrollment := 45;
                  preferred_facilitators := ["Glen"; "Lock"; "Banks"];
                  acceptable_facilitators := ["Numen"; "Richards"; "Shaw"; "Singer"] |});
   ("SLA191B", {| expected_enrollment := 40;
                  preferred_facilitators := ["Glen"; "Lock"; "Banks"];
                  acceptable_facilitators := ["Numen"; "Richards"; "Shaw"; "Singer"] |});
   ("SLA201", {| expected_enrollment := 60;
                 preferred_facilitators := ["Glen"; "Banks"; "Zeldin"; "Lock"; "Singer"];
                 acceptable_facilitators := ["Richards"; "Uther"; "Shaw"] |});
   ("SLA291", {| expected_enrollment := 50;
                 preferred_facilitators := ["Glen"; "Banks"; "Zeldin"; "Lock"; "Singer"];
                 acceptable_facilitators := ["Richards"; "Uther"; "Shaw"] |});
   ("SLA303", {| expected_enrollment := 25;
                 preferred_facilitators := ["Glen"; "Zeldin"];
                 acceptable_facilitators := ["Banks"] |});
   ("SLA304", {| expected_enrollment := 20;
                 preferred_facilitators := ["Singer"; "Uther"];
                 acceptable_facilitators := ["Richards"] |});
   ("SLA394", {| expected_enrollment := 15;
                 preferred_facilitators := ["Tyler"; "Singer"];
                 acceptable_facilitators := ["Richards"; "Zeldin"] |});
   ("SLA449", {| expected_enrollment := 30;
                 preferred_facilitators := ["Tyler"; "Zeldin"; "Uther"];
                 acceptable_facilitators := ["Zeldin"; "Shaw"] |});
   ("SLA451", {| expected_enrollment := 90;
                 preferred_facilitators := ["Lock"; "Banks"; "Zeldin"];
                 acceptable_facilitators := ["Tyler"; "Singer"; "Shaw"; "Glen"] |})]%string.

Definition ALL_ACTIVITIES : list string := dict_keys ACTIVITY_DEFINITIONS.

Definition SLA101_SECTIONS : string * string := ("SLA101A", "SLA101B")%string.
Definition SLA191_SECTIONS : string * string := ("SLA191A", "SLA191B")%string.

Definition CROSS_SECTION_PAIRS : list (string * string) :=
  [("SLA101A", "SLA191A"); ("SLA101A", "SLA191B");
   ("SLA101B", "SLA191A"); ("SLA101B", "SLA191B")]%string.

(** ** models.py *)

Record ActivityAssignment := mkAssignment {
  room : option string;
  time : option string;
  facilitator : option string
}.

(** [ActivityAssignment.copy]: a new object with the same three fields.  At
    this level objects are values; object identity is the subject of the
    [Aliasing] module below. *)
Definition assignment_copy (a : ActivityAssignment) : ActivityAssignment :=
  mkAssignment a.(room) a.(time) a.(facilitator).

Record Schedule := mkSchedule {
  _assignments : list (string * ActivityAssignment);
  _fitness_score : option Q;
  _violation_summary : option (gmap string Z)
}.

(** [Schedule(assignments_dict)] *)
Definition Schedule_init (assignments_dict : option (list (string * ActivityAssignment)))
  : Schedule :=
  {| _fitness_score := None;
     _violation_summary := None;
     _assignments :=
       match assignments_dict with
       | None => map (fun activity_name => (activity_name, mkAssignment None None None))
                     (dict_keys ACTIVITY_DEFINITIONS)
       | Some d => d
       end |}.

(** The property setters [schedule.fitness = v] and [schedule.violations = v]. *)
Definition set_fitness (value : option Q) (s : Schedule) : Schedule :=
  {| _assignments := s.(_assignments);
     _fitness_score := value;
     _violation_summary := s.(_violation_summary) |}.

Definition set_violations (value : option (gmap string Z)) (s : Schedule) : Schedule :=
  {| _assignments := s.(_assignments);
     _fitness_score := s.(_fitness_score);
     _violation_summary := value |}.

Definition create_copy (s : Schedule) : Schedule :=
  let copied_assignments :=
    map (fun '(activity_name, assignment) => (activity_name, assignment_copy assignment))
        s.(_assignments) in
  let new_schedule := Schedule_init (Some copied_assignments) in
  set_fitness s.(_fitness_score) new_schedule.

(** Every schedule the package builds lists the catalog's activities, in the
    catalog's order. *)
Definition catalog_ordered (s : Schedule) : Prop :=
  dict_keys s.(_assignments) = ALL_ACTIVITIES.

(** ** fitness_evaluator.py *)

Local Open Scope Q_scope.

(** [self._time_slot_indices]: position of every slot in [ALL_TIME_SLOTS]. *)
Definition _time_slot_indices : list (string * Z) :=
  imap (fun index time_slot => (time_slot, Z.of_nat index)) ALL_TIME_SLOTS.

Definition _calculate_hour_difference (time_slot_1 time_slot_2 : string) : Z :=
  match dict_get _time_slot_indices time_slot_1, dict_get _time_slot_indices time_slot_2 with
  | Some idx1, Some idx2 => Z.abs (idx1 - idx2)
  | _, _ => 0%Z
  end.

Definition _is_room_in_beach_or_roman (room_name : option string) : bool :=
  match room_name with
  | None => false
  | Some r =>
      if String.eqb r "" then false
      else String.prefix "Beach" r || String.prefix "Roman" r
  end.

(** [capacity / expected] is a float division; the enrollments of the catalog
    are positive, so it never divides by zero. *)
Definition _evaluate_room_size (activity_name : string) (room_name : option string) : Q :=
  match room_name, dict_get ACTIVITY_DEFINITIONS activity_name with
  | Some r, Some info =>
      if String.eqb r "" then 0
      else
        let expected := info.(expected_enrollment) in
        let capacity := default 0%Z (dict_get ROOMS_WITH_CAPACITIES r) in
        if (capacity <? expected)%Z then - (1 # 2)
        else
          let utilization_ratio := inject_Z capacity / inject_Z expected in
          if Qlt_le_dec 3 utilization_ratio then - (2 # 5)
          else if Qlt_le_dec (3 # 2) utilization_ratio then - (1 # 5)
          else 3 # 10
  | _, _ => 0
  end.

Definition _evaluate_facilitator_preference (activity_name : string)
    (fac : option string) : Q :=
  match fac, dict_get ACTIVITY_DEFINITIONS activity_name with
  | Some f, Some activity_info =>
      if String.eqb f "" then 0
      else if str_in f activity_info.(preferred_facilitators) then 1 # 2
      else if str_in f activity_info.(acceptable_facilitators) then 1 # 5
      else - (1 # 10)
  | _, _ => 0
  end.

(** Equality of two truthy [str] fields. *)
Definition same_field (x y : option string) : bool :=
  match x, y with
  | Some a, Some b => String.eqb a b
  | None, None => true
  | _, _ => false
  end.

Definition field_str (x : option string) : string := default ""%string x.

Definition _evaluate_section_spacing (section_1 section_2 : string) (schedule : Schedule)
  : Res Q :=
  match dict_getitem schedule.(_assignments) section_1 with
  | Raise e => Raise e
  | Ok assign_1 =>
  match dict_getitem schedule.(_assignments) section_2 with
  | Raise e => Raise e
  | Ok assign_2 =>
      if negb (truthy assign_1.(time)) || negb (truthy assign_2.(time)) then Ok 0
      else if same_field assign_1.(time) assign_2.(time) then Ok (- (1 # 2))
      else
        let hour_diff := _calculate_hour_difference (field_str assign_1.(time))
                                                    (field_str assign_2.(time)) in
        if (4 <? hour_diff)%Z then Ok (1 # 2) else Ok 0
  end end.

Definition _evaluate_cross_section_interaction (section_101 section_191 : string)
    (schedule : Schedule) : Res Q :=
  match dict_getitem schedule.(_assignments) section_101 with
  | Raise e => Raise e
  | Ok assign_101 =>
  match dict_getitem schedule.(_assignments) section_191 with
  | Raise e => Raise e
  | Ok assign_191 =>
      if negb (truthy assign_101.(time)) || negb (truthy assign_191.(time)) then Ok 0
      else if same_field assign_101.(time) assign_191.(time) then Ok (- (1 # 4))
      else
        let hour_diff := _calculate_hour_difference (field_str assign_101.(time))
                                                    (field_str assign_191.(time)) in
        if (hour_diff =? 1)%Z then
          let score := 1 # 2 in
          let room_101_is_special := _is_room_in_beach_or_roman assign_101.(room) in
          let room_191_is_special := _is_room_in_beach_or_roman assign_191.(room) in
          if negb (Bool.eqb room_101_is_special room_191_is_special)
          then Ok (score - (2 # 5))
          else Ok score
        else if (hour_diff =? 2)%Z then Ok (1 # 4)
        else Ok 0
  end end.

(** The three counting dictionaries of the first pass. *)
Record Usage := mkUsage {
  room_time_usage : gmap (string * string) Z;
  facilitator_time_usage : gmap (string * string) Z;
  facilitator_total_load : gmap string Z
}.

(** [d[k] = d.get(k, 0) + 1] *)
Definition count_up `{Countable K} (k : K) (d : gmap K Z) : gmap K Z :=
  <[k := (default 0 (d !! k) + 1)%Z]> d.

Definition usage_step (u : Usage) (item : string * ActivityAssignment) : Usage :=
  let assignment := item.2 in
  let rtu :=
    if truthy assignment.(room) && truthy assignment.(time)
    then count_up (field_str assignment.(room), field_str assignment.(time))
                  u.(room_time_usage)
    else u.(room_time_usage) in
  let ftu :=
    if truthy assignment.(facilitator) && truthy assignment.(time)
    then count_up (field_str assignment.(facilitator), field_str assignment.(time))
                  u.(facilitator_time_usage)
    else u.(facilitator_time_usage) in
  let ftl :=
    if truthy assignment.(facilitator)
    then count_up (field_str assignment.(facilitator)) u.(facilitator_total_load)
    else u.(facilitator_total_load) in
  mkUsage rtu ftu ftl.

Definition collect_usage (items : list (string * ActivityAssignment)) : Usage :=
  foldl usage_step (mkUsage ∅ ∅ ∅) items.

(** Rule 3 of the second pass: room-time conflict penalty. *)
Definition room_conflict_step (u : Usage) (assignment : ActivityAssignment)
    (activity_score : Q) : Q :=
  if truthy assignment.(room) && truthy assignment.(time) then
    let room_time_key := (field_str assignment.(room), field_str assignment.(time)) in
    if (1 <? default 0 (u.(room_time_usage) !! room_time_key))%Z
    then activity_score - (1 # 2)
    else activity_score
  else activity_score.

(** Rule 4: facilitator same-time score. *)
Definition facilitator_time_step (u : Usage) (assignment : ActivityAssignment)
    (activity_score : Q) : Q :=
  if truthy assignment.(facilitator) && truthy assignment.(time) then
    let facilitator_time_key :=
      (field_str assignment.(facilitator), field_str assignment.(time)) in
    let concurrent_count := default 0%Z (u.(facilitator_time_usage) !! facilitator_time_key) in
    if (concurrent_count =? 1)%Z then activity_score + (1 # 5)
    else if (1 <? concurrent_count)%Z then activity_score - (1 # 5)
    else activity_score
  else activity_score.

(** Rule 5: facilitator total load penalties, with the special rule for
    Tyler. *)
Definition facilitator_load_step (u : Usage) (assignment : ActivityAssignment)
    (activity_score : Q) : Q :=
  if truthy assignment.(facilitator) then
    let total_load :=
      default 0%Z (u.(facilitator_total_load) !! field_str assignment.(facilitator)) in
    if (4 <? total_load)%Z then activity_score - (1 # 2)
    else if (total_load <? 3)%Z then
      if same_field assignment.(facilitator) (Some "Tyler"%string) then
        if (2 <=? total_load)%Z then activity_score - (2 # 5) else activity_score
      else activity_score - (2 # 5)
    else activity_score
  else activity_score.

(** The body of the second-pass loop for one activity. *)
Definition activity_score (u : Usage) (item : string * ActivityAssignment) : Q :=
  let '(activity_name, assignment) := item in
  let activity_score := 0 in
  let activity_score := activity_score + _evaluate_room_size activity_name assignment.(room) in
  let activity_score :=
    activity_score + _evaluate_facilitator_preference activity_name assignment.(facilitator) in
  let activity_score := room_conflict_step u assignment activity_score in
  let activity_score := facilitator_time_step u assignment activity_score in
  let activity_score := facilitator_load_step u assignment activity_score in
  activity_score.

(** Accumulating [total_score += x] over fallible terms. *)
Definition add_res (total : Res Q) (x : Res Q) : Res Q :=
  match total, x with
  | Ok t, Ok v => Ok (t + v)
  | Raise e, _ => Raise e
  | _, Raise e => Raise e
  end.

(** [calculate_schedule_fitness] below the cache lookup: the fresh,
    cache-free computation of the total score. *)
Definition compute_schedule_fitness (schedule : Schedule) : Res Q :=
  let total_score := 0 in
  let u := collect_usage schedule.(_assignments) in
  let total_score :=
    foldl (fun total item => total + activity_score u item) total_score
          schedule.(_assignments) in
  let total_score :=
    add_res (Ok total_score)
            (_evaluate_section_spacing SLA101_SECTIONS.1 SLA101_SECTIONS.2 schedule) in
  let total_score :=
    add_res total_score
            (_evaluate_section_spacing SLA191_SECTIONS.1 SLA191_SECTIONS.2 schedule) in
  foldl (fun total '(section_101, section_191) =>
           add_res total (_evaluate_cross_section_interaction section_101 section_191 schedule))
        total_score CROSS_SECTION_PAIRS.

(** [violation_counts[key] += n] *)
Definition bump (key : string) (n : Z) (violation_counts : gmap string Z) : gmap string Z :=
  <[key := (default 0 (violation_counts !! key) + n)%Z]> violation_counts.

Definition initial_violation_counts : gmap string Z :=
  list_to_map
    [("room_conflicts", 0%Z); ("room_too_small", 0%Z); ("room_too_big_15", 0%Z);
     ("room_too_big_30", 0%Z); ("facilitator_overload", 0%Z);
     ("facilitator_underload", 0%Z); ("facilitator_same_time_conflict", 0%Z);
     ("sla101_same_time", 0%Z); ("sla191_same_time", 0%Z);
     ("sla101_191_same_time", 0%Z); ("sla101_191_building_mismatch", 0%Z);
     ("sla101_191_one_hour_gap", 0%Z); ("sla101_191_consecutive_pair", 0%Z)]%string.

(** Room size violations of the first pass, for one activity. *)
Definition room_size_violation (item : string * ActivityAssignment)
    (violation_counts : gmap string Z) : gmap string Z :=
  let '(activity_name, assignment) := item in
  match dict_get ACTIVITY_DEFINITIONS activity_name with
  | Some info =>
      if truthy assignment.(room) then
        let expected := info.(expected_enrollment) in
        let capacity :=
          default 0%Z (dict_get ROOMS_WITH_CAPACITIES (field_str assignment.(room))) in
        if (capacity <? expected)%Z then bump "room_too_small" 1 violation_counts
        else if (0 <? capacity)%Z && (0 <? expected)%Z then
          let ratio := inject_Z capacity / inject_Z expected in
          if Qlt_le_dec 3 ratio then bump "room_too_big_30" 1 violation_counts
          else if Qlt_le_dec (3 # 2) ratio then bump "room_too_big_15" 1 violation_counts
          else violation_counts
        else violation_counts
      else violation_counts
  | None => violation_counts
  end.

(** First pass of the violation counter: the three counting dictionaries and
    the room size counters are filled in one loop. *)
Definition violation_first_pass (items : list (string * ActivityAssignment))
  : gmap string Z * Usage :=
  foldl (fun '(violation_counts, u) item =>
           (room_size_violation item violation_counts, usage_step u item))
        (initial_violation_counts, mkUsage ∅ ∅ ∅) items.

(** [for count in counts.values(): if count > 1: violation_counts[key] += count - 1] *)
Definition count_conflicts (key : string) (counts : gmap (string * string) Z)
    (violation_counts : gmap string Z) : gmap string Z :=
  map_fold (fun _ count vc => if (1 <? count)%Z then bump key (count - 1) vc else vc)
           violation_counts counts.

(** [for facilitator, total in facilitator_total_counts.items(): ...] *)
Definition count_load_violations (facilitator_total_counts : gmap string Z)
    (violation_counts : gmap string Z) : gmap string Z :=
  map_fold (fun fac total vc =>
              if (4 <? total)%Z then bump "facilitator_overload" 1 vc
              else if (total <? 3)%Z then
                if String.eqb fac "Tyler" then
                  if (2 <=? total)%Z then bump "facilitator_underload" 1 vc else vc
                else bump "facilitator_underload" 1 vc
              else vc)
           violation_counts facilitator_total_counts.

Definition same_time_violation (key : string) (sections : string * string)
    (schedule : Schedule) (violation_counts : gmap string Z) : Res (gmap string Z) :=
  match dict_getitem schedule.(_assignments) sections.1 with
  | Raise e => Raise e
  | Ok assign_a =>
  match dict_getitem schedule.(_assignments) sections.2 with
  | Raise e => Raise e
  | Ok assign_b =>
      if truthy assign_a.(time) && truthy assign_b.(time)
         && same_field assign_a.(time) assign_b.(time)
      then Ok (bump key 1 violation_counts)
      else Ok violation_counts
  end end.

Definition cross_section_violation (schedule : Schedule)
    (acc : Res (gmap string Z)) (pair : string * string) : Res (gmap string Z) :=
  match acc with
  | Raise e => Raise e
  | Ok violation_counts =>
  let '(section_101, section_191) := pair in
  match dict_getitem schedule.(_assignments) section_101 with
  | Raise e => Raise e
  | Ok assign_101 =>
  match dict_getitem schedule.(_assignments) section_191 with
  | Raise e => Raise e
  | Ok assign_191 =>
      if negb (truthy assign_101.(time)) || negb (truthy assign_191.(time))
      then Ok violation_counts
      else if same_field assign_101.(time) assign_191.(time)
      then Ok (bump "sla101_191_same_time" 1 violation_counts)
      else
        let hour_diff := _calculate_hour_difference (field_str assign_101.(time))
                                                    (field_str assign_191.(time)) in
        if (hour_diff =? 1)%Z then
          let violation_counts := bump "sla101_191_consecutive_pair" 1 violation_counts in
          if truthy assign_101.(room) && truthy assign_191.(room) then
            let room_101_special := _is_room_in_beach_or_roman assign_101.(room) in
            let room_191_special := _is_room_in_beach_or_roman assign_191.(room) in
            if negb (Bool.eqb room_101_special room_191_special)
            then Ok (bump "sla101_191_building_mismatch" 1 violation_counts)
            else Ok violation_counts
          else Ok violation_counts
        else if (hour_diff =? 2)%Z
        then Ok (bump "sla101_191_one_hour_gap" 1 violation_counts)
        else Ok violation_counts
  end end end.

(** The counts computed by [calculate_constraint_violations]. *)
Definition count_constraint_violations (schedule : Schedule) : Res (gmap string Z) :=
  let '(violation_counts, u) := violation_first_pass schedule.(_assignments) in
  let violation_counts := count_conflicts "room_conflicts" u.(room_time_usage) violation_counts in
  let violation_counts := count_load_violations u.(facilitator_total_load) violation_counts in
  let violation_counts :=
    count_conflicts "facilitator_same_time_conflict" u.(facilitator_time_usage)
                    violation_counts in
  match same_time_violation "sla101_same_time" SLA101_SECTIONS schedule violation_counts with
  | Raise e => Raise e
  | Ok violation_counts =>
  match same_time_violation "sla191_same_time" SLA191_SECTIONS schedule violation_counts with
  | Raise e => Raise e
  | Ok violation_counts =>
      foldl (cross_section_violation schedule) (Ok violation_counts) CROSS_SECTION_PAIRS
  end end.

(** [calculate_constraint_violations]: the counts are stored in the schedule
    and returned. *)
Definition calculate_constraint_violations (schedule : Schedule)
  : Res (gmap string Z * Schedule) :=
  match count_constraint_violations schedule with
  | Raise e => Raise e
  | Ok violation_counts =>
      Ok (violation_counts, set_violations (Some violation_counts) schedule)
  end.

(** ** The state of the process: random source and fitness cache

    [random_source] lists the raw values the generator hands out, in order;
    [draws_used] counts the calls made so far.  [_fitness_cache] is the
    dictionary of the global [fitness_calculator], keyed by
    [hash(str(...))]. *)

Record World := mkWorld {
  random_source : nat -> N;
  draws_used : nat;
  _fitness_cache : gmap Z Q
}.

Definition M (A : Type) : Type := World -> Res A * World.

Definition ret {A} (a : A) : M A := fun w => (Ok a, w).

Definition bind {A B} (m : M A) (k : A -> M B) : M B :=
  fun w =>
    match m w with
    | (Ok a, w') => k a w'
    | (Raise e, w') => (Raise e, w')
    end.

Definition raise {A} (e : Exn) : M A := fun w => (Raise e, w).

Definition lift_res {A} (r : Res A) : M A := fun w => (r, w).

Declare Scope py_scope.
Delimit Scope py_scope with py.
Notation "x <- m ;; k" := (bind m (fun x => k))
  (at level 20, m at level 99, k at level 200, right associativity) : py_scope.
Notation "' pat <- m ;; k" := (bind m (fun x => match x with pat => k end))
  (at level 20, pat pattern, m at level 99, k at level 200, right associativity) : py_scope.
Local Open Scope py_scope.

(** [for x in xs: ys.append(f(x))] *)
Fixpoint for_each {A B} (f : A -> M B) (xs : list A) : M (list B) :=
  match xs with
  | [] => ret []
  | x :: xs' => y <- f x ;; ys <- for_each f xs' ;; ret (y :: ys)
  end.

(** The same loop for code that only raises. *)
Fixpoint for_each_res {A B} (f : A -> Res B) (xs : list A) : Res (list B) :=
  match xs with
  | [] => Ok []
  | x :: xs' =>
      match f x with
      | Raise e => Raise e
      | Ok y => match for_each_res f xs' with
                | Raise e => Raise e
                | Ok ys => Ok (y :: ys)
                end
      end
  end.

(** *** The random module

    Every call of the generator consumes one raw draw [k].
    [random.random()] is [k mod 2^53 / 2^53], a multiple of [2^-53] in
    [[0, 1)]; [random.randint(a, b)] and [random.choice(seq)] reduce the
    draw modulo the size of their range. *)

Definition next_draw : M N :=
  fun w =>
    (Ok (w.(random_source) w.(draws_used)),
     mkWorld w.(random_source) (S w.(draws_used)) w.(_fitness_cache)).

Definition two_53 : positive := 9007199254740992.

Definition random_random : M Q :=
  k <- next_draw ;; ret (Z.of_N (k mod Npos two_53) # two_53).

Definition random_randint (a b : Z) : M Z :=
  if (b <? a)%Z then raise ValueError
  else k <- next_draw ;; ret (a + Z.of_N k mod (b - a + 1))%Z.

Definition random_choice {A} (seq : list A) : M A :=
  match seq with
  | [] => raise IndexError
  | x :: _ =>
      k <- next_draw ;;
      ret (nth (N.to_nat (k mod N.of_nat (length seq))) seq x)
  end.

(** [random.choices(population, weights=..., k=1)[0]].  The weights fix the
    distribution of the draw, not its range: whatever they are, the result
    is an element of [population].  The model lets the draw fall on any
    element, so every run of the source is a run of the model and what is
    proved here for all random sources holds of the source.  The weights
    handed over by the engine come from the softmax, in which the best score
    has weight [exp(0) = 1], so their total is positive and the call does
    not raise for a non-empty population. *)
Definition random_choices_one {A} (population : list A) : M A :=
  random_choice population.

(** ** population_manager.py *)

Definition generate_random_assignment : M ActivityAssignment :=
  random_room <- random_choice (dict_keys ROOMS_WITH_CAPACITIES) ;;
  random_time <- random_choice ALL_TIME_SLOTS ;;
  random_facilitator <- random_choice ALL_FACILITATORS ;;
  ret (mkAssignment (Some random_room) (Some random_time) (Some random_facilitator)).

(** The activity names of the catalog are pairwise distinct, so every store
    [assignments_collection[activity_name] = ...] adds a new key at the end. *)
Definition generate_random_schedule : M Schedule :=
  assignments_collection <-
    for_each (fun activity_name =>
                a <- generate_random_assignment ;; ret (activity_name, a))
             (dict_keys ACTIVITY_DEFINITIONS) ;;
  ret (Schedule_init (Some assignments_collection)).

(** [range(n)] for a Python integer: empty when [n <= 0]. *)
Definition py_range (n : Z) : list Z := map Z.of_nat (seq 0 (Z.to_nat n)).

Definition create_initial_population (population_size : Z) : M (list Schedule) :=
  if (population_size <? 250)%Z then raise ValueError
  else for_each (fun _ => generate_random_schedule) (py_range population_size).

(** ** selection_methods.py *)

(** The [selection_probabilities] argument of the source only weights the
    two draws (see [random_choices_one]). *)
Definition select_parent_pairs (population : list Schedule) (number_of_pairs : Z)
  : M (list (Schedule * Schedule)) :=
  for_each (fun _ =>
              parent_a <- random_choices_one population ;;
              parent_b <- random_choices_one population ;;
              ret (parent_a, parent_b))
           (py_range number_of_pairs).

(** [list.sort(key=lambda pair: pair[1], reverse=True)]: a stable sort, so
    pairs of equal fitness keep their order. *)
Fixpoint insert_descending (x : Schedule * Q) (l : list (Schedule * Q))
  : list (Schedule * Q) :=
  match l with
  | [] => [x]
  | y :: l' =>
      if Qle_bool y.2 x.2 then x :: y :: l' else y :: insert_descending x l'
  end.

Definition sort_descending (l : list (Schedule * Q)) : list (Schedule * Q) :=
  foldr insert_descending [] l.

(** [l[:k]] for a Python integer [k]: a negative [k] counts from the end. *)
Definition py_slice_to {A} (k : Z) (l : list A) : list A :=
  if (0 <=? k)%Z then take (Z.to_nat k) l
  else take (Z.to_nat (Z.of_nat (length l) + k)) l.

Definition py_zip {A B} (l : list A) (k : list B) : list (A * B) := zip l k.

Definition select_best_schedules (population : list Schedule) (fitness_scores : list Q)
    (number_to_select : Z) : list Schedule :=
  let schedule_fitness_pairs := py_zip population fitness_scores in
  let schedule_fitness_pairs := sort_descending schedule_fitness_pairs in
  map (fun '(schedule, _) => create_copy schedule)
      (py_slice_to number_to_select schedule_fitness_pairs).

(** ** genetic_operators.py *)

(** [enumerate(l)] *)
Definition enumerate {A} (l : list A) : list (Z * A) :=
  imap (fun index x => (Z.of_nat index, x)) l.

Definition copy_from (parent : Schedule) (activity_name : string)
  : Res (string * ActivityAssignment) :=
  match dict_getitem parent.(_assignments) activity_name with
  | Raise e => Raise e
  | Ok a => Ok (activity_name, assignment_copy a)
  end.

(** The loop of [perform_single_point_crossover] for a given crossover
    point. *)
Definition single_point_child (crossover_point : Z) (parent_1 parent_2 : Schedule)
  : Res (list (string * ActivityAssignment)) :=
  for_each_res (fun '(index, activity_name) =>
                  if (index <=? crossover_point)%Z
                  then copy_from parent_1 activity_name
                  else copy_from parent_2 activity_name)
               (enumerate ALL_ACTIVITIES).

Definition perform_single_point_crossover (parent_1 parent_2 : Schedule) : M Schedule :=
  crossover_point <- random_randint 0 (Z.of_nat (length ALL_ACTIVITIES) - 1) ;;
  child_assignments <- lift_res (single_point_child crossover_point parent_1 parent_2) ;;
  ret (Schedule_init (Some child_assignments)).

Definition perform_uniform_crossover (parent_1 parent_2 : Schedule)
    (crossover_probability : Q) : M Schedule :=
  child_assignments <-
    for_each (fun activity_name =>
                u <- random_random ;;
                if Qlt_le_dec u crossover_probability
                then lift_res (copy_from parent_2 activity_name)
                else lift_res (copy_from parent_1 activity_name))
             ALL_ACTIVITIES ;;
  ret (Schedule_init (Some child_assignments)).

(** One round of the mutation loop: each of the three fields is replaced
    with probability [mutation_probability]. *)
Definition mutate_assignment (mutation_probability : Q)
    (item : string * ActivityAssignment) : M (string * ActivityAssignment) :=
  let '(activity_name, assignment) := item in
  u <- random_random ;;
  new_room <-
    (if Qlt_le_dec u mutation_probability
     then r <- random_choice (dict_keys ROOMS_WITH_CAPACITIES) ;; ret (Some r)
     else ret assignment.(room)) ;;
  u <- random_random ;;
  new_time <-
    (if Qlt_le_dec u mutation_probability
     then t <- random_choice ALL_TIME_SLOTS ;; ret (Some t)
     else ret assignment.(time)) ;;
  u <- random_random ;;
  new_facilitator <-
    (if Qlt_le_dec u mutation_probability
     then f <- random_choice ALL_FACILITATORS ;; ret (Some f)
     else ret assignment.(facilitator)) ;;
  ret (activity_name, mkAssignment new_room new_time new_facilitator).

(** [apply_mutation]: the assignments are changed in place, then
    [schedule.fitness = None]; the schedule handed back is the same object. *)
Definition apply_mutation (schedule : Schedule) (mutation_probability : Q) : M Schedule :=
  mutated <- for_each (mutate_assignment mutation_probability) schedule.(_assignments) ;;
  let schedule :=
    {| _assignments := mutated;
       _fitness_score := schedule.(_fitness_score);
       _violation_summary := schedule.(_violation_summary) |} in
  ret (set_fitness None schedule).

(** ** fitness_evaluator.py: the memoized entry point, and algorithm_engine.py

    [hash_str] stands for Python's built-in [hash(str(...))] applied to the
    list of [(room, time, facilitator)] triples of a schedule; the hash of a
    string is fixed by the interpreter for the life of the process. *)

Definition assignment_triples (schedule : Schedule)
  : list (option string * option string * option string) :=
  map (fun a => (a.(room), a.(time), a.(facilitator))) (dict_values schedule.(_assignments)).

Record GenerationRecord := mkRecord {
  generation : Z;
  best : Q;
  avg : Q;
  worst : Q;
  improvement : option Q;
  mutation_rate : Q
}.

Record Config := mkConfig {
  population_size : Z;
  minimum_generations : Z;
  maximum_generations : Z;
  initial_mutation_probability : Q;
  crossover_method : string;
  elitism_count : Z;
  use_adaptive_mutation : bool
}.

(** The keyword defaults of [run_optimization]. *)
Definition default_config : Config :=
  {| population_size := 250;
     minimum_generations := 100;
     maximum_generations := 500;
     initial_mutation_probability := 1 # 100;
     crossover_method := "single_point";
     elitism_count := 1;
     use_adaptive_mutation := true |}.

(** The variables of the evolution loop. *)
Record LoopState := mkLoopState {
  current_population : list Schedule;
  current_mutation_rate : Q;
  previous_average_fitness : option Q;
  generation_history : list GenerationRecord;
  total_generations_run : Z
}.

Record Results := mkResults {
  best_schedule : Schedule;
  history : list GenerationRecord;
  final_mutation_rate : Q;
  generations_run : Z;
  final_best : Q;
  final_average : Q;
  final_worst : Q
}.

(** [max(xs)] and [min(xs)] of a non-empty list: the first extremal element. *)
Definition py_max (x : Q) (xs : list Q) : Q :=
  foldl (fun m y => if Qlt_le_dec m y then y else m) x xs.

Definition py_min (x : Q) (xs : list Q) : Q :=
  foldl (fun m y => if Qlt_le_dec y m then y else m) x xs.

(** [selection_methods.calculate_softmax_probabilities], for a given
    exponential function ([math.exp] in the source).  The probabilities are
    the weights of [random.choices] in [select_parent_pairs]. *)
Section Softmax.

Variable exp : Q -> Q.

Definition calculate_softmax_probabilities (fitness_scores : list Q) : list Q :=
  match fitness_scores with
  | [] => []
  | x :: xs =>
      let max_score := py_max x xs in
      let exponentiated_scores :=
        map (fun score => exp (score - max_score)) fitness_scores in
      let total := foldl Qplus 0 exponentiated_scores in
      if Qeq_bool total 0
      then replicate (length fitness_scores)
                     (1 / inject_Z (Z.of_nat (length fitness_scores)))
      else map (fun score => score / total) exponentiated_scores
  end.

End Softmax.

(** [statistics.mean] *)
Definition mean (xs : list Q) : Q :=
  foldl Qplus 0 xs / inject_Z (Z.of_nat (length xs)).

(** [max(range(len(scores)), key=lambda i: scores[i])]: the first position
    of a maximal score; [ValueError] on an empty range. *)
Definition py_argmax (scores : list Q) : Res nat :=
  match scores with
  | [] => Raise ValueError
  | x :: xs =>
      Ok (foldl (fun '(best_index, best_score, index) y =>
                   if Qlt_le_dec best_score y then (index, y, S index)
                   else (best_index, best_score, S index))
                (0%nat, x, 1%nat) xs).1.1
  end.

Definition improvement_of (previous_average_fitness : option Q)
    (generation_average_fitness : Q) : option Q :=
  match previous_average_fitness with
  | None => None
  | Some previous =>
      let denominator :=
        if Qlt_le_dec (1 # 1000000000) (Qabs previous) then Qabs previous
        else 1 # 1000000000 in
      Some ((generation_average_fitness - previous) / denominator * 100)
  end.

Definition should_terminate (minimum_generations generation_number : Z)
    (improvement_percentage : option Q) : bool :=
  (minimum_generations <=? generation_number + 1)%Z
  && match improvement_percentage with
     | Some i => if Qlt_le_dec i 1 then true else false
     | None => false
     end.

Definition adapt_mutation_rate (use_adaptive_mutation : bool) (generation_number : Z)
    (improvement_percentage : option Q) (current_mutation_rate : Q) : Q :=
  if use_adaptive_mutation && (0 <? generation_number)%Z
     && (generation_number mod 20 =? 0)%Z
  then match improvement_percentage with
       | Some i => if Qlt_le_dec (1 # 10) i then current_mutation_rate / 2
                   else current_mutation_rate
       | None => current_mutation_rate
       end
  else current_mutation_rate.

(** "CREATE NEXT GENERATION": elites first, cut or padded to the size. *)
Definition assemble_next_generation (population_size : Z)
    (elite_schedules offspring_schedules : list Schedule) : list Schedule :=
  let next_generation := elite_schedules ++ offspring_schedules in
  if (population_size <? Z.of_nat (length next_generation))%Z
  then py_slice_to population_size next_generation
  else if (Z.of_nat (length next_generation) <? population_size)%Z
  then
    let shortage := (population_size - Z.of_nat (length next_generation))%Z in
    next_generation ++ py_slice_to shortage offspring_schedules
  else next_generation.

Section Engine.

Variable hash_str : list (option string * option string * option string) -> Z.

Definition cache_key (schedule : Schedule) : Z := hash_str (assignment_triples schedule).

(** [FitnessCalculator.calculate_schedule_fitness]: the score is looked up
    in the cache; on a miss it is computed, stored, written to
    [schedule.fitness] and returned. *)
Definition calculate_schedule_fitness (schedule : Schedule) : M (Q * Schedule) :=
  fun w =>
    let key := cache_key schedule in
    match w.(_fitness_cache) !! key with
    | Some cached => (Ok (cached, set_fitness (Some cached) schedule), w)
    | None =>
        match compute_schedule_fitness schedule with
        | Raise e => (Raise e, w)
        | Ok total_score =>
            (Ok (total_score, set_fitness (Some total_score) schedule),
             mkWorld w.(random_source) w.(draws_used)
                     (<[key := total_score]> w.(_fitness_cache)))
        end
    end.

(** [_evaluate_entire_population]; the schedules come back with their
    [fitness] field written. *)
Definition _evaluate_entire_population (population : list Schedule)
  : M (list Q * Q * Q * Q * list Schedule) :=
  evaluated <- for_each calculate_schedule_fitness population ;;
  let fitness_scores := map fst evaluated in
  let population := map snd evaluated in
  match fitness_scores with
  | [] => ret ([], 0, 0, 0, population)
  | x :: xs =>
      ret (fitness_scores, py_max x xs, mean fitness_scores, py_min x xs, population)
  end.

(** "REPRODUCTION PHASE": crossover, then mutation, for every pair. *)
Definition reproduce (crossover_method : string) (current_mutation_rate : Q)
    (parent_combinations : list (Schedule * Schedule)) : M (list Schedule) :=
  for_each (fun '(parent_a, parent_b) =>
              child_schedule <-
                (if String.eqb crossover_method "uniform"
                 then perform_uniform_crossover parent_a parent_b (1 # 2)
                 else perform_single_point_crossover parent_a parent_b) ;;
              apply_mutation child_schedule current_mutation_rate)
           parent_combinations.

(** One turn of the main loop for [generation_number]; the flag tells whether
    the loop was left by [break]. *)
Definition run_generation (cfg : Config) (generation_number : Z) (st : LoopState)
  : M (bool * LoopState) :=
  '(current_fitness_scores, generation_best_fitness, generation_average_fitness,
    generation_worst_fitness, population) <-
    _evaluate_entire_population st.(current_population) ;;
  let improvement_percentage :=
    improvement_of st.(previous_average_fitness) generation_average_fitness in
  let generation_record :=
    {| generation := generation_number;
       best := generation_best_fitness;
       avg := generation_average_fitness;
       worst := generation_worst_fitness;
       improvement := improvement_percentage;
       mutation_rate := st.(current_mutation_rate) |} in
  let generation_history := st.(generation_history) ++ [generation_record] in
  if should_terminate cfg.(minimum_generations) generation_number improvement_percentage
  then
    ret (true,
         mkLoopState population st.(current_mutation_rate)
                     (Some generation_average_fitness) generation_history
                     (generation_number + 1))
  else
    let current_mutation_rate :=
      adapt_mutation_rate cfg.(use_adaptive_mutation) generation_number
                          improvement_percentage st.(current_mutation_rate) in
    let number_of_parent_pairs := (cfg.(population_size) - cfg.(elitism_count))%Z in
    parent_combinations <- select_parent_pairs population number_of_parent_pairs ;;
    offspring_schedules <-
      reproduce cfg.(crossover_method) current_mutation_rate parent_combinations ;;
    let elite_schedules :=
      select_best_schedules population current_fitness_scores cfg.(elitism_count) in
    let next_generation :=
      assemble_next_generation cfg.(population_size) elite_schedules offspring_schedules in
    ret (false,
         mkLoopState next_generation current_mutation_rate
                     (Some generation_average_fitness) generation_history
                     (generation_number + 1)).

(** [for generation_number in range(maximum_generations): ...] *)
Fixpoint evolution_loop (cfg : Config) (generations : list Z) (st : LoopState)
  : M LoopState :=
  match generations with
  | [] => ret st
  | generation_number :: rest =>
      '(stop, st') <- run_generation cfg generation_number st ;;
      if (stop : bool) then ret st' else evolution_loop cfg rest st'
  end.

Definition run_optimization (cfg : Config) : M Results :=
  initial_population <- create_initial_population cfg.(population_size) ;;
  st <- evolution_loop cfg (py_range cfg.(maximum_generations))
          (mkLoopState initial_population cfg.(initial_mutation_probability) None [] 0) ;;
  '(final_fitness_scores, final_best_fitness, final_average_fitness,
    final_worst_fitness, population) <-
    _evaluate_entire_population st.(current_population) ;;
  best_schedule_index <- lift_res (py_argmax final_fitness_scores) ;;
  match population !! best_schedule_index with
  | None => raise IndexError
  | Some optimal_schedule =>
      '(_, optimal_schedule) <- lift_res (calculate_constraint_violations optimal_schedule) ;;
      ret {| best_schedule := optimal_schedule;
             history := st.(generation_history);
             final_mutation_rate := st.(current_mutation_rate);
             generations_run := st.(total_generations_run);
             final_best := final_best_fitness;
             final_average := final_average_fitness;
             final_worst := final_worst_fitness |}
  end.

End Engine.

(** ** Object identity: assignments as objects in a store

    [ActivityAssignment] objects are mutable and a schedule's dictionary
    holds references to them.  Here a reference is a position in the list of
    all objects allocated so far; allocation appends, so the reference of a
    new object is the current length of the store. *)
Module Aliasing.

Inductive Fault := MissingKey | Dangling.

(** [obj.copy()]: a new object with the fields of the object at [r]. *)
Definition copy_object (store : list ActivityAssignment) (r : nat)
  : option (nat * list ActivityAssignment) :=
  match store !! r with
  | None => None
  | Some a => Some (length store, store ++ [mkAssignment a.(room) a.(time) a.(facilitator)])
  end.

(** The loop of [perform_single_point_crossover] on references: [parent_1]
    and [parent_2] are the parents' dictionaries, the result is the child's
    dictionary and the store after the copies. *)
Fixpoint single_point_child_refs (crossover_point : Z)
    (parent_1 parent_2 : list (string * nat)) (items : list (Z * string))
    (store : list ActivityAssignment)
  : Fault + (list (string * nat) * list ActivityAssignment) :=
  match items with
  | [] => inr ([], store)
  | (index, activity_name) :: rest =>
      let parent := if (index <=? crossover_point)%Z then parent_1 else parent_2 in
      match dict_get parent activity_name with
      | None => inl MissingKey
      | Some r =>
          match copy_object store r with
          | None => inl Dangling
          | Some (r', store') =>
              match single_point_child_refs crossover_point parent_1 parent_2 rest store' with
              | inl e => inl e
              | inr (child, store'') => inr ((activity_name, r') :: child, store'')
              end
          end
      end
  end.

(** The schedule a dictionary of references denotes in a store. *)
Definition deref (store : list ActivityAssignment) (d : list (string * nat))
  : option (list (string * ActivityAssignment)) :=
  mapM (fun '(activity_name, r) => a ← store !! r; Some (activity_name, a)) d.

(** A dictionary of a schedule of the package: one live object per activity
    of the catalog. *)
Definition well_formed (store : list ActivityAssignment) (d : list (string * nat)) : Prop :=
  dict_keys d = ALL_ACTIVITIES ∧ Forall (fun '(_, r) => (r < length store)%nat) d.

End Aliasing.

(** ** Notions the properties are stated with *)

(** Number of occurrences of [x] in [l]. *)
Definition occurrences {A} `{EqDecision A} (x : A) (l : list A) : Z :=
  Z.of_nat (length (filter (x =.) l)).

(** The facilitators of the activities that have one, one entry per
    activity. *)
Definition facilitator_names (items : list (string * ActivityAssignment)) : list string :=
  omap (fun item : string * ActivityAssignment =>
          if truthy item.2.(facilitator) then Some (field_str item.2.(facilitator))
          else None) items.

(** The (room, time slot) pairs of the activities that have both, one entry
    per activity. *)
Definition room_time_keys (items : list (string * ActivityAssignment))
  : list (string * string) :=
  omap (fun item : string * ActivityAssignment =>
          if truthy item.2.(room) && truthy item.2.(time)
          then Some (field_str item.2.(room), field_str item.2.(time))
          else None) items.

(** Total load of a facilitator over the whole schedule. *)
Definition facilitator_load (s : Schedule) (fac : string) : Z :=
  occurrences fac (facilitator_names s.(_assignments)).

(** Number of activities placed in a (room, time slot) pair. *)
Definition occupants (s : Schedule) (key : string * string) : Z :=
  occurrences key (room_time_keys s.(_assignments)).

Definition sum_over {A} (g : A -> Z) (l : list A) : Z :=
  foldr (fun x acc => (g x + acc)%Z) 0%Z l.

(** The load rule in the words of the specification: more than 4 is an
    overload; fewer than 3 is an underload, except that Tyler is exempt
    below 2. *)
Definition overloaded (total : Z) : bool := (4 <? total)%Z.

Definition underloaded (fac : string) (total : Z) : bool :=
  (total <? 3)%Z && negb (String.eqb fac "Tyler" && (total <? 2)%Z).



(** Room conflicts in the words of the specification: every pair occupied
    by [k > 1] activities counts [k - 1]. *)
Definition room_conflicts_spec (s : Schedule) : Z :=
  sum_over (fun key => if (1 <? occupants s key)%Z then (occupants s key - 1)%Z else 0%Z)
           (remove_dups (room_time_keys s.(_assignments))).

Definition count_where {A} (p : A -> bool) (l : list A) : Z :=
  sum_over (fun x => if p x then 1%Z else 0%Z) l.

(** Distinct facilitators in overload, and in underload. *)
Definition overloaded_facilitators (s : Schedule) : Z :=
  count_where (fun fac => overloaded (facilitator_load s fac))
              (remove_dups (facilitator_names s.(_assignments))).

Definition underloaded_facilitators (s : Schedule) : Z :=
  count_where (fun fac => underloaded fac (facilitator_load s fac))
              (remove_dups (facilitator_names s.(_assignments))).

(** The counters written by the cross-section analysis. *)
Definition cross_keys : list string :=
  ["sla101_191_same_time"; "sla101_191_consecutive_pair";
   "sla101_191_building_mismatch"; "sla101_191_one_hour_gap"]%string.


(** [yields m w P]: run from the world [w], the computation [m] returns
    normally, with a value and a final world that satisfy [P]. *)
Definition yields {A} (m : M A) (w : World) (P : A -> World -> Prop) : Prop :=
  exists a w', m w = (Ok a, w') /\ P a w'.

(** The source of the copy made for the activity at position [index]. *)
Definition donor (crossover_point index : Z) (parent_1 parent_2 : Schedule) : Schedule :=
  if (index <=? crossover_point)%Z then parent_1 else parent_2.

(** The plateau condition for the generation a record describes. *)
Definition plateau (minimum_generations : Z) (rec : GenerationRecord) : Prop :=
  (minimum_generations <= rec.(generation) + 1)%Z
  /\ exists i, rec.(improvement) = Some i /\ i < 1.

(** The conditions under which the rate may be halved after the generation
    of a record. *)
Definition halving_allowed (cfg : Config) (rec : GenerationRecord) : Prop :=
  cfg.(use_adaptive_mutation) = true
  /\ (0 < rec.(generation))%Z /\ (rec.(generation) mod 20 = 0)%Z
  /\ exists i, rec.(improvement) = Some i /\ 1 # 10 < i.

(** The rate in effect after the generation of [rec] is the rate of [rec],
    or half of it when halving is allowed. *)
Definition rate_step (cfg : Config) (rec : GenerationRecord) (next_rate : Q) : Prop :=
  next_rate = rec.(mutation_rate)
  \/ (next_rate = rec.(mutation_rate) / 2 /\ halving_allowed cfg rec).

(** [trail cfg history rate previous]: [history] records generations
    [0 .. n-1], none of which met the plateau condition, and leaves the loop
    with the mutation rate [rate] and the previous average [previous]. *)
Inductive trail (cfg : Config) : list GenerationRecord -> Q -> option Q -> Prop :=
| trail_start : trail cfg [] cfg.(initial_mutation_probability) None
| trail_next history rate previous rec rate' :
    trail cfg history rate previous ->
    rec.(generation) = Z.of_nat (length history) ->
    rec.(mutation_rate) = rate ->
    rec.(improvement) = improvement_of previous rec.(avg) ->
    ~ plateau cfg.(minimum_generations) rec ->
    rate_step cfg rec rate' ->
    trail cfg (history ++ [rec]) rate' (Some rec.(avg)).

(** A population of the configured size, made of schedules over the
    catalog. *)
Definition population_ok (cfg : Config) (population : list Schedule) : Prop :=
  Z.of_nat (length population) = cfg.(population_size)
  /\ Forall catalog_ordered population.

(** The loop state after [n] generations that did not stop the loop. *)
Definition running (cfg : Config) (n : nat) (st : LoopState) : Prop :=
  population_ok cfg st.(current_population)
  /\ st.(total_generations_run) = Z.of_nat n
  /\ length st.(generation_history) = n
  /\ trail cfg st.(generation_history) st.(current_mutation_rate)
           st.(previous_average_fitness).

(** The loop state after a generation that met the plateau condition. *)
Definition stopped (cfg : Config) (st : LoopState) : Prop :=
  population_ok cfg st.(current_population)
  /\ exists history previous rec,
       trail cfg history st.(current_mutation_rate) previous
       /\ st.(generation_history) = history ++ [rec]
       /\ rec.(generation) = Z.of_nat (length history)
       /\ rec.(mutation_rate) = st.(current_mutation_rate)
       /\ rec.(improvement) = improvement_of previous rec.(avg)
       /\ plateau cfg.(minimum_generations) rec
       /\ st.(total_generations_run) = Z.of_nat (S (length history)).

(** The mutation rates of a run in order: the rate recorded for each
    generation, then the rate in effect when the loop was left. *)
Definition rates (history : list GenerationRecord) (last_rate : Q) : list Q :=
  map mutation_rate history ++ [last_rate].

(** The rate starts at the configured probability and from one generation
    to the next it is kept, or halved when halving is allowed. *)
Definition rates_ok (cfg : Config) (history : list GenerationRecord) (last_rate : Q) : Prop :=
  rates history last_rate !! 0%nat = Some cfg.(initial_mutation_probability)
  /\ forall i rec next,
       history !! i = Some rec -> rates history last_rate !! S i = Some next ->
       rate_step cfg rec next.

Definition non_increasing (l : list Q) : Prop :=
  forall i j ri rj, (i <= j)%nat -> l !! i = Some ri -> l !! j = Some rj -> rj <= ri.

Definition rates_monotone (history : list GenerationRecord) (last_rate : Q) : Prop :=
  non_increasing (rates history last_rate)
  /\ Forall (fun r => 0 <= r /\ last_rate <= r) (rates history last_rate).



(** ** Sample data *)

Definition assigned (r t f : string) : ActivityAssignment :=
  mkAssignment (Some r) (Some t) (Some f).

(** A schedule with three activities in Roman 201 at 10 AM, Tyler teaching
    two activities and Banks one. *)
Definition sample_schedule : Schedule :=
  Schedule_init (Some
    [("SLA101A", assigned "Roman 201" "10 AM" "Glen");
     ("SLA101B", assigned "Roman 201" "10 AM" "Glen");
     ("SLA191A", assigned "Roman 201" "10 AM" "Lock");
     ("SLA191B", assigned "Loft 206" "11 AM" "Lock");
     ("SLA201", assigned "Frank 119" "12 PM" "Glen");
     ("SLA291", assigned "Frank 119" "1 PM" "Banks");
     ("SLA303", assigned "Beach 301" "2 PM" "Zeldin");
     ("SLA304", assigned "Beach 301" "3 PM" "Tyler");
     ("SLA394", assigned "Beach 201" "10 AM" "Tyler");
     ("SLA449", assigned "Slater 003" "11 AM" "Zeldin");
     ("SLA451", assigned "James 325" "12 PM" "Zeldin")]%string).

(** The sample schedule once its violations have been counted. *)
Definition sample_with_violations : Schedule :=
  match calculate_constraint_violations sample_schedule with
  | Ok (_, s) => s
  | Raise _ => sample_schedule
  end.

(** A random source and a process state with an empty cache. *)
Definition sample_source (i : nat) : N :=
  ((N.of_nat i * 7919 + 13) * 2654435761 mod 4294967296 * 1048573 + 17)%N.

Definition sample_world : World := mkWorld sample_source 0 ∅.

(** A stand-in for the interpreter's string hash, for the examples: a
    polynomial hash of the characters, reduced to 64 bits. *)
Definition string_code (s : string) : Z :=
  foldl (fun h c => ((31 * h + Z.of_nat (Ascii.nat_of_ascii c)) mod 2 ^ 64)%Z) 7%Z
        (String.list_ascii_of_string s).

Definition field_code (x : option string) : Z :=
  match x with
  | None => 1%Z
  | Some s => (2 + string_code s)%Z
  end.

Definition sample_hash (l : list (option string * option string * option string)) : Z :=
  foldl (fun h '(r, t, f) =>
           ((1000003 * (1000003 * (1000003 * h + field_code r) + field_code t)
             + field_code f) mod 2 ^ 64)%Z)
        5381%Z l.

(** A configuration with as many elites as schedules and a crossover method
    that is neither of the two known ones. *)
Definition unchecked_config : Config :=
  {| population_size := 250;
     minimum_generations := 100;
     maximum_generations := 500;
     initial_mutation_probability := 1 # 100;
     crossover_method := "two_point";
     elitism_count := 250;
     use_adaptive_mutation := true |}.

(** The sample schedule after SLA101A has been moved to another room. *)
Definition sample_moved : Schedule :=
  Schedule_init (Some
    (("SLA101A", assigned "Loft 310" "10 AM" "Glen")
       :: tail sample_schedule.(_assignments))%string).


(** ** Further notions for the evaluator *)

(** The room-size rule on integers: which of the four cases a capacity and
    an expected enrollment fall in. *)
Definition room_size_case (capacity expected : Z) : Q :=
  if (capacity <? expected)%Z then - (1 # 2)
  else if (3 * expected <? capacity)%Z then - (2 # 5)
  else if (3 * expected <? 2 * capacity)%Z then - (1 # 5)
  else 3 # 10.

(** The keys of the violation dictionary. *)
Definition violation_keys : list string :=
  ["room_conflicts"; "room_too_small"; "room_too_big_15"; "room_too_big_30";
   "facilitator_overload"; "facilitator_underload"; "facilitator_same_time_conflict";
   "sla101_same_time"; "sla191_same_time"; "sla101_191_same_time";
   "sla101_191_building_mismatch"; "sla101_191_one_hour_gap";
   "sla101_191_consecutive_pair"]%string.

(** A violation dictionary with exactly the thirteen keys and no negative
    count. *)
Definition counts_ok (vc : gmap string Z) : Prop :=
  (forall k, is_Some (vc !! k) <-> k ∈ violation_keys)
  /\ (forall k v, vc !! k = Some v -> (0 <= v)%Z).

(** The four section activities the special rules read with
    [schedule.assignments[...]]. *)
Definition section_names : list string :=
  [SLA101_SECTIONS.1; SLA101_SECTIONS.2; SLA191_SECTIONS.1; SLA191_SECTIONS.2].

Definition sections_present (s : Schedule) : Prop :=
  Forall (fun name => is_Some (dict_get s.(_assignments) name)) section_names.

(** [violation_counts[key]] read with a default, for stating relations
    between counters. *)
Definition counter (vc : gmap string Z) (key : string) : Z := default 0%Z (vc !! key).

(** The cross-section loop of the evaluator on its own: the sum of the four
    pair scores. *)
Definition cross_section_total (schedule : Schedule) : Res Q :=
  foldl (fun total '(section_101, section_191) =>
           add_res total (_evaluate_cross_section_interaction section_101 section_191 schedule))
        (Ok 0) CROSS_SECTION_PAIRS.

(** What the four cross-section counters are worth in the evaluator's
    cross-section loop. *)
Definition cross_counters_score (same_time consecutive one_hour_gap mismatch : Z) : Q :=
  - (1 # 4) * inject_Z same_time + (1 # 2) * inject_Z consecutive
  + (1 # 4) * inject_Z one_hour_gap - (2 # 5) * inject_Z mismatch.

(** Every section activity of the schedule has a room. *)
Definition sections_have_rooms (s : Schedule) : Prop :=
  forall name a, name ∈ section_names -> dict_get s.(_assignments) name = Some a ->
                 truthy a.(room) = true.

(** The room-size part of the evaluator's second pass: the sum of the
    room-size scores of all activities. *)
Definition room_size_total (s : Schedule) : Q :=
  foldl (fun total (item : string * ActivityAssignment) =>
           total + _evaluate_room_size item.1 item.2.(room)) 0 s.(_assignments).

(** An activity of the catalog that has a room. *)
Definition has_room_in_catalog (item : string * ActivityAssignment) : bool :=
  truthy item.2.(room) && str_in item.1 ALL_ACTIVITIES.

(** What the three room-size counters are worth in the evaluator, [roomed]
    being the number of catalog activities with a room. *)
Definition room_counters_score (roomed too_small too_big_30 too_big_15 : Z) : Q :=
  - (1 # 2) * inject_Z too_small - (2 # 5) * inject_Z too_big_30
  - (1 # 5) * inject_Z too_big_15
  + (3 # 10) * inject_Z (roomed - too_small - too_big_30 - too_big_15).




(** The process after [n] more calls of the generator; nothing else of the
    state changes. *)
Definition advance (n : nat) (w : World) : World :=
  mkWorld w.(random_source) (n + w.(draws_used)) w.(_fitness_cache).

(** A field after a mutation round: left as it was, or drawn from the
    catalog's list. *)
Definition kept_or_drawn (choices : list string) (old new : option string) : Prop :=
  new = old \/ exists x, x ∈ choices /\ new = Some x.

(** An assignment whose three fields are values of the catalog. *)
Definition from_catalog (a : ActivityAssignment) : Prop :=
  exists r t f,
    a = mkAssignment (Some r) (Some t) (Some f)
    /\ r ∈ dict_keys ROOMS_WITH_CAPACITIES /\ t ∈ ALL_TIME_SLOTS /\ f ∈ ALL_FACILITATORS.

(** A schedule over the catalog in which every activity has a room, a time
    slot and a facilitator of the catalog. *)
Definition fully_assigned (s : Schedule) : Prop :=
  catalog_ordered s /\ Forall (fun item => from_catalog item.2) s.(_assignments).

(** A list of (schedule, score) pairs in which no pair has a higher score
    than a pair before it. *)
Fixpoint descending (l : list (Schedule * Q)) : Prop :=
  match l with
  | [] => True
  | x :: l' => Forall (fun y : Schedule * Q => y.2 <= x.2) l' /\ descending l'
  end.

(** The pairs of a given score, in the order of the list. *)
Definition with_score (v : Q) (l : list (Schedule * Q)) : list (Schedule * Q) :=
  List.filter (fun p : Schedule * Q => Qeq_bool p.2 v) l.

(** [i] is the first position of a maximal score of the list, and [v] is
    that score. *)
Definition first_maximum (scores : list Q) (i : nat) (v : Q) : Prop :=
  scores !! i = Some v
  /\ (forall j w, scores !! j = Some w -> w <= v)
  /\ (forall j w, (j < i)%nat -> scores !! j = Some w -> w < v).

(** The random stream of the process is where it was. *)
Definition same_draws (w w' : World) : Prop :=
  w'.(random_source) = w.(random_source) /\ w'.(draws_used) = w.(draws_used).

(** * Properties *)

(** ** Counting dictionaries *)

Lemma occurrences_cons {A} `{EqDecision A} (x y : A) (l : list A) :
  occurrences x (y :: l) = ((if decide (x = y) then 1 else 0) + occurrences x l)%Z.
Proof.
  unfold occurrences. rewrite filter_cons.
  destruct (decide (x = y)); simpl; lia.
Qed.

Lemma occurrences_nonneg {A} `{EqDecision A} (x : A) (l : list A) :
  (0 <= occurrences x l)%Z.
Proof. unfold occurrences. lia. Qed.

Lemma occurrences_not_in {A} `{EqDecision A} (x : A) (l : list A) :
  x ∉ l -> occurrences x l = 0%Z.
Proof.
  induction l as [|y l IH]; intros Hin; [done|].
  rewrite occurrences_cons. apply not_elem_of_cons in Hin as [? ?].
  rewrite IH by done. destruct (decide (x = y)); [done|lia].
Qed.

Lemma count_up_lookup_eq `{Countable K} (k : K) (d : gmap K Z) :
  count_up k d !! k = Some (default 0 (d !! k) + 1)%Z.
Proof. unfold count_up. apply lookup_insert_eq. Qed.

Lemma count_up_lookup_ne `{Countable K} (k k' : K) (d : gmap K Z) :
  k ≠ k' -> count_up k d !! k' = d !! k'.
Proof. intros. unfold count_up. by apply lookup_insert_ne. Qed.

(** After counting the keys of [ks] into [d], the entry of [k] has grown by
    the number of occurrences of [k]; keys that do not occur are untouched. *)
Lemma foldl_count_up_lookup `{Countable K} (ks : list K) (d : gmap K Z) (k : K) :
  foldl (fun d k => count_up k d) d ks !! k =
  if decide (k ∈ ks) then Some (default 0 (d !! k) + occurrences k ks)%Z else d !! k.
Proof.
  revert d. induction ks as [|a ks IH]; intros d.
  - cbn [foldl]. case_decide as Hin; [inversion Hin|done].
  - cbn [foldl]. rewrite IH, occurrences_cons.
    destruct (decide (k = a)) as [->|Hne].
    + rewrite count_up_lookup_eq. cbn [default from_option id].
      case_decide as Hin; case_decide as Hin'.
      * f_equal; lia.
      * exfalso. apply Hin'. apply elem_of_cons; by right.
      * rewrite (occurrences_not_in _ _ Hin). f_equal; lia.
      * exfalso. apply Hin'. apply elem_of_cons; by left.
    + rewrite count_up_lookup_ne by done.
      case_decide as Hin; case_decide as Hin'.
      * f_equal; lia.
      * exfalso. apply Hin'. apply elem_of_cons; by right.
      * apply elem_of_cons in Hin' as [?|?]; done.
      * done.
Qed.

Lemma count_lookup_empty `{Countable K} (ks : list K) (k : K) :
  foldl (fun d k => count_up k d) (∅ : gmap K Z) ks !! k =
  if decide (k ∈ ks) then Some (occurrences k ks) else None.
Proof.
  rewrite foldl_count_up_lookup, lookup_empty. simpl.
  destruct (decide (k ∈ ks)); [f_equal; lia|done].
Qed.

(** The three dictionaries of the first pass, each as a count of keys. *)
Lemma usage_step_total_load u items :
  facilitator_total_load (foldl usage_step u items) =
  foldl (fun d k => count_up k d) u.(facilitator_total_load) (facilitator_names items).
Proof.
  revert u. induction items as [|item items IH]; intros u; [done|].
  simpl. rewrite IH. unfold facilitator_names at 2. simpl.
  fold (facilitator_names items).
  destruct (truthy (facilitator item.2)); done.
Qed.

Lemma usage_step_room_time u items :
  room_time_usage (foldl usage_step u items) =
  foldl (fun d k => count_up k d) u.(room_time_usage) (room_time_keys items).
Proof.
  revert u. induction items as [|item items IH]; intros u; [done|].
  simpl. rewrite IH. unfold room_time_keys at 2. simpl.
  fold (room_time_keys items).
  destruct (truthy (room item.2) && truthy (time item.2)); done.
Qed.


Lemma room_time_lookup (s : Schedule) (key : string * string) :
  room_time_usage (collect_usage s.(_assignments)) !! key =
  if decide (key ∈ room_time_keys s.(_assignments)) then Some (occupants s key) else None.
Proof.
  unfold collect_usage, occupants.
  rewrite usage_step_room_time. simpl. apply count_lookup_empty.
Qed.

(** ** The violation counter *)

Lemma bump_lookup_eq (key : string) (n : Z) (vc : gmap string Z) :
  bump key n vc !! key = Some (default 0 (vc !! key) + n)%Z.
Proof. unfold bump. apply lookup_insert_eq. Qed.

Lemma bump_lookup_ne (key key' : string) (n : Z) (vc : gmap string Z) :
  key ≠ key' -> bump key n vc !! key' = vc !! key'.
Proof. intros. unfold bump. by apply lookup_insert_ne. Qed.

Lemma sum_over_perm {A} (g : A -> Z) (l k : list A) :
  l ≡ₚ k -> sum_over g l = sum_over g k.
Proof.
  induction 1 as [|x l k _ IH|x y l|l k m _ IH1 _ IH2]; simpl; try lia.
Qed.

Lemma sum_over_fmap {A B} (f : A -> B) (g : B -> Z) (l : list A) :
  sum_over g (f <$> l) = sum_over (fun x => g (f x)) l.
Proof.
  unfold sum_over. induction l as [|x l IH]; csimpl; [done|]. by rewrite IH.
Qed.

(** The entries of a counting dictionary are the distinct keys, each with
    its number of occurrences. *)
Lemma count_entries `{Countable K} (ks : list K) :
  map_to_list (foldl (fun d k => count_up k d) (∅ : gmap K Z) ks)
  ≡ₚ (fun k => (k, occurrences k ks)) <$> remove_dups ks.
Proof.
  apply NoDup_Permutation.
  - apply NoDup_map_to_list.
  - apply NoDup_fmap_2; [|apply NoDup_remove_dups].
    intros k1 k2 Heq. by inversion Heq.
  - intros [k v]. rewrite elem_of_map_to_list, count_lookup_empty, list_elem_of_fmap.
    split.
    + case_decide as Hin; [|intros [=]]. intros [= <-].
      exists k. split; [done|]. by apply elem_of_remove_dups.
    + intros (k' & [= -> ->] & Hin). rewrite elem_of_remove_dups in Hin.
      by rewrite decide_True.
Qed.

Lemma count_conflicts_lookup (key : string) (counts : gmap (string * string) Z)
    (vc : gmap string Z) (base : Z) :
  vc !! key = Some base ->
  count_conflicts key counts vc !! key =
  Some (base + sum_over (fun kv : string * string * Z =>
                           if (1 <? kv.2)%Z then (kv.2 - 1)%Z else 0%Z)
                        (map_to_list counts))%Z.
Proof.
  intros Hbase. unfold count_conflicts. rewrite map_fold_foldr.
  induction (map_to_list counts) as [|[k c] l IH]; simpl.
  - rewrite Hbase. f_equal. lia.
  - destruct (1 <? c)%Z.
    + rewrite bump_lookup_eq, IH. simpl. f_equal. lia.
    + rewrite IH. f_equal.
Qed.

Lemma count_conflicts_lookup_ne (key key' : string) (counts : gmap (string * string) Z)
    (vc : gmap string Z) :
  key ≠ key' -> count_conflicts key counts vc !! key' = vc !! key'.
Proof.
  intros Hne. unfold count_conflicts. rewrite map_fold_foldr.
  induction (map_to_list counts) as [|[k c] l IH]; simpl; [done|].
  destruct (1 <? c)%Z; [rewrite bump_lookup_ne by done|]; apply IH.
Qed.

Lemma count_load_violations_over (totals : gmap string Z) (vc : gmap string Z) (base : Z) :
  vc !! "facilitator_overload"%string = Some base ->
  count_load_violations totals vc !! "facilitator_overload"%string =
  Some (base + count_where (fun kv : string * Z => overloaded kv.2) (map_to_list totals))%Z.
Proof.
  intros Hbase. unfold count_load_violations, count_where. rewrite map_fold_foldr.
  induction (map_to_list totals) as [|[k c] l IH]; simpl.
  - rewrite Hbase. f_equal. lia.
  - unfold overloaded at 1. simpl.
    destruct (4 <? c)%Z.
    + rewrite bump_lookup_eq, IH. simpl. f_equal. lia.
    + destruct (c <? 3)%Z; [destruct (String.eqb k "Tyler"); [destruct (2 <=? c)%Z|]|];
        rewrite ?bump_lookup_ne by done; rewrite IH; f_equal; lia.
Qed.

Lemma count_load_violations_under (totals : gmap string Z) (vc : gmap string Z) (base : Z) :
  vc !! "facilitator_underload"%string = Some base ->
  count_load_violations totals vc !! "facilitator_underload"%string =
  Some (base + count_where (fun kv : string * Z => underloaded kv.1 kv.2)
                           (map_to_list totals))%Z.
Proof.
  intros Hbase. unfold count_load_violations, count_where. rewrite map_fold_foldr.
  induction (map_to_list totals) as [|[k c] l IH]; simpl.
  - rewrite Hbase. f_equal. lia.
  - unfold underloaded at 1. simpl.
    destruct (4 <? c)%Z eqn:H4.
    + rewrite bump_lookup_ne by done. rewrite IH.
      replace (c <? 3)%Z with false by lia. simpl. f_equal; lia.
    + destruct (c <? 3)%Z eqn:H3; simpl.
      * destruct (String.eqb k "Tyler"); simpl.
        -- destruct (2 <=? c)%Z eqn:H2.
           ++ replace (c <? 2)%Z with false by lia. simpl.
              rewrite bump_lookup_eq, IH. simpl. f_equal; lia.
           ++ replace (c <? 2)%Z with true by lia. simpl. rewrite IH. f_equal; lia.
        -- rewrite bump_lookup_eq, IH. simpl. f_equal; lia.
      * rewrite IH. f_equal; lia.
Qed.

Lemma count_load_violations_lookup_ne (key : string) (totals : gmap string Z) (vc : gmap string Z) :
  key ≠ "facilitator_overload"%string -> key ≠ "facilitator_underload"%string ->
  count_load_violations totals vc !! key = vc !! key.
Proof.
  intros Hne1 Hne2. unfold count_load_violations. rewrite map_fold_foldr.
  induction (map_to_list totals) as [|[k c] l IH]; simpl; [done|].
  repeat case_match; rewrite ?bump_lookup_ne by done; apply IH.
Qed.

Lemma dict_get_is_Some {V} (d : list (string * V)) (k : string) :
  k ∈ dict_keys d -> is_Some (dict_get d k).
Proof.
  induction d as [|[k' v] d IH]; simpl; intros Hin.
  - inversion Hin.
  - destruct (String.eqb k' k) eqn:E; [by eexists|].
    apply IH. apply elem_of_cons in Hin as [->|?]; [|done].
    by rewrite String.eqb_refl in E.
Qed.

Lemma dict_get_elem_of {V} (d : list (string * V)) (k : string) (v : V) :
  dict_get d k = Some v -> (k, v) ∈ d.
Proof.
  induction d as [|[k' v'] d IH]; simpl; [done|].
  destruct (String.eqb k' k) eqn:E.
  - intros [= ->]. apply String.eqb_eq in E as ->. apply elem_of_cons. by left.
  - intros ?. apply elem_of_cons. right. by apply IH.
Qed.

Lemma catalog_getitem (s : Schedule) (name : string) :
  catalog_ordered s -> name ∈ ALL_ACTIVITIES ->
  exists a, dict_getitem s.(_assignments) name = Ok a.
Proof.
  intros Hcat Hin. unfold dict_getitem.
  destruct (dict_get_is_Some s.(_assignments) name) as [a Ha].
  - by rewrite Hcat.
  - rewrite Ha. by eexists.
Qed.

Ltac in_catalog := apply list_elem_of_In; vm_compute; tauto.

Lemma violation_first_pass_split (items : list (string * ActivityAssignment)) :
  violation_first_pass items =
  (foldl (fun vc item => room_size_violation item vc) initial_violation_counts items,
   collect_usage items).
Proof.
  unfold violation_first_pass, collect_usage.
  generalize initial_violation_counts (mkUsage ∅ ∅ ∅).
  induction items as [|item items IH]; intros vc u; [done|].
  simpl. apply IH.
Qed.

Lemma room_size_violation_lookup_ne (key : string) item (vc : gmap string Z) :
  key ≠ "room_too_small"%string -> key ≠ "room_too_big_30"%string ->
  key ≠ "room_too_big_15"%string ->
  room_size_violation item vc !! key = vc !! key.
Proof.
  intros. unfold room_size_violation. destruct item as [activity_name assignment].
  repeat case_match; rewrite ?bump_lookup_ne by done; done.
Qed.

Lemma room_size_fold_lookup_ne (key : string) items (vc : gmap string Z) :
  key ≠ "room_too_small"%string -> key ≠ "room_too_big_30"%string ->
  key ≠ "room_too_big_15"%string ->
  foldl (fun vc item => room_size_violation item vc) vc items !! key = vc !! key.
Proof.
  intros. revert vc. induction items as [|item items IH]; intros vc; [done|].
  simpl. rewrite IH. by apply room_size_violation_lookup_ne.
Qed.

Lemma same_time_violation_frame (key : string) (sections : string * string)
    (s : Schedule) (vc : gmap string Z) :
  catalog_ordered s -> sections.1 ∈ ALL_ACTIVITIES -> sections.2 ∈ ALL_ACTIVITIES ->
  exists vc', same_time_violation key sections s vc = Ok vc'
              /\ forall k, k ≠ key -> vc' !! k = vc !! k.
Proof.
  intros Hcat H1 H2. unfold same_time_violation.
  destruct (catalog_getitem s _ Hcat H1) as [a1 ->].
  destruct (catalog_getitem s _ Hcat H2) as [a2 ->].
  case_match; eexists; split; try done.
  intros k Hk. by rewrite bump_lookup_ne.
Qed.

Lemma cross_section_violation_frame (s : Schedule) (vc : gmap string Z)
    (pair : string * string) :
  catalog_ordered s -> pair.1 ∈ ALL_ACTIVITIES -> pair.2 ∈ ALL_ACTIVITIES ->
  exists vc', cross_section_violation s (Ok vc) pair = Ok vc'
              /\ forall k, k ∉ cross_keys -> vc' !! k = vc !! k.
Proof.
  intros Hcat H1 H2. unfold cross_section_violation. destruct pair as [p1 p2].
  simpl in H1, H2.
  destruct (catalog_getitem s _ Hcat H1) as [a1 ->].
  destruct (catalog_getitem s _ Hcat H2) as [a2 ->].
  repeat case_match; eexists; (split; [done|]); intros k Hk;
    rewrite ?bump_lookup_ne; try done;
    intros <-; apply Hk; apply list_elem_of_In; vm_compute; tauto.
Qed.

Lemma cross_fold_frame (s : Schedule) (pairs : list (string * string))
    (vc : gmap string Z) :
  catalog_ordered s ->
  Forall (fun pair => pair.1 ∈ ALL_ACTIVITIES /\ pair.2 ∈ ALL_ACTIVITIES) pairs ->
  exists vc', foldl (cross_section_violation s) (Ok vc) pairs = Ok vc'
              /\ forall k, k ∉ cross_keys -> vc' !! k = vc !! k.
Proof.
  intros Hcat Hpairs. revert vc.
  induction Hpairs as [|pair pairs [H1 H2] _ IH]; intros vc; cbn [foldl].
  - by eexists.
  - destruct (cross_section_violation_frame s vc pair Hcat H1 H2) as (vc1 & -> & Hf1).
    destruct (IH vc1) as (vc2 & -> & Hf2).
    eexists. split; [done|]. intros k Hk. by rewrite Hf2, Hf1.
Qed.

Lemma cross_pairs_in_catalog :
  Forall (fun pair : string * string =>
            pair.1 ∈ ALL_ACTIVITIES /\ pair.2 ∈ ALL_ACTIVITIES) CROSS_SECTION_PAIRS.
Proof. repeat constructor; in_catalog. Qed.

(** For a schedule over the catalog the counter returns, and its three
    counters of interest hold the counts of the specification. *)
Lemma violation_counts_spec (s : Schedule) :
  catalog_ordered s ->
  exists vc, count_constraint_violations s = Ok vc
    /\ vc !! "room_conflicts"%string = Some (room_conflicts_spec s)
    /\ vc !! "facilitator_overload"%string = Some (overloaded_facilitators s)
    /\ vc !! "facilitator_underload"%string = Some (underloaded_facilitators s).
Proof.
  intros Hcat. unfold count_constraint_violations.
  rewrite violation_first_pass_split.
  set (vc1 := foldl _ initial_violation_counts _).
  set (u := collect_usage _).
  set (vc2 := count_conflicts "room_conflicts" _ vc1).
  set (vc3 := count_load_violations _ vc2).
  set (vc4 := count_conflicts "facilitator_same_time_conflict" _ vc3).
  destruct (same_time_violation_frame "sla101_same_time" SLA101_SECTIONS s vc4 Hcat)
    as (vc5 & -> & Hf5); [in_catalog..|].
  destruct (same_time_violation_frame "sla191_same_time" SLA191_SECTIONS s vc5 Hcat)
    as (vc6 & -> & Hf6); [in_catalog..|].
  destruct (cross_fold_frame s CROSS_SECTION_PAIRS vc6 Hcat cross_pairs_in_catalog)
    as (vc7 & -> & Hf7).
  exists vc7. split; [done|].
  assert (Hnc : forall k : string, k ∈ ["room_conflicts"; "facilitator_overload";
                         "facilitator_underload"]%string -> k ∉ cross_keys).
  { intros k Hk Hc. apply list_elem_of_In in Hk, Hc. vm_compute in Hk, Hc.
    intuition congruence. }
  assert (H1 : vc1 !! "room_conflicts"%string = Some 0%Z).
  { unfold vc1. by rewrite room_size_fold_lookup_ne. }
  assert (H1o : vc1 !! "facilitator_overload"%string = Some 0%Z).
  { unfold vc1. by rewrite room_size_fold_lookup_ne. }
  assert (H1u : vc1 !! "facilitator_underload"%string = Some 0%Z).
  { unfold vc1. by rewrite room_size_fold_lookup_ne. }
  split; [|split].
  - rewrite Hf7, Hf6, Hf5 by (try done; apply Hnc; set_solver).
    unfold vc4. rewrite count_conflicts_lookup_ne by done.
    unfold vc3. rewrite count_load_violations_lookup_ne by done.
    unfold vc2. rewrite (count_conflicts_lookup _ _ _ 0%Z H1).
    f_equal. unfold u, collect_usage. rewrite usage_step_room_time. simpl.
    rewrite (sum_over_perm _ _ _ (count_entries _)), sum_over_fmap.
    unfold room_conflicts_spec, occupants. simpl. lia.
  - rewrite Hf7, Hf6, Hf5 by (try done; apply Hnc; set_solver).
    unfold vc4. rewrite count_conflicts_lookup_ne by done.
    unfold vc3. rewrite (count_load_violations_over _ _ 0%Z).
    + f_equal. unfold u, collect_usage. rewrite usage_step_total_load. simpl.
      unfold count_where.
      rewrite (sum_over_perm _ _ _ (count_entries _)), sum_over_fmap.
      unfold overloaded_facilitators, count_where, facilitator_load. simpl. lia.
    + unfold vc2. by rewrite count_conflicts_lookup_ne.
  - rewrite Hf7, Hf6, Hf5 by (try done; apply Hnc; set_solver).
    unfold vc4. rewrite count_conflicts_lookup_ne by done.
    unfold vc3. rewrite (count_load_violations_under _ _ 0%Z).
    + f_equal. unfold u, collect_usage. rewrite usage_step_total_load. simpl.
      unfold count_where.
      rewrite (sum_over_perm _ _ _ (count_entries _)), sum_over_fmap.
      unfold underloaded_facilitators, count_where, facilitator_load. simpl. lia.
    + unfold vc2. by rewrite count_conflicts_lookup_ne.
Qed.

Lemma sum_over_single {A} (g : A -> Z) (l : list A) (x : A) :
  NoDup l -> x ∈ l -> (forall y, y ∈ l -> y ≠ x -> g y = 0%Z) -> sum_over g l = g x.
Proof.
  induction 1 as [|y l Hy Hnd IH]; intros Hin Hz; [inversion Hin|].
  simpl. apply elem_of_cons in Hin as [->|Hin].
  - assert (sum_over g l = 0%Z) as ->; [|lia].
    clear IH. induction l as [|z l IHl]; [done|]. simpl.
    apply not_elem_of_cons in Hy as [Hyz Hy]. apply NoDup_cons in Hnd as [_ Hnd].
    rewrite IHl; try done.
    + rewrite Hz; [done| |done]. apply elem_of_cons. right. apply elem_of_cons. by left.
    + intros w Hw Hne. apply Hz; [|done].
      apply elem_of_cons in Hw as [->|Hw]; [done|].
      apply elem_of_cons. right. apply elem_of_cons. by right.
  - rewrite IH; try done.
    + rewrite Hz; [lia| |]; [apply elem_of_cons; by left|]. by intros ->.
    + intros w Hw Hne. apply Hz; [|done]. apply elem_of_cons. by right.
Qed.

(** One pair occupied by [k > 1] activities, every other pair by at most
    one: the count is [k - 1]. *)
Lemma room_conflicts_one_pair (s : Schedule) (key0 : string * string) (k : Z) :
  occupants s key0 = k -> (1 < k)%Z ->
  (forall key, key ≠ key0 -> (occupants s key <= 1)%Z) ->
  room_conflicts_spec s = (k - 1)%Z.
Proof.
  intros Hk Hgt Hothers. unfold room_conflicts_spec.
  rewrite (sum_over_single _ _ key0).
  - rewrite Hk. by replace (1 <? k)%Z with true by lia.
  - apply NoDup_remove_dups.
  - apply elem_of_remove_dups.
    destruct (decide (key0 ∈ room_time_keys (_assignments s))) as [|Hn]; [done|].
    unfold occupants in Hk. rewrite (occurrences_not_in _ _ Hn) in Hk. lia.
  - intros key _ Hne. specialize (Hothers key Hne).
    by replace (1 <? occupants s key)%Z with false by lia.
Qed.

(** C6. For every schedule over the catalog the counter returns, and its
    [room_conflicts] entry is the sum, over the distinct (room, time slot)
    pairs, of [k - 1] for every pair occupied by [k > 1] activities.  In
    particular [k] activities in one pair, all other pairs being occupied
    by at most one activity, give [k - 1]: three activities give 2. *)
Theorem room_conflicts_is_occupants_minus_one (s : Schedule) :
  catalog_ordered s ->
  exists vc s',
    calculate_constraint_violations s = Ok (vc, s')
    /\ vc !! "room_conflicts"%string = Some (room_conflicts_spec s)
    /\ (forall key0,
          occupants s key0 = 3%Z ->
          (forall key, key ≠ key0 -> (occupants s key <= 1)%Z) ->
          vc !! "room_conflicts"%string = Some 2%Z).
Proof.
  intros Hcat. destruct (violation_counts_spec s Hcat) as (vc & Hvc & Hrc & _).
  exists vc, (set_violations (Some vc) s). unfold calculate_constraint_violations.
  rewrite Hvc. split; [done|]. split; [done|].
  intros key0 H3 Hothers. rewrite Hrc. f_equal.
  by rewrite (room_conflicts_one_pair s key0 3).
Qed.

Lemma room_conflicts_is_occupants_minus_one_witness :
  catalog_ordered sample_schedule
  /\ exists vc s',
       calculate_constraint_violations sample_schedule = Ok (vc, s')
       /\ vc !! "room_conflicts"%string = Some (room_conflicts_spec sample_schedule)
       /\ (forall key0,
             occupants sample_schedule key0 = 3%Z ->
             (forall key, key ≠ key0 -> (occupants sample_schedule key <= 1)%Z) ->
             vc !! "room_conflicts"%string = Some 2%Z).
Proof.
  split; [reflexivity|].
  apply (room_conflicts_is_occupants_minus_one sample_schedule). reflexivity.
Defined.

(** The sample schedule has three activities in Roman 201 at 10 AM and the
    counter reports 2. *)
Example sample_room_conflicts :
  occupants sample_schedule ("Roman 201", "10 AM")%string = 3%Z
  /\ room_conflicts_spec sample_schedule = 2%Z
  /\ (vc ← (match count_constraint_violations sample_schedule with
            | Ok vc => Some vc | Raise _ => None end);
      vc !! "room_conflicts"%string) = Some 2%Z.
Proof. vm_compute. done. Qed.



(** ** Reasoning about computations in [M] *)

Lemma yields_ret {A} (a : A) w (P : A -> World -> Prop) :
  P a w -> yields (ret a) w P.
Proof. intros. by exists a, w. Qed.

Lemma yields_bind {A B} (m : M A) (k : A -> M B) w
    (Q : A -> World -> Prop) (P : B -> World -> Prop) :
  yields m w Q -> (forall a w', Q a w' -> yields (k a) w' P) -> yields (bind m k) w P.
Proof.
  intros (a & w' & Hm & HQ) Hk. destruct (Hk a w' HQ) as (b & w'' & Hb & HP).
  exists b, w''. unfold bind. by rewrite Hm.
Qed.

Lemma yields_mono {A} (m : M A) w (P Q : A -> World -> Prop) :
  yields m w P -> (forall a w', P a w' -> Q a w') -> yields m w Q.
Proof. intros (a & w' & Hm & HP) HPQ. exists a, w'. auto. Qed.

Lemma yields_lift_res {A} (r : Res A) (a : A) w (P : A -> World -> Prop) :
  r = Ok a -> P a w -> yields (lift_res r) w P.
Proof. intros -> HP. by exists a, w. Qed.

Lemma yields_for_each {A B} (f : A -> M B) (R : A -> B -> Prop) (Inv : World -> Prop)
    (xs : list A) w :
  Inv w ->
  (forall x w, x ∈ xs -> Inv w -> yields (f x) w (fun y w' => R x y /\ Inv w')) ->
  yields (for_each f xs) w (fun ys w' => Forall2 R xs ys /\ Inv w').
Proof.
  revert w. induction xs as [|x xs IH]; intros w Hinv Hf; cbn [for_each].
  - apply yields_ret. by split.
  - eapply yields_bind.
    { apply Hf; [apply elem_of_cons; by left|done]. }
    intros y w1 [HR Hinv1]. eapply yields_bind.
    { apply IH; [done|]. intros x' w' Hx'. apply Hf. apply elem_of_cons. by right. }
    intros ys w2 [HRs Hinv2]. apply yields_ret. split; [by constructor|done].
Qed.

(** The random module never changes the fitness cache. *)
Lemma next_draw_yields w :
  yields next_draw w (fun _ w' => _fitness_cache w' = _fitness_cache w).
Proof. by eexists _, _. Qed.

Lemma random_random_yields w :
  yields random_random w (fun _ w' => _fitness_cache w' = _fitness_cache w).
Proof.
  unfold random_random. eapply yields_bind; [apply next_draw_yields|].
  intros k w' Hc. by apply yields_ret.
Qed.

Lemma random_choice_yields {A} (seq : list A) w :
  seq ≠ [] ->
  yields (random_choice seq) w
         (fun x w' => x ∈ seq /\ _fitness_cache w' = _fitness_cache w).
Proof.
  intros Hne. destruct seq as [|x0 seq]; [done|]. unfold random_choice.
  eapply yields_bind; [apply next_draw_yields|].
  intros k w' Hc. apply yields_ret. split; [|done].
  apply list_elem_of_In, nth_In.
  assert (N.of_nat (length (x0 :: seq)) ≠ 0%N) by (simpl; lia).
  pose proof (N.mod_lt k _ H). lia.
Qed.

Lemma random_randint_yields (a b : Z) w :
  (a <= b)%Z ->
  yields (random_randint a b) w
         (fun x w' => (a <= x <= b)%Z /\ _fitness_cache w' = _fitness_cache w).
Proof.
  intros Hab. unfold random_randint. replace (b <? a)%Z with false by lia.
  eapply yields_bind; [apply next_draw_yields|].
  intros k w' Hc. apply yields_ret. split; [|done].
  pose proof (Z.mod_pos_bound (Z.of_N k) (b - a + 1)). lia.
Qed.

(** ** Genetic operators *)

Lemma Forall2_fst_eq {A B} (xs ys : list (A * B)) :
  Forall2 (fun x y => y.1 = x.1) xs ys -> map fst ys = map fst xs.
Proof. induction 1 as [|x y xs ys Hxy _ IH]; simpl; [done|]. by rewrite Hxy, IH. Qed.

Lemma catalog_lists_nonempty :
  dict_keys ROOMS_WITH_CAPACITIES ≠ [] /\ ALL_TIME_SLOTS ≠ [] /\ ALL_FACILITATORS ≠ [].
Proof. by repeat split. Qed.

Ltac step_bind := eapply yields_bind; [|cbv beta; intros ? ? ?].

Lemma mutate_assignment_yields (p : Q) (item : string * ActivityAssignment) w :
  yields (mutate_assignment p item) w
         (fun item' w' => item'.1 = item.1 /\ _fitness_cache w' = _fitness_cache w).
Proof.
  destruct catalog_lists_nonempty as (Hr & Ht & Hf).
  destruct item as [activity_name assignment]. unfold mutate_assignment.
  step_bind; [apply random_random_yields|].
  eapply (yields_bind _ _ _ (fun _ w' => _fitness_cache w' = _fitness_cache w)).
  { destruct (Qlt_le_dec _ _); [|by apply yields_ret].
    step_bind; [by apply random_choice_yields|]. apply yields_ret. destruct H0. congruence. }
  intros new_room w1 Hw1.
  step_bind; [apply random_random_yields|].
  eapply (yields_bind _ _ _ (fun _ w' => _fitness_cache w' = _fitness_cache w)).
  { destruct (Qlt_le_dec _ _); [|apply yields_ret; congruence].
    step_bind; [by apply random_choice_yields|]. apply yields_ret. destruct H1. congruence. }
  intros new_time w2 Hw2.
  step_bind; [apply random_random_yields|].
  eapply (yields_bind _ _ _ (fun _ w' => _fitness_cache w' = _fitness_cache w)).
  { destruct (Qlt_le_dec _ _); [|apply yields_ret; congruence].
    step_bind; [by apply random_choice_yields|]. apply yields_ret. destruct H2. congruence. }
  intros new_facilitator w3 Hw3. by apply yields_ret.
Qed.

(** What [apply_mutation] does to a schedule, whatever is drawn: it
    returns, the activities are the same, the fitness field is cleared and
    the violations field is left as it was. *)
Lemma apply_mutation_yields (s : Schedule) (p : Q) w :
  yields (apply_mutation s p) w
         (fun s' w' =>
            dict_keys s'.(_assignments) = dict_keys s.(_assignments)
            /\ s'.(_fitness_score) = None
            /\ s'.(_violation_summary) = s.(_violation_summary)
            /\ _fitness_cache w' = _fitness_cache w).
Proof.
  unfold apply_mutation.
  eapply yields_bind.
  { apply (yields_for_each _ (fun x y => y.1 = x.1)
             (fun w' => _fitness_cache w' = _fitness_cache w)); [done|].
    intros item w1 _ Hw1. eapply yields_mono; [apply mutate_assignment_yields|].
    intros item' w2 [? ?]. split; [done|congruence]. }
  intros mutated w1 [Hkeys Hw1]. apply yields_ret. cbn.
  split; [|done]. by apply Forall2_fst_eq.
Qed.

(** C1, as the code has it.  For every schedule, probability and state of
    the random source, [apply_mutation] returns; afterwards the fitness
    cache of the schedule is unset, whether or not a field changed, and the
    violations cache is what it was before the call (unset for a schedule
    whose violations were never counted, such as a fresh child). *)
Theorem apply_mutation_clears_fitness_only (s : Schedule) (p : Q) (w : World) :
  exists s' w',
    apply_mutation s p w = (Ok s', w')
    /\ s'.(_fitness_score) = None
    /\ s'.(_violation_summary) = s.(_violation_summary).
Proof.
  destruct (apply_mutation_yields s p w) as (s' & w' & Heq & _ & Hf & Hv & _).
  by exists s', w'.
Qed.

(** C1 fails as stated: mutating a schedule whose violations have been
    counted leaves the stored counts in place. *)
Lemma apply_mutation_keeps_violations :
  exists s',
    (apply_mutation sample_with_violations (1 # 100) sample_world).1 = Ok s'
    /\ s'.(_fitness_score) = None
    /\ s'.(_violation_summary) ≠ None.
Proof.
  destruct (apply_mutation_yields sample_with_violations (1 # 100) sample_world)
    as (s' & w' & Heq & _ & Hf & Hv & _).
  exists s'. rewrite Heq. split; [done|]. split; [done|].
  rewrite Hv. by vm_compute.
Qed.

Lemma for_each_res_spec {A B} (f : A -> Res B) (R : A -> B -> Prop) (xs : list A) :
  (forall x, x ∈ xs -> exists y, f x = Ok y /\ R x y) ->
  exists ys, for_each_res f xs = Ok ys /\ Forall2 R xs ys.
Proof.
  induction xs as [|x xs IH]; intros Hf; cbn [for_each_res].
  - by exists [].
  - destruct (Hf x) as (y & -> & HR); [apply elem_of_cons; by left|].
    destruct IH as (ys & -> & HRs).
    { intros x' Hx'. apply Hf, elem_of_cons. by right. }
    exists (y :: ys). split; [done|by constructor].
Qed.

Lemma assignment_copy_id (a : ActivityAssignment) : assignment_copy a = a.
Proof. by destruct a. Qed.

Lemma copy_from_spec (parent : Schedule) (name : string) :
  catalog_ordered parent -> name ∈ ALL_ACTIVITIES ->
  exists a, copy_from parent name = Ok (name, a)
            /\ dict_get parent.(_assignments) name = Some a.
Proof.
  intros Hcat Hin. unfold copy_from, dict_getitem.
  destruct (dict_get_is_Some parent.(_assignments) name) as [a Ha]; [by rewrite Hcat|].
  rewrite Ha. exists a. by rewrite assignment_copy_id.
Qed.

Lemma enumerate_lookup {A} (l : list A) (i : nat) :
  enumerate l !! i = (fun x => (Z.of_nat i, x)) <$> l !! i.
Proof. unfold enumerate. by rewrite list_lookup_imap. Qed.

Lemma enumerate_elem_of {A} (l : list A) (index : Z) (x : A) :
  (index, x) ∈ enumerate l -> x ∈ l.
Proof.
  intros (i & Hi)%list_elem_of_lookup_1. rewrite enumerate_lookup in Hi.
  destruct (l !! i) as [y|] eqn:E; [|done]. injection Hi as _ <-.
  by eapply list_elem_of_lookup_2.
Qed.

Lemma enumerate_snd {A} (l : list A) : map snd (enumerate l) = l.
Proof.
  apply list_eq. intros i. rewrite list_lookup_fmap, enumerate_lookup.
  by destruct (l !! i).
Qed.

Lemma single_point_child_spec (crossover_point : Z) (parent_1 parent_2 : Schedule) :
  catalog_ordered parent_1 -> catalog_ordered parent_2 ->
  exists child,
    single_point_child crossover_point parent_1 parent_2 = Ok child
    /\ Forall2 (fun (e : Z * string) (item : string * ActivityAssignment) =>
                  item.1 = e.2
                  /\ dict_get (donor crossover_point e.1 parent_1 parent_2).(_assignments) e.2
                     = Some item.2)
               (enumerate ALL_ACTIVITIES) child.
Proof.
  intros H1 H2. unfold single_point_child. apply for_each_res_spec.
  intros [index name] Hin%enumerate_elem_of. unfold donor. cbn [fst snd].
  destruct (index <=? crossover_point)%Z.
  - destruct (copy_from_spec parent_1 name H1 Hin) as (a & -> & Ha). by eexists.
  - destruct (copy_from_spec parent_2 name H2 Hin) as (a & -> & Ha). by eexists.
Qed.

Lemma Forall2_keys {A B C} (P : A * B -> B * C -> Prop) (es : list (A * B))
    (items : list (B * C)) :
  (forall e item, P e item -> item.1 = e.2) ->
  Forall2 P es items -> map fst items = map snd es.
Proof.
  intros HP. induction 1 as [|e item es items He _ IH]; simpl; [done|].
  by rewrite (HP _ _ He), IH.
Qed.

Lemma single_point_child_keys crossover_point parent_1 parent_2 child :
  Forall2 (fun (e : Z * string) (item : string * ActivityAssignment) =>
             item.1 = e.2
             /\ dict_get (donor crossover_point e.1 parent_1 parent_2).(_assignments) e.2
                = Some item.2)
          (enumerate ALL_ACTIVITIES) child ->
  dict_keys child = ALL_ACTIVITIES.
Proof.
  intros HF. unfold dict_keys. erewrite Forall2_keys; [apply enumerate_snd| |apply HF].
  by intros e item [? _].
Qed.

Lemma perform_single_point_crossover_yields (parent_1 parent_2 : Schedule) w :
  catalog_ordered parent_1 -> catalog_ordered parent_2 ->
  yields (perform_single_point_crossover parent_1 parent_2) w
         (fun child w' =>
            catalog_ordered child
            /\ child.(_fitness_score) = None /\ child.(_violation_summary) = None
            /\ _fitness_cache w' = _fitness_cache w
            /\ exists crossover_point,
                 (0 <= crossover_point <= Z.of_nat (length ALL_ACTIVITIES) - 1)%Z
                 /\ single_point_child crossover_point parent_1 parent_2
                    = Ok child.(_assignments)).
Proof.
  intros H1 H2. unfold perform_single_point_crossover.
  step_bind; [apply random_randint_yields; by vm_compute|].
  destruct H as [Hpt Hc].
  destruct (single_point_child_spec a parent_1 parent_2 H1 H2) as (child & Hchild & HF).
  eapply (yields_bind _ _ _ (fun x w1 => x = child /\ w1 = w')).
  { by eapply yields_lift_res. }
  intros ? ? [-> ->].
  apply yields_ret. cbn. split_and!; try done.
  - eapply single_point_child_keys, HF.
  - by exists a.
Qed.

Lemma Forall2_names {A B} (names : list A) (items : list (A * B)) :
  Forall2 (fun name (item : A * B) => item.1 = name) names items ->
  map fst items = names.
Proof. induction 1 as [|name item names items Hn _ IH]; simpl; [done|]. by rewrite Hn, IH. Qed.

Lemma perform_uniform_crossover_yields (parent_1 parent_2 : Schedule) (p : Q) w :
  catalog_ordered parent_1 -> catalog_ordered parent_2 ->
  yields (perform_uniform_crossover parent_1 parent_2 p) w
         (fun child w' =>
            catalog_ordered child
            /\ child.(_fitness_score) = None /\ child.(_violation_summary) = None
            /\ _fitness_cache w' = _fitness_cache w).
Proof.
  intros H1 H2. unfold perform_uniform_crossover.
  eapply yields_bind.
  { apply (yields_for_each _ (fun name (item : string * ActivityAssignment) => item.1 = name)
             (fun w' => _fitness_cache w' = _fitness_cache w)); [done|].
    intros name w1 Hin Hw1.
    step_bind; [apply random_random_yields|].
    destruct (Qlt_le_dec _ _).
    - destruct (copy_from_spec parent_2 name H2 Hin) as (x & Hx & _).
      eapply yields_lift_res; [exact Hx|]. cbv beta in *. split; [done|congruence].
    - destruct (copy_from_spec parent_1 name H1 Hin) as (x & Hx & _).
      eapply yields_lift_res; [exact Hx|]. cbv beta in *. split; [done|congruence]. }
  intros child w1 [HF Hw1]. apply yields_ret. cbn. split_and!; try done.
  unfold catalog_ordered. cbn. by apply Forall2_names.
Qed.

(** ** Crossover on the object store: the child shares no object *)

Lemma copy_object_spec (store : list ActivityAssignment) (r : nat) (a : ActivityAssignment) :
  store !! r = Some a ->
  Aliasing.copy_object store r = Some (length store, store ++ [a]).
Proof. intros Hr. unfold Aliasing.copy_object. rewrite Hr. by destruct a. Qed.

Lemma live_ref (store : list ActivityAssignment) (d : list (string * nat))
    (name : string) (r : nat) :
  Forall (fun '(_, r) => (r < length store)%nat) d ->
  dict_get d name = Some r -> exists a, store !! r = Some a.
Proof.
  intros Hd Hg. apply dict_get_elem_of in Hg.
  rewrite Forall_forall in Hd. specialize (Hd _ Hg). cbn in Hd.
  by apply lookup_lt_is_Some_2.
Qed.

Lemma live_refs_grow (store new : list ActivityAssignment) (d : list (string * nat)) :
  Forall (fun '(_, r) => (r < length store)%nat) d ->
  Forall (fun '(_, r) => (r < length (store ++ new))%nat) d.
Proof.
  intros Hd. eapply Forall_impl; [exact Hd|].
  intros [name r]. rewrite length_app. lia.
Qed.

(** The loop on references, for any list of activities to go through: the
    child's references are the next free positions of the store, in order,
    and the object at each holds the fields of the donor's object. *)
Lemma single_point_child_refs_spec (crossover_point : Z) (d1 d2 : list (string * nat))
    (items : list (Z * string)) (store : list ActivityAssignment) :
  (forall index name, (index, name) ∈ items ->
     is_Some (dict_get d1 name) /\ is_Some (dict_get d2 name)) ->
  Forall (fun '(_, r) => (r < length store)%nat) d1 ->
  Forall (fun '(_, r) => (r < length store)%nat) d2 ->
  exists child new,
    Aliasing.single_point_child_refs crossover_point d1 d2 items store
      = inr (child, store ++ new)
    /\ map fst child = map snd items
    /\ map snd child = seq (length store) (length items)
    /\ Forall2 (fun (e : Z * string) (a : ActivityAssignment) =>
                  exists r, dict_get (if (e.1 <=? crossover_point)%Z then d1 else d2) e.2
                            = Some r
                            /\ store !! r = Some a)
               items new.
Proof.
  revert store. induction items as [|[index name] items IH]; intros store Hkeys H1 H2.
  - exists [], []. cbn. rewrite app_nil_r. by repeat split.
  - cbn [Aliasing.single_point_child_refs].
    set (parent := if (index <=? crossover_point)%Z then d1 else d2).
    assert (Hparent : Forall (fun '(_, r) => (r < length store)%nat) parent).
    { unfold parent. by destruct (index <=? crossover_point)%Z. }
    assert (exists r, dict_get parent name = Some r) as [r Hr].
    { destruct (Hkeys index name) as [[r1 ?] [r2 ?]]; [apply elem_of_cons; by left|].
      unfold parent. destruct (index <=? crossover_point)%Z; by eexists. }
    rewrite Hr. destruct (live_ref store parent name r Hparent Hr) as [a Ha].
    rewrite (copy_object_spec store r a Ha).
    destruct (IH (store ++ [a])) as (child & new & -> & Hfst & Hsnd & Hvals).
    { intros i n Hin. apply (Hkeys i n), elem_of_cons. by right. }
    { by apply live_refs_grow. }
    { by apply live_refs_grow. }
    exists ((name, length store) :: child), (a :: new).
    rewrite <- app_assoc. cbn. split_and!; try done.
    + by rewrite Hfst.
    + rewrite Hsnd, length_app. cbn. do 2 f_equal. lia.
    + constructor.
      * exists r. by split.
      * eapply Forall2_impl; [apply Hvals|]. cbn.
        intros [i n] a' (r' & Hr' & Ha'). cbn [fst snd] in Hr'. exists r'. split; [done|].
        assert (exists a0, store !! r' = Some a0) as [a0 Ha0].
        { eapply live_ref; [|apply Hr']. by destruct (i <=? crossover_point)%Z. }
        rewrite lookup_app_l in Ha'; [done|]. by eapply lookup_lt_Some.
Qed.

Lemma deref_Forall2 (store : list ActivityAssignment) (d : list (string * nat))
    (l : list (string * ActivityAssignment)) :
  Aliasing.deref store d = Some l <->
  Forall2 (fun (x : string * nat) (y : string * ActivityAssignment) =>
             y.1 = x.1 /\ store !! x.2 = Some y.2) d l.
Proof.
  unfold Aliasing.deref. rewrite mapM_Some. split.
  - intros HF. eapply Forall2_impl; [exact HF|]. intros [n r] y. cbn.
    destruct (store !! r) as [a|]; cbn; [|done]. by intros [= <-].
  - intros HF. eapply Forall2_impl; [exact HF|].
    intros [n r] [n' a] [Hn Hr]. cbn in *. rewrite Hr. cbn. by subst.
Qed.

Lemma deref_dict_get (store : list ActivityAssignment) (d : list (string * nat))
    (l : list (string * ActivityAssignment)) (name : string) :
  Aliasing.deref store d = Some l ->
  dict_get l name = r ← dict_get d name; store !! r.
Proof.
  rewrite deref_Forall2. induction 1 as [|[n r] [n' a] d l [Hn Hr] _ IH]; [done|].
  cbn in Hn, Hr. subst n'. cbn. destruct (String.eqb n name); cbn; [by rewrite Hr|done].
Qed.

Lemma ALL_ACTIVITIES_length : length ALL_ACTIVITIES = 11%nat.
Proof. reflexivity. Qed.

(** C10. For every pair of parents over the catalog the single-point
    crossover returns a child over the catalog; the crossover point lies in
    [0 .. N-1]; each activity of the child holds the fields of the donor's
    assignment for that same activity, the donor being the first parent up
    to the crossover point and the second parent after it; the first
    activity therefore always comes from the first parent.  On the object
    store the child's assignments are new objects, pairwise distinct and
    distinct from every object of the parents, and the parents' objects
    are left as they were. *)
Theorem single_point_crossover_copies (parent_1 parent_2 : Schedule) (w : World) :
  catalog_ordered parent_1 -> catalog_ordered parent_2 ->
  exists crossover_point child w',
    perform_single_point_crossover parent_1 parent_2 w = (Ok child, w')
    /\ (0 <= crossover_point < Z.of_nat (length ALL_ACTIVITIES))%Z
    /\ catalog_ordered child
    /\ (forall i name,
          ALL_ACTIVITIES !! i = Some name ->
          exists a,
            child.(_assignments) !! i = Some (name, a)
            /\ dict_get (donor crossover_point (Z.of_nat i) parent_1 parent_2).(_assignments)
                        name = Some a)
    /\ (exists name a,
          ALL_ACTIVITIES !! 0%nat = Some name
          /\ child.(_assignments) !! 0%nat = Some (name, a)
          /\ dict_get parent_1.(_assignments) name = Some a)
    /\ (forall store d1 d2,
          Aliasing.well_formed store d1 -> Aliasing.well_formed store d2 ->
          Aliasing.deref store d1 = Some parent_1.(_assignments) ->
          Aliasing.deref store d2 = Some parent_2.(_assignments) ->
          exists dchild new,
            Aliasing.single_point_child_refs crossover_point d1 d2
              (enumerate ALL_ACTIVITIES) store = inr (dchild, store ++ new)
            /\ Aliasing.deref (store ++ new) dchild = Some child.(_assignments)
            /\ NoDup (map snd dchild)
            /\ (forall name r, (name, r) ∈ dchild -> (length store <= r)%nat)
            /\ (forall name r name' r',
                  (name, r) ∈ dchild -> (name', r') ∈ d1 ++ d2 -> r ≠ r')).
Proof.
  intros Hc1 Hc2.
  destruct (perform_single_point_crossover_yields parent_1 parent_2 w Hc1 Hc2)
    as (child & w' & Hrun & Hcat & _ & _ & _ & point & Hpoint & Hchild).
  exists point, child, w'.
  destruct (single_point_child_spec point parent_1 parent_2 Hc1 Hc2) as (items & Hitems & HF).
  rewrite Hchild in Hitems. injection Hitems as <-.
  assert (Hpos : forall i name,
            ALL_ACTIVITIES !! i = Some name ->
            exists a,
              child.(_assignments) !! i = Some (name, a)
              /\ dict_get (donor point (Z.of_nat i) parent_1 parent_2).(_assignments)
                          name = Some a).
  { intros i name Hi.
    assert (He : enumerate ALL_ACTIVITIES !! i = Some (Z.of_nat i, name)).
    { by rewrite enumerate_lookup, Hi. }
    destruct (Forall2_lookup_l _ _ _ _ _ HF He) as ([n a] & Hitem & Hn & Ha).
    cbn in Hn, Ha. subst n. by exists a. }
  rewrite ALL_ACTIVITIES_length in *.
  split_and!; try done; try lia.
  - destruct (Hpos 0%nat "SLA101A"%string eq_refl) as (a & Ha & Hd).
    exists "SLA101A"%string, a. split_and!; try done.
    unfold donor in Hd. destruct (Z.leb_spec (Z.of_nat 0) point); [done|lia].
  - intros store d1 d2 [Hk1 Hl1] [Hk2 Hl2] Hd1 Hd2.
    destruct (single_point_child_refs_spec point d1 d2 (enumerate ALL_ACTIVITIES) store)
      as (dchild & new & Hrefs & Hfst & Hsnd & Hvals); try done.
    { intros index name Hin%enumerate_elem_of. split; apply dict_get_is_Some; congruence. }
    rewrite enumerate_snd in Hfst.
    assert (Hlen : length (enumerate ALL_ACTIVITIES) = 11%nat) by reflexivity.
    rewrite Hlen in Hsnd.
    exists dchild, new. split_and!; try done.
    + apply deref_Forall2. apply Forall2_same_length_lookup_2.
      * apply Forall2_length in HF. rewrite Hlen in HF.
        rewrite <- HF. rewrite <- (length_map snd dchild), Hsnd. apply length_seq.
      * intros i [n r] [n' a'] Hdi Hci. cbn.
        assert (Hn : ALL_ACTIVITIES !! i = Some n).
        { rewrite <- Hfst, list_lookup_fmap, Hdi. done. }
        assert (Hr : r = (length store + i)%nat).
        { assert (map snd dchild !! i = Some r) as Hs
            by (by rewrite list_lookup_fmap, Hdi).
          rewrite Hsnd in Hs. apply lookup_seq in Hs. lia. }
        destruct (Hpos i n Hn) as (a & Ha & Hdon). rewrite Ha in Hci.
        injection Hci as <- <-. split; [done|].
        assert (He : enumerate ALL_ACTIVITIES !! i = Some (Z.of_nat i, n)).
        { by rewrite enumerate_lookup, Hn. }
        destruct (Forall2_lookup_l _ _ _ _ _ Hvals He) as (b & Hb & r0 & Hr0 & Hsb).
        cbn [fst snd] in Hr0. subst r.
        rewrite lookup_app_r by lia. replace (length store + i - length store)%nat with i by lia.
        rewrite Hb. f_equal.
        unfold donor in Hdon. destruct (Z.of_nat i <=? point)%Z.
        -- rewrite (deref_dict_get _ _ _ n Hd1), Hr0 in Hdon. cbn in Hdon. congruence.
        -- rewrite (deref_dict_get _ _ _ n Hd2), Hr0 in Hdon. cbn in Hdon. congruence.
    + rewrite Hsnd. apply NoDup_seq.
    + intros name r Hin.
      assert (r ∈ map snd dchild) as Hr.
      { apply list_elem_of_fmap. by exists (name, r). }
      rewrite Hsnd in Hr. apply elem_of_seq in Hr. lia.
    + intros name r name' r' Hin Hin'.
      assert (r ∈ map snd dchild) as Hr.
      { apply list_elem_of_fmap. by exists (name, r). }
      rewrite Hsnd in Hr. apply elem_of_seq in Hr.
      assert (r' < length store)%nat; [|lia].
      apply elem_of_app in Hin' as [Hin'|Hin'].
      * rewrite Forall_forall in Hl1. apply (Hl1 _ Hin').
      * rewrite Forall_forall in Hl2. apply (Hl2 _ Hin').
Qed.

(** ** The evaluator on schedules over the catalog *)

Lemma section_spacing_ok (s : Schedule) (n1 n2 : string) :
  catalog_ordered s -> n1 ∈ ALL_ACTIVITIES -> n2 ∈ ALL_ACTIVITIES ->
  exists v, _evaluate_section_spacing n1 n2 s = Ok v.
Proof.
  intros Hcat H1 H2. unfold _evaluate_section_spacing.
  destruct (catalog_getitem s _ Hcat H1) as [a1 ->].
  destruct (catalog_getitem s _ Hcat H2) as [a2 ->].
  repeat case_match; by eexists.
Qed.

Lemma cross_section_interaction_ok (s : Schedule) (n1 n2 : string) :
  catalog_ordered s -> n1 ∈ ALL_ACTIVITIES -> n2 ∈ ALL_ACTIVITIES ->
  exists v, _evaluate_cross_section_interaction n1 n2 s = Ok v.
Proof.
  intros Hcat H1 H2. unfold _evaluate_cross_section_interaction.
  destruct (catalog_getitem s _ Hcat H1) as [a1 ->].
  destruct (catalog_getitem s _ Hcat H2) as [a2 ->].
  repeat case_match; by eexists.
Qed.

(** The fresh computation never raises on a schedule over the catalog. *)
Lemma compute_schedule_fitness_ok (s : Schedule) :
  catalog_ordered s -> exists v, compute_schedule_fitness s = Ok v.
Proof.
  intros Hcat. unfold compute_schedule_fitness.
  destruct (section_spacing_ok s SLA101_SECTIONS.1 SLA101_SECTIONS.2 Hcat)
    as [v1 ->]; [in_catalog..|].
  destruct (section_spacing_ok s SLA191_SECTIONS.1 SLA191_SECTIONS.2 Hcat)
    as [v2 ->]; [in_catalog..|].
  unfold CROSS_SECTION_PAIRS. cbn [foldl add_res].
  destruct (cross_section_interaction_ok s "SLA101A" "SLA191A" Hcat) as [c1 ->];
    [in_catalog..|].
  destruct (cross_section_interaction_ok s "SLA101A" "SLA191B" Hcat) as [c2 ->];
    [in_catalog..|].
  destruct (cross_section_interaction_ok s "SLA101B" "SLA191A" Hcat) as [c3 ->];
    [in_catalog..|].
  destruct (cross_section_interaction_ok s "SLA101B" "SLA191B" Hcat) as [c4 ->];
    [in_catalog..|].
  by eexists.
Qed.

Section EngineFacts.

Variable hash_str : list (option string * option string * option string) -> Z.

Lemma calculate_schedule_fitness_yields (s : Schedule) w :
  catalog_ordered s ->
  yields (calculate_schedule_fitness hash_str s) w
         (fun r _ => r.2 = set_fitness (Some r.1) s).
Proof.
  intros Hcat. unfold yields, calculate_schedule_fitness.
  destruct (_fitness_cache w !! cache_key hash_str s) as [cached|].
  - by eexists (_, _), _.
  - destruct (compute_schedule_fitness_ok s Hcat) as [v ->]. by eexists (_, _), _.
Qed.

Lemma evaluate_population_yields (population : list Schedule) w :
  Forall catalog_ordered population ->
  yields (_evaluate_entire_population hash_str population) w
         (fun r _ =>
            let '(fitness_scores, _, _, _, population') := r in
            length fitness_scores = length population
            /\ length population' = length population
            /\ Forall catalog_ordered population').
Proof.
  intros Hpop. unfold _evaluate_entire_population.
  eapply yields_bind.
  { apply (yields_for_each _ (fun s (r : Q * Schedule) => r.2 = set_fitness (Some r.1) s)
             (fun _ => True)); [done|].
    intros s w1 Hin _. rewrite Forall_forall in Hpop.
    eapply yields_mono; [apply calculate_schedule_fitness_yields, Hpop, Hin|].
    by intros r w2 Hr. }
  intros evaluated w1 [HF _].
  assert (Hlen : length evaluated = length population) by (symmetry; eapply Forall2_length, HF).
  assert (Hcat : Forall catalog_ordered (map snd evaluated)).
  { clear Hlen. induction HF as [|s r ss rs Hr _ IH]; [constructor|].
    apply Forall_cons in Hpop as [Hs Hss]. constructor; [|by apply IH].
    cbn. rewrite Hr. exact Hs. }
  destruct (map fst evaluated) as [|x xs] eqn:E; apply yields_ret.
  - apply (f_equal length) in E. rewrite length_map in E. cbn in E.
    rewrite length_map. split_and!; try done; cbn; lia.
  - rewrite <- E, !length_map. by split_and!.
Qed.

End EngineFacts.

(** ** Population, selection and assembly *)

Lemma Forall2_right {A B} (P : B -> Prop) (xs : list A) (ys : list B) :
  Forall2 (fun _ y => P y) xs ys -> Forall P ys.
Proof. induction 1; by constructor. Qed.

Lemma py_range_length (n : Z) : length (py_range n) = Z.to_nat n.
Proof. unfold py_range. by rewrite length_map, length_seq. Qed.

Lemma generate_random_assignment_yields w :
  yields generate_random_assignment w (fun _ _ => True).
Proof.
  destruct catalog_lists_nonempty as (Hr & Ht & Hf).
  unfold generate_random_assignment.
  eapply yields_bind; [by apply random_choice_yields|]. intros r w1 _.
  eapply yields_bind; [by apply random_choice_yields|]. intros t w2 _.
  eapply yields_bind; [by apply random_choice_yields|]. intros f w3 _.
  by apply yields_ret.
Qed.

Lemma generate_random_schedule_yields w :
  yields generate_random_schedule w (fun s _ => catalog_ordered s).
Proof.
  unfold generate_random_schedule. eapply yields_bind.
  { apply (yields_for_each _ (fun name (item : string * ActivityAssignment) => item.1 = name)
             (fun _ => True)); [done|].
    intros name w1 _ _.
    eapply yields_bind; [apply generate_random_assignment_yields|].
    intros a w2 _. by apply yields_ret. }
  intros items w1 [HF _]. apply yields_ret. unfold catalog_ordered. cbn.
  by apply Forall2_names.
Qed.

Lemma create_initial_population_yields (population_size : Z) w :
  (250 <= population_size)%Z ->
  yields (create_initial_population population_size) w
         (fun population _ =>
            Z.of_nat (length population) = population_size
            /\ Forall catalog_ordered population).
Proof.
  intros Hsize. unfold create_initial_population.
  replace (population_size <? 250)%Z with false by lia.
  eapply yields_mono.
  { apply (yields_for_each _ (fun _ s => catalog_ordered s) (fun _ => True)); [done|].
    intros _ w1 _ _. eapply yields_mono; [apply generate_random_schedule_yields|].
    by intros s w2 Hs. }
  intros population w1 [HF _]. split.
  - apply Forall2_length in HF. rewrite <- HF, py_range_length. lia.
  - by eapply Forall2_right.
Qed.

Lemma create_initial_population_raises (population_size : Z) w :
  (population_size < 250)%Z ->
  create_initial_population population_size w = (Raise ValueError, w).
Proof.
  intros Hsize. unfold create_initial_population.
  by replace (population_size <? 250)%Z with true by lia.
Qed.

Lemma select_parent_pairs_yields (population : list Schedule) (number_of_pairs : Z) w :
  population ≠ [] ->
  yields (select_parent_pairs population number_of_pairs) w
         (fun pairs _ =>
            length pairs = Z.to_nat number_of_pairs
            /\ Forall (fun pair => pair.1 ∈ population /\ pair.2 ∈ population) pairs).
Proof.
  intros Hne. unfold select_parent_pairs. eapply yields_mono.
  { apply (yields_for_each _ (fun _ (pair : Schedule * Schedule) =>
                                pair.1 ∈ population /\ pair.2 ∈ population)
             (fun _ => True)); [done|].
    intros _ w1 _ _. unfold random_choices_one.
    eapply yields_bind; [by apply random_choice_yields|]. intros a w2 [Ha _].
    eapply yields_bind; [by apply random_choice_yields|]. intros b w3 [Hb _].
    by apply yields_ret. }
  intros pairs w1 [HF _]. split.
  - apply Forall2_length in HF. by rewrite <- HF, py_range_length.
  - by eapply Forall2_right.
Qed.

Lemma reproduce_yields (method : string) (rate : Q) (pairs : list (Schedule * Schedule)) w :
  Forall (fun pair => catalog_ordered pair.1 /\ catalog_ordered pair.2) pairs ->
  yields (reproduce method rate pairs) w
         (fun offspring _ =>
            length offspring = length pairs /\ Forall catalog_ordered offspring).
Proof.
  intros Hpairs. unfold reproduce. eapply yields_mono.
  { apply (yields_for_each _ (fun _ child => catalog_ordered child) (fun _ => True)); [done|].
    intros [parent_a parent_b] w1 Hin _. rewrite Forall_forall in Hpairs.
    destruct (Hpairs _ Hin) as [Ha Hb]. cbn in Ha, Hb.
    eapply (yields_bind _ _ _ (fun child _ => catalog_ordered child)).
    { destruct (String.eqb method "uniform").
      - eapply yields_mono; [by apply perform_uniform_crossover_yields|].
        by intros child w2 (? & _).
      - eapply yields_mono; [by apply perform_single_point_crossover_yields|].
        by intros child w2 (? & _). }
    intros child w2 Hchild. eapply yields_mono; [apply apply_mutation_yields|].
    intros mutated w3 (Hkeys & _). split; [|done].
    unfold catalog_ordered. by rewrite Hkeys. }
  intros offspring w1 [HF _]. split.
  - symmetry. eapply Forall2_length, HF.
  - by eapply Forall2_right.
Qed.

Lemma insert_descending_length x l :
  length (insert_descending x l) = S (length l).
Proof.
  induction l as [|y l IH]; [done|]. cbn. destruct (Qle_bool y.2 x.2); cbn; by rewrite ?IH.
Qed.

Lemma insert_descending_elem_of z x l :
  z ∈ insert_descending x l -> z = x \/ z ∈ l.
Proof.
  induction l as [|y l IH]; cbn.
  - intros ?%list_elem_of_singleton. by left.
  - destruct (Qle_bool y.2 x.2).
    + intros [?|?]%elem_of_cons; [by left|by right].
    + intros [->|Hz]%elem_of_cons.
      * right. apply elem_of_cons. by left.
      * destruct (IH Hz); [by left|]. right. apply elem_of_cons. by right.
Qed.

Lemma sort_descending_length l : length (sort_descending l) = length l.
Proof.
  induction l as [|x l IH]; [done|]. cbn.
  fold (sort_descending l). by rewrite insert_descending_length, IH.
Qed.

Lemma sort_descending_elem_of z l : z ∈ sort_descending l -> z ∈ l.
Proof.
  induction l as [|x l IH]; [done|]. cbn. fold (sort_descending l).
  intros [->|Hz]%insert_descending_elem_of; apply elem_of_cons; [by left|].
  right. by apply IH.
Qed.

Lemma py_slice_to_length {A} (k : Z) (l : list A) :
  length (py_slice_to k l) =
  if (0 <=? k)%Z then Nat.min (Z.to_nat k) (length l)
  else Z.to_nat (Z.of_nat (length l) + k).
Proof.
  unfold py_slice_to. destruct (0 <=? k)%Z eqn:E; rewrite length_take; [done|lia].
Qed.

Lemma py_slice_to_elem_of {A} (k : Z) (l : list A) (x : A) :
  x ∈ py_slice_to k l -> x ∈ l.
Proof.
  unfold py_slice_to. destruct (0 <=? k)%Z; apply subseteq_take.
Qed.

Lemma create_copy_catalog_ordered (s : Schedule) :
  catalog_ordered s -> catalog_ordered (create_copy s).
Proof.
  unfold catalog_ordered, create_copy. cbn. intros <-. unfold dict_keys.
  induction (_assignments s) as [|[n a] l IH]; [done|]. cbn. by rewrite IH.
Qed.

Lemma select_best_schedules_spec (population : list Schedule) (fitness_scores : list Q)
    (number_to_select : Z) :
  length fitness_scores = length population ->
  Forall catalog_ordered population ->
  length (select_best_schedules population fitness_scores number_to_select)
  = (if (0 <=? number_to_select)%Z
     then Nat.min (Z.to_nat number_to_select) (length population)
     else Z.to_nat (Z.of_nat (length population) + number_to_select))
  /\ Forall catalog_ordered
            (select_best_schedules population fitness_scores number_to_select).
Proof.
  intros Hlen Hpop. unfold select_best_schedules, py_zip. split.
  - rewrite length_map, py_slice_to_length, sort_descending_length, length_zip.
    by rewrite Hlen, Nat.min_id.
  - apply Forall_forall. intros s Hs. apply list_elem_of_fmap in Hs as ([s0 v] & -> & Hin).
    apply create_copy_catalog_ordered.
    apply py_slice_to_elem_of, sort_descending_elem_of in Hin.
    apply elem_of_zip_l in Hin. rewrite Forall_forall in Hpop. by apply Hpop.
Qed.

(** The assembly step yields a population of the configured size, whatever
    the elitism count, when the elites and the offspring have the sizes the
    selection and reproduction phases give them. *)
Lemma assemble_next_generation_length (population_size elitism_count : Z)
    (elite_schedules offspring_schedules : list Schedule) :
  (0 <= population_size)%Z ->
  length elite_schedules
  = (if (0 <=? elitism_count)%Z
     then Nat.min (Z.to_nat elitism_count) (Z.to_nat population_size)
     else Z.to_nat (population_size + elitism_count)) ->
  length offspring_schedules = Z.to_nat (population_size - elitism_count) ->
  Z.of_nat (length (assemble_next_generation population_size elite_schedules
                                             offspring_schedules))
  = population_size.
Proof.
  intros Hsize Helite Hoff. unfold assemble_next_generation.
  assert (Hsum : (population_size
                  <= Z.of_nat (length elite_schedules + length offspring_schedules))%Z
                 /\ (Z.of_nat (length elite_schedules + length offspring_schedules)
                     <> population_size ->
                     (population_size
                      < Z.of_nat (length elite_schedules + length offspring_schedules))%Z)).
  { destruct (0 <=? elitism_count)%Z eqn:E3; lia. }
  destruct Hsum as [Hge Hgt]. clear Helite Hoff.
  rewrite length_app.
  destruct (population_size <? _)%Z eqn:E1; [|destruct (_ <? population_size)%Z eqn:E2].
  - rewrite py_slice_to_length, length_app.
    replace (0 <=? population_size)%Z with true by lia. lia.
  - apply Z.ltb_lt in E2. exfalso. lia.
  - apply Z.ltb_ge in E1, E2. rewrite ?length_app. lia.
Qed.

Lemma assemble_next_generation_catalog (population_size : Z)
    (elite_schedules offspring_schedules : list Schedule) :
  Forall catalog_ordered elite_schedules -> Forall catalog_ordered offspring_schedules ->
  Forall catalog_ordered
         (assemble_next_generation population_size elite_schedules offspring_schedules).
Proof.
  intros He Ho. unfold assemble_next_generation.
  assert (Hall : Forall catalog_ordered (elite_schedules ++ offspring_schedules))
    by (by apply Forall_app).
  repeat case_match.
  - apply Forall_forall. intros s Hs%py_slice_to_elem_of.
    rewrite Forall_forall in Hall. by apply Hall.
  - apply Forall_app. split; [done|].
    apply Forall_forall. intros s Hs%py_slice_to_elem_of.
    rewrite Forall_forall in Ho. by apply Ho.
  - done.
Qed.

(** ** The evolution loop *)

Lemma should_terminate_plateau (minimum_generations : Z) (rec : GenerationRecord) :
  should_terminate minimum_generations rec.(generation) rec.(improvement) = true
  <-> plateau minimum_generations rec.
Proof.
  unfold should_terminate, plateau. rewrite andb_true_iff, Z.leb_le.
  destruct (improvement rec) as [i|].
  - destruct (Qlt_le_dec i 1) as [Hlt|Hge]; split.
    + intros [? _]. split; [done|]. by exists i.
    + by intros [? _].
    + by intros [_ [=]].
    + intros [_ (j & [= <-] & Hj)]. exfalso. by apply (Qlt_not_le _ _ Hj).
  - split; [by intros [_ [=]]|]. by intros [_ (j & [=] & _)].
Qed.

Lemma adapt_rate_step (cfg : Config) (rec : GenerationRecord) :
  rate_step cfg rec
    (adapt_mutation_rate cfg.(use_adaptive_mutation) rec.(generation) rec.(improvement)
                         rec.(mutation_rate)).
Proof.
  unfold rate_step, adapt_mutation_rate, halving_allowed.
  destruct (use_adaptive_mutation cfg); cbn [andb]; [|by left].
  destruct (0 <? generation rec)%Z eqn:E1; cbn [andb]; [|by left].
  destruct (generation rec mod 20 =? 0)%Z eqn:E2; [|by left].
  destruct (improvement rec) as [i|]; [|by left].
  destruct (Qlt_le_dec (1 # 10) i); [|by left].
  right. split; [done|]. split_and!; try done; try lia. by exists i.
Qed.

Lemma py_argmax_spec (scores : list Q) :
  scores ≠ [] -> exists i, py_argmax scores = Ok i /\ (i < length scores)%nat.
Proof.
  destruct scores as [|x xs]; [done|]. intros _. unfold py_argmax.
  eexists. split; [done|].
  assert (forall (bi : nat) (bs : Q) (idx : nat),
            (bi < idx)%nat ->
            let r := foldl (fun '(best_index, best_score, index) y =>
                              if Qlt_le_dec best_score y then (index, y, S index)
                              else (best_index, best_score, S index))
                           (bi, bs, idx) xs in
            (r.1.1 < r.2)%nat /\ r.2 = (idx + length xs)%nat) as Hfold.
  { induction xs as [|y ys IH]; intros bi bs idx Hlt; cbn [foldl length].
    - cbn. lia.
    - destruct (Qlt_le_dec bs y).
      + destruct (IH idx y (S idx)) as [? ?]; [lia|]. split; [done|lia].
      + destruct (IH bi bs (S idx)) as [? ?]; [lia|]. split; [done|lia]. }
  destruct (Hfold 0%nat x 1%nat) as [H1 H2]; [lia|]. cbn [length]. cbn in H1, H2. lia.
Qed.

Section Loop.

Variable hash_str : list (option string * option string * option string) -> Z.
Variable cfg : Config.
Hypothesis population_size_ok : (250 <= cfg.(population_size))%Z.

(** One turn of the loop from a state whose population is well formed: it
    returns; one record is appended, for this generation, with the rate in
    effect and the improvement over the previous average; the flag is the
    termination test; the rate is adapted only when the loop goes on; the
    population handed to the next turn is well formed. *)
Lemma run_generation_step (g : Z) (st : LoopState) w :
  population_ok cfg st.(current_population) ->
  yields (run_generation hash_str cfg g st) w
         (fun r _ =>
            population_ok cfg r.2.(current_population)
            /\ exists rec,
                 rec.(generation) = g
                 /\ rec.(mutation_rate) = st.(current_mutation_rate)
                 /\ rec.(improvement)
                    = improvement_of st.(previous_average_fitness) rec.(avg)
                 /\ r.2.(generation_history) = st.(generation_history) ++ [rec]
                 /\ r.2.(previous_average_fitness) = Some rec.(avg)
                 /\ r.2.(total_generations_run) = (g + 1)%Z
                 /\ r.1 = should_terminate cfg.(minimum_generations) g rec.(improvement)
                 /\ r.2.(current_mutation_rate)
                    = if r.1 then st.(current_mutation_rate)
                      else adapt_mutation_rate cfg.(use_adaptive_mutation) g
                                               rec.(improvement)
                                               st.(current_mutation_rate)).
Proof.
  intros [Hsize Hcat]. unfold run_generation.
  eapply yields_bind; [by apply evaluate_population_yields|].
  intros [[[[scores bestv] avgv] worstv] population] w1 (Hscores & Hpop & Hcat').
  set (rec := {| generation := g; best := bestv; avg := avgv; worst := worstv;
                 improvement := improvement_of (previous_average_fitness st) avgv;
                 mutation_rate := current_mutation_rate st |}).
  assert (Hok : population_ok cfg population) by (split; [congruence|done]).
  destruct (should_terminate _ _ _) eqn:Hstop.
  - apply yields_ret. cbn [fst snd]. split; [done|]. exists rec. cbn.
    by rewrite Hstop.
  - eapply yields_bind.
    { apply select_parent_pairs_yields. intros ->. cbn in Hpop. lia. }
    intros pairs w2 [Hpairs Hparents].
    eapply yields_bind.
    { apply reproduce_yields. eapply Forall_impl; [exact Hparents|].
      intros [a b] [Ha Hb]. rewrite Forall_forall in Hcat'. split; by apply Hcat'. }
    intros offspring w3 [Hoff Hoffcat].
    apply yields_ret. cbn [fst snd].
    destruct (select_best_schedules_spec population scores cfg.(elitism_count))
      as [Helite Helitecat]; [congruence|done|].
    split.
    + split.
      * apply (assemble_next_generation_length _ cfg.(elitism_count)); [lia| |congruence].
        rewrite Helite. replace (length population) with (Z.to_nat (population_size cfg)) by lia.
        destruct (0 <=? elitism_count cfg)%Z; [done|]. f_equal. lia.
      * by apply assemble_next_generation_catalog.
    + exists rec. cbn. by rewrite Hstop.
Qed.

Lemma run_generation_yields (n : nat) (st : LoopState) w :
  running cfg n st ->
  yields (run_generation hash_str cfg (Z.of_nat n) st) w
         (fun r _ =>
            if r.1 then stopped cfg r.2 /\ length r.2.(generation_history) = S n
            else running cfg (S n) r.2).
Proof.
  intros (Hpop & Htotal & Hlen & Htrail).
  eapply yields_mono; [by apply run_generation_step|].
  intros [stop st'] w1 (Hpop' & rec & Hgen & Hrate & Himp & Hhist & Hprev & Htot & Hstop & Hr).
  cbn [fst snd] in *.
  pose proof (should_terminate_plateau cfg.(minimum_generations) rec) as Hplateau.
  rewrite Hgen, <- Hstop in Hplateau.
  destruct stop.
  - split.
    + split; [done|]. exists st.(generation_history), st.(previous_average_fitness), rec.
      rewrite Hr, Hlen. split_and!; try done; [by apply Hplateau|lia].
    + rewrite Hhist, length_app, Hlen. cbn. lia.
  - split_and!; try done.
    + lia.
    + rewrite Hhist, length_app, Hlen. cbn. lia.
    + rewrite Hhist, Hprev.
      apply (trail_next cfg st.(generation_history) st.(current_mutation_rate)
                        st.(previous_average_fitness) rec); try done.
      * by rewrite Hlen.
      * intros Hp. apply Hplateau in Hp. congruence.
      * rewrite Hr, <- Hrate, <- Hgen. apply (adapt_rate_step cfg rec).
Qed.

(** The loop keeps the population well formed, for any list of generation
    numbers. *)
Lemma evolution_loop_population (generations : list Z) :
  forall (st : LoopState) w,
    population_ok cfg st.(current_population) ->
    yields (evolution_loop hash_str cfg generations st) w
           (fun st' _ => population_ok cfg st'.(current_population)).
Proof.
  induction generations as [|g gs IH]; intros st w Hpop; cbn [evolution_loop].
  - by apply yields_ret.
  - eapply yields_bind; [by apply run_generation_step|].
    intros [stop st'] w1 [Hpop' _]. cbn [fst snd] in Hpop'.
    destruct stop; [by apply yields_ret|by apply IH].
Qed.

Lemma evolution_loop_yields (k : nat) :
  forall (n : nat) (st : LoopState) w,
    running cfg n st ->
    yields (evolution_loop hash_str cfg (map Z.of_nat (seq n k)) st) w
           (fun st' _ =>
              running cfg (n + k) st'
              \/ (stopped cfg st' /\ (length st'.(generation_history) <= n + k)%nat)).
Proof.
  induction k as [|k IH]; intros n st w Hrun; cbn [seq map evolution_loop].
  - apply yields_ret. left. by rewrite Nat.add_0_r.
  - eapply yields_bind; [by apply run_generation_yields|].
    intros [stop st'] w1 Hstep. cbn [fst snd] in Hstep. destruct stop.
    + apply yields_ret. right. destruct Hstep as [? ->]. split; [done|lia].
    + eapply yields_mono; [by apply IH|].
      intros st'' w2 [Hr|[Hs Hl]]; [left|right].
      * by replace (n + S k)%nat with (S n + k)%nat by lia.
      * split; [done|lia].
Qed.

(** The run as a whole, for a population size the initializer accepts:
    it returns, and its result reports the last state of the loop. *)
Lemma run_optimization_yields w :
  yields (run_optimization hash_str cfg) w
         (fun res _ =>
            exists st,
              (running cfg (Z.to_nat cfg.(maximum_generations)) st
               \/ (stopped cfg st
                   /\ (length st.(generation_history)
                       <= Z.to_nat cfg.(maximum_generations))%nat))
              /\ res.(history) = st.(generation_history)
              /\ res.(final_mutation_rate) = st.(current_mutation_rate)
              /\ res.(generations_run) = st.(total_generations_run)
              /\ catalog_ordered res.(best_schedule)
              /\ is_Some res.(best_schedule).(_violation_summary)).
Proof.
  unfold run_optimization.
  eapply yields_bind; [by apply create_initial_population_yields|].
  intros population w1 [Hsize Hcat].
  eapply yields_bind.
  { unfold py_range. apply (evolution_loop_yields _ 0%nat).
    split_and!; try done. apply trail_start. }
  intros st w2 Hst. cbn [Nat.add] in Hst.
  assert (Hpop : population_ok cfg st.(current_population)).
  { destruct Hst as [[? _]|[[? _] _]]; done. }
  destruct Hpop as [Hlen Hcat'].
  eapply yields_bind; [by apply evaluate_population_yields|].
  intros [[[[scores bestv] avgv] worstv] population'] w3 (Hscores & Hpop' & Hcat'').
  destruct (py_argmax_spec scores) as (i & Hi & Hlt).
  { intros ->. cbn in Hscores. lia. }
  eapply (yields_bind _ _ _ (fun x w' => x = i)); [by eapply yields_lift_res|].
  intros ? w4 ->.
  destruct (lookup_lt_is_Some_2 population' i) as [optimal Hopt]; [lia|].
  rewrite Hopt.
  assert (Hoptcat : catalog_ordered optimal).
  { rewrite Forall_forall in Hcat''. eapply Hcat'', list_elem_of_lookup_2, Hopt. }
  destruct (violation_counts_spec optimal Hoptcat) as (vc & Hvc & _).
  eapply (yields_bind _ _ _ (fun x w' => x = (vc, set_violations (Some vc) optimal))).
  { eapply yields_lift_res; [|done]. unfold calculate_constraint_violations. by rewrite Hvc. }
  intros ? w5 ->. apply yields_ret. exists st. cbn. split_and!; try done.
Qed.

End Loop.

(** ** What a trail says about the history *)

Lemma trail_previous cfg history rate previous :
  trail cfg history rate previous -> (previous = None <-> history = []).
Proof.
  destruct 1 as [|history rate previous rec rate' _ _ _ _ _ _]; [done|].
  split; [done|]. by destruct history.
Qed.

Lemma improvement_of_None previous average :
  improvement_of previous average = None <-> previous = None.
Proof. unfold improvement_of. by destruct previous. Qed.

Lemma trail_records cfg history rate previous :
  trail cfg history rate previous ->
  forall i rec,
    history !! i = Some rec ->
    rec.(generation) = Z.of_nat i
    /\ (rec.(improvement) = None <-> i = 0%nat)
    /\ ~ plateau cfg.(minimum_generations) rec.
Proof.
  induction 1 as [|history rate previous rec rate' Htrail IH Hgen Hrate Himp Hnp Hstep];
    intros i r Hi; [done|].
  destruct (decide (i < length history)%nat) as [Hlt|Hge].
  - rewrite lookup_app_l in Hi by done. by apply IH.
  - rewrite lookup_app_r in Hi by lia.
    destruct (i - length history)%nat as [|k] eqn:E; [|by destruct k].
    injection Hi as <-. assert (i = length history) as -> by lia.
    split_and!; try done.
    rewrite Himp, improvement_of_None, (trail_previous _ _ _ _ Htrail).
    split; [by intros ->|]. by destruct history.
Qed.

Lemma rates_snoc history rec rate' :
  rates (history ++ [rec]) rate' = rates history rec.(mutation_rate) ++ [rate'].
Proof. unfold rates. by rewrite map_app. Qed.

Lemma rates_length history rate : length (rates history rate) = S (length history).
Proof. unfold rates. rewrite length_app, length_map. cbn. lia. Qed.

Lemma rates_ok_snoc cfg history rate rec rate' :
  rates_ok cfg history rate -> rec.(mutation_rate) = rate -> rate_step cfg rec rate' ->
  rates_ok cfg (history ++ [rec]) rate'.
Proof.
  intros [Hfirst Hsteps] Hrate Hstep. unfold rates_ok. rewrite rates_snoc, Hrate. split.
  - rewrite lookup_app_l; [done|]. rewrite rates_length. lia.
  - intros i r next Hi Hnext.
    destruct (decide (i < length history)%nat) as [Hlt|Hge].
    + rewrite lookup_app_l in Hi by done.
      rewrite lookup_app_l in Hnext by (rewrite rates_length; lia). by eapply Hsteps.
    + rewrite lookup_app_r in Hi by lia.
      destruct (i - length history)%nat as [|k] eqn:E; [|by destruct k].
      injection Hi as <-.
      rewrite lookup_app_r in Hnext by (rewrite rates_length; lia).
      rewrite rates_length in Hnext.
      replace (S i - S (length history))%nat with 0%nat in Hnext by lia.
      by injection Hnext as <-.
Qed.

Lemma trail_rates_ok cfg history rate previous :
  trail cfg history rate previous -> rates_ok cfg history rate.
Proof.
  induction 1 as [|history rate previous rec rate' Htrail IH Hgen Hrate Himp Hnp Hstep].
  - split; [done|]. by intros i rec next.
  - by eapply rates_ok_snoc.
Qed.

Lemma rate_step_le cfg rec next :
  0 <= rec.(mutation_rate) -> rate_step cfg rec next ->
  0 <= next /\ next <= rec.(mutation_rate).
Proof.
  intros Hpos [->|[-> _]].
  - split; [done|apply Qle_refl].
  - split.
    + apply Qle_shift_div_l; [done|]. lra.
    + apply Qle_shift_div_r; [done|]. lra.
Qed.

Lemma rates_monotone_snoc cfg history rate rec rate' :
  rates_monotone history rate -> rec.(mutation_rate) = rate -> rate_step cfg rec rate' ->
  rates_monotone (history ++ [rec]) rate'.
Proof.
  intros [Hmono Hall] Hrate Hstep. unfold rates_monotone. rewrite rates_snoc, Hrate.
  assert (Hlast : 0 <= rate /\ rate <= rate).
  { rewrite Forall_forall in Hall. apply Hall. unfold rates.
    apply elem_of_app. right. by apply list_elem_of_singleton. }
  destruct Hlast as [Hrate0 _].
  destruct (rate_step_le cfg rec rate') as [Hpos' Hle']; [by rewrite Hrate|done|].
  rewrite Hrate in Hle'. split.
  - intros i j ri rj Hij Hi Hj.
    destruct (decide (j < length (rates history rate))%nat) as [Hlt|Hge].
    + rewrite lookup_app_l in Hi by lia. rewrite lookup_app_l in Hj by done.
      by apply (Hmono i j).
    + rewrite lookup_app_r in Hj by lia.
      destruct (j - length (rates history rate))%nat as [|k] eqn:E; [|by destruct k].
      injection Hj as <-.
      destruct (decide (i < length (rates history rate))%nat) as [Hlti|Hgei].
      * rewrite lookup_app_l in Hi by done. apply list_elem_of_lookup_2 in Hi.
        rewrite Forall_forall in Hall. destruct (Hall _ Hi) as [_ Hri].
        by eapply Qle_trans.
      * rewrite lookup_app_r in Hi by lia.
        replace (i - length (rates history rate))%nat with 0%nat in Hi by lia.
        injection Hi as <-. apply Qle_refl.
  - apply Forall_app. split.
    + eapply Forall_impl; [exact Hall|]. intros r [Hr0 Hr]. split; [done|].
      by eapply Qle_trans.
    + constructor; [|constructor]. split; [done|apply Qle_refl].
Qed.

Lemma trail_rates_monotone cfg history rate previous :
  0 <= cfg.(initial_mutation_probability) ->
  trail cfg history rate previous -> rates_monotone history rate.
Proof.
  intros Hpos.
  induction 1 as [|history rate previous rec rate' Htrail IH Hgen Hrate Himp Hnp Hstep].
  - split.
    + intros i j ri rj Hij Hi Hj. destruct j as [|j]; [|by destruct j].
      assert (i = 0%nat) as -> by lia. cbn in Hi, Hj. injection Hi as <-. injection Hj as <-.
      apply Qle_refl.
    + constructor; [|constructor]. split; [done|apply Qle_refl].
  - by eapply rates_monotone_snoc.
Qed.

(** Everything the claims need about the state in which the loop is left,
    after at most [n] generations. *)
Lemma final_state_facts (cfg : Config) (n : nat) (st : LoopState) :
  running cfg n st
  \/ (stopped cfg st /\ (length st.(generation_history) <= n)%nat) ->
  population_ok cfg st.(current_population)
  /\ st.(total_generations_run) = Z.of_nat (length st.(generation_history))
  /\ (length st.(generation_history) <= n)%nat
  /\ (forall i rec, st.(generation_history) !! i = Some rec ->
        rec.(generation) = Z.of_nat i /\ (rec.(improvement) = None <-> i = 0%nat))
  /\ (forall i rec, st.(generation_history) !! i = Some rec ->
        (S i < length st.(generation_history))%nat ->
        ~ plateau cfg.(minimum_generations) rec)
  /\ ((length st.(generation_history) < n)%nat ->
        exists rec, last st.(generation_history) = Some rec
                    /\ plateau cfg.(minimum_generations) rec)
  /\ (forall rec, last st.(generation_history) = Some rec ->
        ~ plateau cfg.(minimum_generations) rec ->
        length st.(generation_history) = n)
  /\ rates_ok cfg st.(generation_history) st.(current_mutation_rate)
  /\ (0 <= cfg.(initial_mutation_probability) ->
      rates_monotone st.(generation_history) st.(current_mutation_rate)).
Proof.
  intros [(Hpop & Htotal & Hlen & Htrail)|[(Hpop & h & previous & rec & Htrail & Hh & Hgen
                                            & Hrate & Himp & Hplateau & Htotal) Hle]].
  - pose proof (trail_records _ _ _ _ Htrail) as Hrecs.
    split_and!; try done.
    + by rewrite Hlen.
    + lia.
    + intros i rec Hi. by destruct (Hrecs i rec Hi) as (? & ? & _).
    + intros i rec Hi _. by destruct (Hrecs i rec Hi) as (_ & _ & ?).
    + lia.
    + by eapply trail_rates_ok.
    + intros Hpos. by eapply trail_rates_monotone.
  - pose proof (trail_records _ _ _ _ Htrail) as Hrecs.
    assert (Hlast : last st.(generation_history) = Some rec) by (by rewrite Hh, last_snoc).
    split_and!; try done.
    + rewrite Htotal, Hh, length_app. cbn. f_equal. lia.
    + intros i r Hi. rewrite Hh in Hi.
      destruct (decide (i < length h)%nat) as [Hlt|Hge].
      * rewrite lookup_app_l in Hi by done. by destruct (Hrecs i r Hi) as (? & ? & _).
      * rewrite lookup_app_r in Hi by lia.
        destruct (i - length h)%nat as [|k] eqn:E; [|by destruct k].
        injection Hi as <-. assert (i = length h) as -> by lia. split; [done|].
        rewrite Himp, improvement_of_None, (trail_previous _ _ _ _ Htrail).
        split; [by intros ->|]. by destruct h.
    + intros i r Hi Hlt. rewrite Hh in Hi, Hlt. rewrite length_app in Hlt. cbn in Hlt.
      rewrite lookup_app_l in Hi by lia. by destruct (Hrecs i r Hi) as (_ & _ & ?).
    + intros _. by exists rec.
    + intros r Hr Hnp. rewrite Hlast in Hr. by injection Hr as <-.
    + rewrite Hh. eapply rates_ok_snoc; [by eapply trail_rates_ok|done|by left].
    + intros Hpos. rewrite Hh.
      eapply (rates_monotone_snoc cfg); [by eapply trail_rates_monotone|done|by left].
Qed.

(** ** The run as a whole *)

(** C2, as the code has it.  The only configuration the run rejects is a
    population size below 250: the initializer's [ValueError] reaches the
    caller before anything else has happened (the state of the process is
    untouched).  From 250 on the run returns normally, whatever the elitism
    count and the crossover method; a method other than [uniform] is run as
    single-point crossover. *)
Theorem only_population_size_is_validated
    (hash_str : list (option string * option string * option string) -> Z)
    (cfg : Config) (w : World) :
  ((cfg.(population_size) < 250)%Z ->
     run_optimization hash_str cfg w = (Raise ValueError, w))
  /\ ((250 <= cfg.(population_size))%Z ->
        exists res w', run_optimization hash_str cfg w = (Ok res, w'))
  /\ (cfg.(crossover_method) ≠ "uniform"%string ->
        forall rate pairs w1,
          reproduce cfg.(crossover_method) rate pairs w1
          = reproduce "single_point" rate pairs w1).
Proof.
  split_and!.
  - intros Hsize. unfold run_optimization, bind.
    by rewrite create_initial_population_raises.
  - intros Hsize.
    destruct (run_optimization_yields hash_str cfg Hsize w) as (res & w' & Hrun & _).
    by exists res, w'.
  - intros Hne rate pairs w1. unfold reproduce.
    apply String.eqb_neq in Hne. by rewrite Hne.
Qed.

(** C2 fails as stated: with 250 schedules, 250 elites and an unknown
    crossover method the run raises nothing. *)
Lemma unchecked_configuration_runs :
  (unchecked_config.(population_size) <= unchecked_config.(elitism_count))%Z
  /\ unchecked_config.(crossover_method) ≠ "single_point"%string
  /\ unchecked_config.(crossover_method) ≠ "uniform"%string
  /\ exists res w',
       run_optimization sample_hash unchecked_config sample_world = (Ok res, w').
Proof.
  split_and!; try done.
  destruct (run_optimization_yields sample_hash unchecked_config) with (w := sample_world)
    as (res & w' & Hrun & _); [by vm_compute|].
  by exists res, w'.
Qed.

(** C4.  For an accepted configuration the run returns; its history has
    one record per generation run, numbered from 0, with the improvement
    undefined exactly for generation 0; no generation before the last one
    met the plateau condition (generations completed >= minimum, improvement
    defined and < 1); if the run stopped short of the ceiling then the last
    generation met it, hence at least the minimum number of generations
    were run; if the last generation did not meet it the run went to the
    ceiling; and the number of generations never exceeds the ceiling (a
    negative ceiling runs no generation at all). *)
Theorem plateau_rule_stops_the_loop
    (hash_str : list (option string * option string * option string) -> Z)
    (cfg : Config) (w : World) :
  (250 <= cfg.(population_size))%Z ->
  exists res w',
    run_optimization hash_str cfg w = (Ok res, w')
    /\ res.(generations_run) = Z.of_nat (length res.(history))
    /\ (res.(generations_run) <= Z.max 0 cfg.(maximum_generations))%Z
    /\ ((0 <= cfg.(maximum_generations))%Z ->
        (res.(generations_run) <= cfg.(maximum_generations))%Z)
    /\ (forall i rec, res.(history) !! i = Some rec ->
          rec.(generation) = Z.of_nat i /\ (rec.(improvement) = None <-> i = 0%nat))
    /\ (forall i rec, res.(history) !! i = Some rec ->
          (S i < length res.(history))%nat ->
          ~ plateau cfg.(minimum_generations) rec)
    /\ ((res.(generations_run) < Z.max 0 cfg.(maximum_generations))%Z ->
          exists rec,
            last res.(history) = Some rec
            /\ plateau cfg.(minimum_generations) rec
            /\ (cfg.(minimum_generations) <= res.(generations_run))%Z)
    /\ (forall rec, last res.(history) = Some rec ->
          ~ plateau cfg.(minimum_generations) rec ->
          res.(generations_run) = Z.max 0 cfg.(maximum_generations)).
Proof.
  intros Hsize.
  destruct (run_optimization_yields hash_str cfg Hsize w)
    as (res & w' & Hrun & st & Hst & Hhist & _ & Hgens & _).
  exists res, w'. split; [done|].
  destruct (final_state_facts cfg _ st Hst)
    as (_ & Htotal & Hle & Hrecs & Hbefore & Hshort & Hceiling & _).
  rewrite Hhist, Hgens, Htotal.
  split_and!; try done.
  - lia.
  - lia.
  - intros Hlt. destruct Hshort as (rec & Hlast & Hp); [lia|].
    exists rec. split_and!; try done.
    assert (Hin : exists i, st.(generation_history) !! i = Some rec
                            /\ S i = length st.(generation_history)).
    { rewrite last_lookup in Hlast. exists (pred (length (generation_history st))).
      split; [done|]. destruct (generation_history st); [done|]. cbn. lia. }
    destruct Hin as (i & Hi & HSi). destruct (Hrecs i rec Hi) as [Hgen _].
    destruct Hp as [Hmin _]. lia.
  - intros rec Hlast Hnp. rewrite (Hceiling rec Hlast Hnp). lia.
Qed.

(** C7.  For an accepted configuration, whatever the elitism count: the
    initial population has the configured size; a turn of the loop started
    on a population of that size leaves a population of that size (the
    assembly step cuts or pads the elites followed by the offspring); so
    does the loop over any number of generations. *)
Theorem population_size_is_invariant
    (hash_str : list (option string * option string * option string) -> Z)
    (cfg : Config) :
  (250 <= cfg.(population_size))%Z ->
  (forall w, exists population w',
      create_initial_population cfg.(population_size) w = (Ok population, w')
      /\ population_ok cfg population)
  /\ (forall g st w,
        population_ok cfg st.(current_population) ->
        exists stop st' w',
          run_generation hash_str cfg g st w = (Ok (stop, st'), w')
          /\ Z.of_nat (length st'.(current_population)) = cfg.(population_size)
          /\ population_ok cfg st'.(current_population))
  /\ (forall generations st w,
        population_ok cfg st.(current_population) ->
        exists st' w',
          evolution_loop hash_str cfg generations st w = (Ok st', w')
          /\ Z.of_nat (length st'.(current_population)) = cfg.(population_size))
  /\ (forall elite_schedules offspring_schedules,
        length elite_schedules
        = (if (0 <=? cfg.(elitism_count))%Z
           then Nat.min (Z.to_nat cfg.(elitism_count)) (Z.to_nat cfg.(population_size))
           else Z.to_nat (cfg.(population_size) + cfg.(elitism_count))) ->
        length offspring_schedules
        = Z.to_nat (cfg.(population_size) - cfg.(elitism_count)) ->
        Z.of_nat (length (assemble_next_generation cfg.(population_size)
                            elite_schedules offspring_schedules))
        = cfg.(population_size)).
Proof.
  intros Hsize. split_and!.
  - intros w.
    destruct (create_initial_population_yields cfg.(population_size) w Hsize)
      as (population & w' & Hrun & Hok).
    by exists population, w'.
  - intros g st w Hpop.
    destruct (run_generation_step hash_str cfg Hsize g st w Hpop)
      as ([stop st'] & w' & Hrun & Hok & _).
    exists stop, st', w'. split; [done|]. split; [|done]. by destruct Hok.
  - intros generations st w Hpop.
    destruct (evolution_loop_population hash_str cfg Hsize generations st w Hpop)
      as (st' & w' & Hrun & Hok).
    exists st', w'. split; [done|]. by destruct Hok.
  - intros elite offspring Helite Hoff.
    apply (assemble_next_generation_length _ cfg.(elitism_count)); [lia|done..].
Qed.

(** C8.  For an accepted configuration with a non-negative initial
    probability the run returns and its mutation rates (the rate recorded
    for each generation, then the final rate) start at the configured
    probability; from one generation to the next the rate is kept, or it is
    halved, and it is halved only after a generation whose number is
    positive and divisible by 20, with adaptive mutation enabled and an
    improvement that is defined and above 0.1; the rates never increase and
    never become negative. *)
Theorem mutation_rate_only_halves
    (hash_str : list (option string * option string * option string) -> Z)
    (cfg : Config) (w : World) :
  (250 <= cfg.(population_size))%Z ->
  0 <= cfg.(initial_mutation_probability) ->
  exists res w',
    run_optimization hash_str cfg w = (Ok res, w')
    /\ rates res.(history) res.(final_mutation_rate) !! 0%nat
       = Some cfg.(initial_mutation_probability)
    /\ (forall i rec next,
          res.(history) !! i = Some rec ->
          rates res.(history) res.(final_mutation_rate) !! S i = Some next ->
          rec.(generation) = Z.of_nat i
          /\ (next = rec.(mutation_rate)
              \/ (next = rec.(mutation_rate) / 2
                  /\ cfg.(use_adaptive_mutation) = true
                  /\ (0 < rec.(generation))%Z /\ (rec.(generation) mod 20 = 0)%Z
                  /\ exists imp, rec.(improvement) = Some imp /\ 1 # 10 < imp)))
    /\ (forall i j ri rj,
          (i <= j)%nat ->
          rates res.(history) res.(final_mutation_rate) !! i = Some ri ->
          rates res.(history) res.(final_mutation_rate) !! j = Some rj ->
          rj <= ri /\ 0 <= rj).
Proof.
  intros Hsize Hpos.
  destruct (run_optimization_yields hash_str cfg Hsize w)
    as (res & w' & Hrun & st & Hst & Hhist & Hrate & _).
  exists res, w'. split; [done|].
  destruct (final_state_facts cfg _ st Hst)
    as (_ & _ & _ & Hrecs & _ & _ & _ & [Hfirst Hsteps] & Hmono).
  destruct (Hmono Hpos) as [Hdec Hall].
  rewrite Hhist, Hrate. split_and!; try done.
  - intros i rec next Hi Hnext. destruct (Hrecs i rec Hi) as [Hgen _].
    split; [done|]. by apply (Hsteps i rec next).
  - intros i j ri rj Hij Hi Hj. split; [by apply (Hdec i j)|].
    rewrite Forall_forall in Hall. apply list_elem_of_lookup_2 in Hj.
    by destruct (Hall _ Hj).
Qed.

(** ** The memoized evaluator *)








(** ** Softmax weights, in exact arithmetic

    With floating-point numbers [math.exp] underflows to [0.0] and the
    quotients are rounded, so the facts below say what the function
    computes, and what holds of it over the rationals for an exponential
    that is positive everywhere. *)
Section SoftmaxFacts.

Variable exp : Q -> Q.

Lemma softmax_empty : calculate_softmax_probabilities exp [] = [].
Proof. reflexivity. Qed.

Lemma softmax_length (fitness_scores : list Q) :
  length (calculate_softmax_probabilities exp fitness_scores) = length fitness_scores.
Proof.
  destruct fitness_scores as [|x xs]; [done|]. unfold calculate_softmax_probabilities.
  destruct (Qeq_bool _ _); [by rewrite length_replicate|by rewrite !length_map].
Qed.

(** When the shifted exponentials sum to zero the weights are uniform. *)
Lemma softmax_zero_total (x : Q) (xs : list Q) :
  foldl Qplus 0 (map (fun score => exp (score - py_max x xs)) (x :: xs)) == 0 ->
  calculate_softmax_probabilities exp (x :: xs)
  = replicate (length (x :: xs)) (1 / inject_Z (Z.of_nat (length (x :: xs)))).
Proof.
  intros Hzero. unfold calculate_softmax_probabilities.
  by rewrite (proj2 (Qeq_bool_iff _ _) Hzero).
Qed.

Lemma foldl_Qplus_shift (l : list Q) (a : Q) :
  foldl Qplus a l == a + foldl Qplus 0 l.
Proof.
  revert a. induction l as [|y l IH]; intros a; cbn [foldl].
  - ring.
  - rewrite (IH (a + y)), (IH (0 + y)). ring.
Qed.

Lemma foldl_Qplus_positive (l : list Q) :
  l ≠ [] -> Forall (fun y => 0 < y) l -> 0 < foldl Qplus 0 l.
Proof.
  induction l as [|y l IH]; [done|]. intros _ Hall. cbn [foldl].
  apply Forall_cons in Hall as [Hy Hl]. rewrite foldl_Qplus_shift.
  destruct l as [|z l]; [cbn; lra|].
  assert (0 < foldl Qplus 0 (z :: l)) by (by apply IH). lra.
Qed.

Lemma foldl_Qplus_div (l : list Q) (total : Q) :
  ~ total == 0 ->
  foldl Qplus 0 (map (fun score => score / total) l) == foldl Qplus 0 l / total.
Proof.
  intros Hne. induction l as [|y l IH]; cbn [map foldl].
  - by field.
  - rewrite foldl_Qplus_shift, IH, (foldl_Qplus_shift l (0 + y)). by field.
Qed.

Hypothesis exp_positive : forall x, 0 < exp x.

(** Over the rationals, with a positive exponential, the weights of a
    non-empty list are positive and sum to 1. *)
Lemma softmax_exact (x : Q) (xs : list Q) :
  Forall (fun p => 0 < p) (calculate_softmax_probabilities exp (x :: xs))
  /\ foldl Qplus 0 (calculate_softmax_probabilities exp (x :: xs)) == 1.
Proof.
  unfold calculate_softmax_probabilities.
  set (es := map (fun score => exp (score - py_max x xs)) (x :: xs)).
  assert (Hes : Forall (fun y => 0 < y) es).
  { unfold es. apply Forall_forall. intros y Hy.
    apply list_elem_of_fmap in Hy as (s & -> & _). apply exp_positive. }
  assert (Htotal : 0 < foldl Qplus 0 es) by (by apply foldl_Qplus_positive).
  assert (Hne : ~ foldl Qplus 0 es == 0) by lra.
  destruct (Qeq_bool _ _) eqn:E; [by apply Qeq_bool_iff in E|].
  split.
  - apply Forall_forall. intros p Hp. apply list_elem_of_fmap in Hp as (y & -> & Hy).
    rewrite Forall_forall in Hes. apply Qlt_shift_div_l; [done|].
    specialize (Hes _ Hy). lra.
  - rewrite foldl_Qplus_div by done. by field.
Qed.

End SoftmaxFacts.

(** ** The theorems at concrete inputs *)


(** In the sample schedule Lock (2 activities), Banks (1) and Tyler (2) are
    in underload and nobody is in overload. *)
Example sample_load_violations :
  underloaded_facilitators sample_schedule = 3%Z
  /\ overloaded_facilitators sample_schedule = 0%Z
  /\ (vc ← (match count_constraint_violations sample_schedule with
            | Ok vc => Some vc | Raise _ => None end);
      vc !! "facilitator_underload"%string) = Some 3%Z.
Proof. vm_compute. done. Qed.

Lemma single_point_crossover_copies_witness :
  catalog_ordered sample_schedule /\ catalog_ordered sample_moved
  /\ exists child w',
       perform_single_point_crossover sample_schedule sample_moved sample_world
       = (Ok child, w')
       /\ catalog_ordered child
       /\ exists a, child.(_assignments) !! 0%nat = Some ("SLA101A"%string, a)
                    /\ dict_get sample_schedule.(_assignments) "SLA101A" = Some a.
Proof.
  split; [reflexivity|]. split; [reflexivity|].
  destruct (single_point_crossover_copies sample_schedule sample_moved sample_world
              eq_refl eq_refl)
    as (point & child & w' & Hrun & _ & Hcat & _ & (name & a & Hname & Hfirst & Hfrom) & _).
  exists child, w'. split; [exact Hrun|]. split; [exact Hcat|].
  injection Hname as <-. exists a. split; [exact Hfirst|exact Hfrom].
Defined.

Lemma plateau_rule_stops_the_loop_witness :
  (250 <= default_config.(population_size))%Z
  /\ exists res w',
       run_optimization sample_hash default_config sample_world = (Ok res, w')
       /\ res.(generations_run) = Z.of_nat (length res.(history))
       /\ (res.(generations_run) <= 500)%Z.
Proof.
  split; [vm_compute; discriminate|].
  destruct (plateau_rule_stops_the_loop sample_hash default_config sample_world)
    as (res & w' & Hrun & Hlen & Hmax & _); [vm_compute; discriminate|].
  exists res, w'. split; [exact Hrun|]. split; [exact Hlen|exact Hmax].
Defined.

Lemma population_size_is_invariant_witness :
  (250 <= default_config.(population_size))%Z
  /\ exists population w',
       create_initial_population 250 sample_world = (Ok population, w')
       /\ length population = 250%nat.
Proof.
  split; [vm_compute; discriminate|].
  destruct (population_size_is_invariant sample_hash default_config) as (Hinit & _);
    [vm_compute; discriminate|].
  destruct (Hinit sample_world) as (population & w' & Hrun & Hlen & _).
  exists population, w'. split; [exact Hrun|].
  apply Nat2Z.inj. exact Hlen.
Defined.

Lemma mutation_rate_only_halves_witness :
  (250 <= default_config.(population_size))%Z
  /\ 0 <= default_config.(initial_mutation_probability)
  /\ exists res w',
       run_optimization sample_hash default_config sample_world = (Ok res, w')
       /\ rates res.(history) res.(final_mutation_rate) !! 0%nat = Some (1 # 100).
Proof.
  split; [vm_compute; discriminate|]. split; [vm_compute; discriminate|].
  destruct (mutation_rate_only_halves sample_hash default_config sample_world)
    as (res & w' & Hrun & Hfirst & _); [vm_compute; discriminate..|].
  exists res, w'. split; [exact Hrun|exact Hfirst].
Defined.



(** The memoized evaluator on the sample schedule, the moved one, and the
    sample schedule again: the scores are [7/2], [22/5] and [7/2]; the third
    call is answered from the cache. *)
Example sample_memoized_scores :
  (match (for_each (calculate_schedule_fitness sample_hash)
                   [sample_schedule; sample_moved; sample_schedule] sample_world).1 with
   | Ok evaluated => map (fun r : Q * Schedule => Qred r.1) evaluated
   | Raise _ => []
   end) = [7 # 2; 22 # 5; 7 # 2].
Proof. vm_compute. reflexivity. Qed.

(** * Further properties of the package *)

(** ** Time slots and hour differences *)

Lemma time_slot_indices_table :
  _time_slot_indices =
  [("10 AM", 0%Z); ("11 AM", 1%Z); ("12 PM", 2%Z); ("1 PM", 3%Z); ("2 PM", 4%Z);
   ("3 PM", 5%Z)]%string.
Proof. reflexivity. Qed.

Lemma time_slot_index_spec (t : string) (i : Z) :
  dict_get _time_slot_indices t = Some i ->
  (0 <= i <= 5)%Z /\ ALL_TIME_SLOTS !! Z.to_nat i = Some t.
Proof.
  rewrite time_slot_indices_table. cbn [dict_get].
  repeat (destruct (String.eqb _ t) eqn:Heq;
          [apply String.eqb_eq in Heq as <-; intros [= <-]; by split|clear Heq]).
  done.
Qed.

Lemma time_slot_index_known (t : string) :
  t ∈ ALL_TIME_SLOTS -> is_Some (dict_get _time_slot_indices t).
Proof.
  intros Hin. apply list_elem_of_In in Hin. cbn in Hin.
  rewrite time_slot_indices_table.
  repeat (destruct Hin as [<-|Hin]; [by eexists|]). done.
Qed.

(** X1. [_calculate_hour_difference] is symmetric, lies between 0 and 5, is 0
    as soon as one of the two slots is not a slot of the catalog, is 0 for
    two catalog slots only when they are the same slot, and obeys the
    triangle inequality on catalog slots. *)
Theorem hour_difference_is_a_distance (t1 t2 : string) :
  _calculate_hour_difference t1 t2 = _calculate_hour_difference t2 t1
  /\ (0 <= _calculate_hour_difference t1 t2 <= 5)%Z
  /\ (t1 ∉ ALL_TIME_SLOTS \/ t2 ∉ ALL_TIME_SLOTS -> _calculate_hour_difference t1 t2 = 0%Z)
  /\ (t1 ∈ ALL_TIME_SLOTS -> t2 ∈ ALL_TIME_SLOTS ->
      (_calculate_hour_difference t1 t2 = 0%Z <-> t1 = t2))
  /\ (forall t3, t1 ∈ ALL_TIME_SLOTS -> t2 ∈ ALL_TIME_SLOTS -> t3 ∈ ALL_TIME_SLOTS ->
        (_calculate_hour_difference t1 t3
         <= _calculate_hour_difference t1 t2 + _calculate_hour_difference t2 t3)%Z).
Proof.
  unfold _calculate_hour_difference. split; [|split; [|split; [|split]]].
  - destruct (dict_get _time_slot_indices t1), (dict_get _time_slot_indices t2); try done. lia.
  - destruct (dict_get _time_slot_indices t1) as [i|] eqn:E1, (dict_get _time_slot_indices t2) as [j|] eqn:E2; try lia.
    apply time_slot_index_spec in E1 as [? _], E2 as [? _]. lia.
  - intros Hout.
    destruct (dict_get _time_slot_indices t1) as [i|] eqn:E1, (dict_get _time_slot_indices t2) as [j|] eqn:E2; try done.
    apply time_slot_index_spec in E1 as [_ E1], E2 as [_ E2].
    apply list_elem_of_lookup_2 in E1, E2. by destruct Hout.
  - intros H1 H2.
    destruct (time_slot_index_known t1 H1) as [i E1].
    destruct (time_slot_index_known t2 H2) as [j E2]. rewrite E1, E2.
    destruct (time_slot_index_spec _ _ E1) as [? L1].
    destruct (time_slot_index_spec _ _ E2) as [? L2]. split.
    + intros Hd. assert (i = j) as -> by lia. congruence.
    + intros ->. assert (i = j) by congruence. lia.
  - intros t3 H1 H2 H3.
    destruct (time_slot_index_known t1 H1) as [i ->].
    destruct (time_slot_index_known t2 H2) as [j ->].
    destruct (time_slot_index_known t3 H3) as [k ->]. lia.
Qed.

(** ** Room sizes and preferences *)

Lemma activity_definitions_table :
  map (fun entry : string * ActivityInfo => (entry.1, entry.2.(expected_enrollment)))
      ACTIVITY_DEFINITIONS =
  [("SLA101A", 40%Z); ("SLA101B", 35%Z); ("SLA191A", 45%Z); ("SLA191B", 40%Z);
   ("SLA201", 60%Z); ("SLA291", 50%Z); ("SLA303", 25%Z); ("SLA304", 20%Z);
   ("SLA394", 15%Z); ("SLA449", 30%Z); ("SLA451", 90%Z)]%string.
Proof. reflexivity. Qed.

Lemma dict_get_elem {V} (d : list (string * V)) (k : string) (v : V) :
  dict_get d k = Some v -> In (k, v) d.
Proof.
  induction d as [|[k' v'] d IH]; cbn [dict_get]; [done|].
  destruct (String.eqb k' k) eqn:E.
  - intros [= ->]. apply String.eqb_eq in E as ->. by left.
  - intros H. right. by apply IH.
Qed.

(** Every activity of the catalog expects between 15 and 90 students. *)
Lemma expected_enrollment_bounds (name : string) (info : ActivityInfo) :
  dict_get ACTIVITY_DEFINITIONS name = Some info ->
  (15 <= info.(expected_enrollment) <= 90)%Z.
Proof.
  intros H%dict_get_elem. unfold ACTIVITY_DEFINITIONS in H. cbn [In] in H.
  repeat (destruct H as [[= _ <-]|H]; [cbn; lia|]). done.
Qed.

Lemma ratio_above (n : Z) (d : positive) (capacity expected : Z) :
  (0 < expected)%Z ->
  (n # d < inject_Z capacity / inject_Z expected
   <-> (n * expected < Z.pos d * capacity)%Z).
Proof.
  intros Hpos. destruct expected as [|p|p]; try lia.
  unfold Qlt, Qdiv, Qmult, Qinv, inject_Z. cbn. split; nia.
Qed.

(** X2. The room-size score of an activity of the catalog in a named room
    is decided by integer comparisons of the capacity with the expected
    enrollment: too small below it, -0.4 above three times it, -0.2 above
    one and a half times it, +0.3 otherwise; a room that is not in the
    catalog has capacity 0 and is too small; without a room, or for an
    activity outside the catalog, the score is 0.  The division never
    divides by zero. *)
Theorem room_size_score_by_thresholds (activity_name : string) :
  (forall info r,
      dict_get ACTIVITY_DEFINITIONS activity_name = Some info -> r ≠ ""%string ->
      _evaluate_room_size activity_name (Some r)
      = room_size_case (default 0%Z (dict_get ROOMS_WITH_CAPACITIES r))
                       info.(expected_enrollment)
      /\ (dict_get ROOMS_WITH_CAPACITIES r = None ->
          _evaluate_room_size activity_name (Some r) = - (1 # 2)))
  /\ _evaluate_room_size activity_name None = 0
  /\ _evaluate_room_size activity_name (Some ""%string) = 0
  /\ (forall room_name,
        dict_get ACTIVITY_DEFINITIONS activity_name = None ->
        _evaluate_room_size activity_name room_name = 0).
Proof.
  split; [|split; [|split]].
  - intros info r Hinfo Hr.
    pose proof (expected_enrollment_bounds _ _ Hinfo) as Hexp.
    apply String.eqb_neq in Hr.
    assert (Hrule : _evaluate_room_size activity_name (Some r)
                    = room_size_case (default 0%Z (dict_get ROOMS_WITH_CAPACITIES r))
                                     info.(expected_enrollment)).
    { unfold _evaluate_room_size, room_size_case. rewrite Hinfo, Hr.
      set (capacity := default 0%Z (dict_get ROOMS_WITH_CAPACITIES r)).
      set (expected := expected_enrollment info) in *.
      destruct (capacity <? expected)%Z; [done|].
      pose proof (ratio_above 3 1 capacity expected) as H3.
      pose proof (ratio_above 3 2 capacity expected) as H32.
      destruct (Qlt_le_dec 3 _) as [Hlt|Hge].
      - apply H3 in Hlt; [|lia]. by replace (3 * expected <? capacity)%Z with true by lia.
      - replace (3 * expected <? capacity)%Z with false.
        2:{ symmetry. apply Z.ltb_ge. destruct (Z.lt_ge_cases capacity (3 * expected + 1));
              [lia|]. exfalso. apply (Qle_not_lt _ _ Hge), H3; lia. }
        destruct (Qlt_le_dec (3 # 2) _) as [Hlt2|Hge2].
        + apply H32 in Hlt2; [|lia].
          by replace (3 * expected <? 2 * capacity)%Z with true by lia.
        + replace (3 * expected <? 2 * capacity)%Z with false; [done|].
          symmetry. apply Z.ltb_ge.
          destruct (Z.lt_ge_cases (2 * capacity) (3 * expected + 1)); [lia|].
          exfalso. apply (Qle_not_lt _ _ Hge2), H32; lia. }
    split; [done|]. intros Hnone. rewrite Hrule, Hnone. cbn [default from_option].
    unfold room_size_case. by replace (0 <? expected_enrollment info)%Z with true by lia.
  - reflexivity.
  - unfold _evaluate_room_size. by destruct (dict_get ACTIVITY_DEFINITIONS activity_name).
  - intros room_name Hnone. unfold _evaluate_room_size. rewrite Hnone.
    by destruct room_name.
Qed.

(** ** Which schedules can be evaluated *)

Lemma section_spacing_cases (n1 n2 : string) (s : Schedule) :
  match dict_get s.(_assignments) n1, dict_get s.(_assignments) n2 with
  | Some _, Some _ => exists v, _evaluate_section_spacing n1 n2 s = Ok v
  | _, _ => _evaluate_section_spacing n1 n2 s = Raise KeyError
  end.
Proof.
  unfold _evaluate_section_spacing, dict_getitem.
  destruct (dict_get (_assignments s) n1), (dict_get (_assignments s) n2); try done. repeat case_match; by eexists.
Qed.

Lemma cross_section_cases (n1 n2 : string) (s : Schedule) :
  match dict_get s.(_assignments) n1, dict_get s.(_assignments) n2 with
  | Some _, Some _ => exists v, _evaluate_cross_section_interaction n1 n2 s = Ok v
  | _, _ => _evaluate_cross_section_interaction n1 n2 s = Raise KeyError
  end.
Proof.
  unfold _evaluate_cross_section_interaction, dict_getitem.
  destruct (dict_get (_assignments s) n1), (dict_get (_assignments s) n2); try done. repeat case_match; by eexists.
Qed.

Lemma same_time_violation_cases (key : string) (sections : string * string) (s : Schedule)
    (vc : gmap string Z) :
  match dict_get s.(_assignments) sections.1, dict_get s.(_assignments) sections.2 with
  | Some _, Some _ => exists vc', same_time_violation key sections s vc = Ok vc'
  | _, _ => same_time_violation key sections s vc = Raise KeyError
  end.
Proof.
  unfold same_time_violation, dict_getitem.
  destruct (dict_get (_assignments s) sections.1), (dict_get (_assignments s) sections.2); try done.
  repeat case_match; by eexists.
Qed.

Lemma cross_section_violation_cases (s : Schedule) (acc : Res (gmap string Z))
    (pair : string * string) :
  match acc, dict_get s.(_assignments) pair.1, dict_get s.(_assignments) pair.2 with
  | Raise e, _, _ => cross_section_violation s acc pair = Raise e
  | Ok _, Some _, Some _ => exists vc', cross_section_violation s acc pair = Ok vc'
  | Ok _, _, _ => cross_section_violation s acc pair = Raise KeyError
  end.
Proof.
  unfold cross_section_violation, dict_getitem. destruct acc as [vc|e], pair as [n1 n2]; cbn [fst snd].
  - destruct (dict_get (_assignments s) n1), (dict_get (_assignments s) n2); try done. repeat case_match; by eexists.
  - by destruct (dict_get (_assignments s) n1), (dict_get (_assignments s) n2).
Qed.

Lemma sections_present_unfold (s : Schedule) :
  sections_present s <->
  is_Some (dict_get s.(_assignments) "SLA101A")
  /\ is_Some (dict_get s.(_assignments) "SLA101B")
  /\ is_Some (dict_get s.(_assignments) "SLA191A")
  /\ is_Some (dict_get s.(_assignments) "SLA191B").
Proof.
  unfold sections_present, section_names. cbn [SLA101_SECTIONS SLA191_SECTIONS fst snd].
  split.
  - intros H. repeat (apply Forall_cons_1 in H as [? H]). done.
  - intros (? & ? & ? & ?). by repeat constructor.
Qed.

(** X3. The evaluator and the violation counter read the four section
    activities with [schedule.assignments[...]] and nothing else that can
    fail: on a schedule that has the four sections both return, whatever
    other activities it has or lacks; on a schedule that lacks one of them
    both raise KeyError, and the violation counter then stores nothing. *)
Theorem evaluation_needs_the_four_sections (s : Schedule) :
  (sections_present s ->
     (exists v, compute_schedule_fitness s = Ok v)
     /\ (exists vc, calculate_constraint_violations s
                    = Ok (vc, set_violations (Some vc) s)))
  /\ (~ sections_present s ->
     compute_schedule_fitness s = Raise KeyError
     /\ calculate_constraint_violations s = Raise KeyError).
Proof.
  pose proof (section_spacing_cases "SLA101A" "SLA101B" s) as S1.
  pose proof (section_spacing_cases "SLA191A" "SLA191B" s) as S2.
  pose proof (cross_section_cases "SLA101A" "SLA191A" s) as X1.
  pose proof (cross_section_cases "SLA101A" "SLA191B" s) as X2.
  pose proof (cross_section_cases "SLA101B" "SLA191A" s) as X3.
  pose proof (cross_section_cases "SLA101B" "SLA191B" s) as X4.
  pose proof (sections_present_unfold s) as Hsp.
  assert (Hcount : (sections_present s /\ exists vc, count_constraint_violations s = Ok vc)
                   \/ (~ sections_present s
                       /\ count_constraint_violations s = Raise KeyError)).
  { unfold count_constraint_violations. rewrite violation_first_pass_split.
    set (vc4 := count_conflicts "facilitator_same_time_conflict" _ _). clearbody vc4.
    pose proof (same_time_violation_cases "sla101_same_time" SLA101_SECTIONS s vc4) as T1.
    cbn [SLA101_SECTIONS fst snd] in T1. rewrite Hsp. clear Hsp.
    destruct (dict_get (_assignments s) "SLA101A") as [a1|] eqn:E1;
      [|rewrite T1; right; split; [|done]; intros (H & _); by destruct H].
    destruct (dict_get (_assignments s) "SLA101B") as [a2|] eqn:E2;
      [|rewrite T1; right; split; [|done]; intros (_ & H & _); by destruct H].
    destruct T1 as [vc5 ->].
    pose proof (same_time_violation_cases "sla191_same_time" SLA191_SECTIONS s vc5) as T2.
    cbn [SLA191_SECTIONS fst snd] in T2.
    destruct (dict_get (_assignments s) "SLA191A") as [a3|] eqn:E3;
      [|rewrite T2; right; split; [|done]; intros (_ & _ & H & _); by destruct H].
    destruct (dict_get (_assignments s) "SLA191B") as [a4|] eqn:E4;
      [|rewrite T2; right; split; [|done]; intros (_ & _ & _ & H); by destruct H].
    destruct T2 as [vc6 ->]. cbn [foldl CROSS_SECTION_PAIRS].
    pose proof (cross_section_violation_cases s (Ok vc6) ("SLA101A", "SLA191A")%string) as C1.
    cbn [fst snd] in C1. rewrite E1, E3 in C1. destruct C1 as [vc7 ->].
    pose proof (cross_section_violation_cases s (Ok vc7) ("SLA101A", "SLA191B")%string) as C2.
    cbn [fst snd] in C2. rewrite E1, E4 in C2. destruct C2 as [vc8 ->].
    pose proof (cross_section_violation_cases s (Ok vc8) ("SLA101B", "SLA191A")%string) as C3.
    cbn [fst snd] in C3. rewrite E2, E3 in C3. destruct C3 as [vc9 ->].
    pose proof (cross_section_violation_cases s (Ok vc9) ("SLA101B", "SLA191B")%string) as C4.
    cbn [fst snd] in C4. rewrite E2, E4 in C4. destruct C4 as [vc10 ->].
    left. split_and!; by eexists. }
  assert (Hfit : (sections_present s /\ exists v, compute_schedule_fitness s = Ok v)
                 \/ (~ sections_present s /\ compute_schedule_fitness s = Raise KeyError)).
  { unfold compute_schedule_fitness. cbn [SLA101_SECTIONS SLA191_SECTIONS fst snd].
    cbn [foldl CROSS_SECTION_PAIRS].
    set (base := foldl _ 0 _). clearbody base. rewrite Hsp. clear Hsp.
    destruct (dict_get (_assignments s) "SLA101A") as [a1|] eqn:E1;
      [|rewrite S1; cbn; right; split; [|done]; intros (H & _); by destruct H].
    destruct (dict_get (_assignments s) "SLA101B") as [a2|] eqn:E2;
      [|rewrite S1; cbn; right; split; [|done]; intros (_ & H & _); by destruct H].
    destruct S1 as [v1 ->].
    destruct (dict_get (_assignments s) "SLA191A") as [a3|] eqn:E3;
      [|rewrite S2; cbn; right; split; [|done]; intros (_ & _ & H & _); by destruct H].
    destruct (dict_get (_assignments s) "SLA191B") as [a4|] eqn:E4;
      [|rewrite S2; cbn; right; split; [|done]; intros (_ & _ & _ & H); by destruct H].
    destruct S2 as [v2 ->], X1 as [x1 ->], X2 as [x2 ->], X3 as [x3 ->], X4 as [x4 ->].
    cbn [add_res]. left. split_and!; by eexists. }
  unfold calculate_constraint_violations.
  destruct Hcount as [[Hp [vc ->]]|[Hn ->]], Hfit as [[Hp' [v ->]]|[Hn' ->]];
    split; intros H; try tauto; split; by eexists.
Qed.

(** ** The violation dictionary *)

Section CounterInvariant.
Variable P : gmap string Z -> Prop.
Hypothesis P_bump :
  forall key n vc, key ∈ violation_keys -> (1 <= n)%Z -> P vc -> P (bump key n vc).

Lemma room_size_violation_inv item vc : P vc -> P (room_size_violation item vc).
Proof using P_bump.
  intros HP. unfold room_size_violation. destruct item as [activity_name assignment].
  repeat case_match; try done; apply P_bump; try done; try lia;
    apply list_elem_of_In; vm_compute; tauto.
Qed.

Lemma room_size_fold_inv items vc :
  P vc -> P (foldl (fun vc item => room_size_violation item vc) vc items).
Proof using P_bump.
  revert vc. induction items as [|item items IH]; intros vc HP; [done|].
  cbn [foldl]. by apply IH, room_size_violation_inv.
Qed.

Lemma count_conflicts_inv key counts vc :
  key ∈ violation_keys -> P vc -> P (count_conflicts key counts vc).
Proof using P_bump.
  intros Hkey HP. unfold count_conflicts. rewrite map_fold_foldr.
  induction (map_to_list counts) as [|[k c] l IH]; cbn [foldr]; [done|].
  cbn. destruct (Z.ltb_spec 1 c); [|done]. apply P_bump; [done|lia|done].
Qed.

Lemma count_load_violations_inv totals vc : P vc -> P (count_load_violations totals vc).
Proof using P_bump.
  intros HP. unfold count_load_violations. rewrite map_fold_foldr.
  induction (map_to_list totals) as [|[k c] l IH]; cbn [foldr]; [done|].
  cbn. repeat case_match; try done; apply P_bump; try done; try lia;
    apply list_elem_of_In; vm_compute; tauto.
Qed.

Lemma same_time_violation_inv key sections s vc vc' :
  key ∈ violation_keys -> same_time_violation key sections s vc = Ok vc' -> P vc -> P vc'.
Proof using P_bump.
  intros Hkey. unfold same_time_violation.
  repeat case_match; try done; intros [= <-] HP; [|done].
  apply P_bump; [done|lia|done].
Qed.

Lemma cross_section_violation_inv s vc pair vc' :
  cross_section_violation s (Ok vc) pair = Ok vc' -> P vc -> P vc'.
Proof using P_bump.
  unfold cross_section_violation. destruct pair as [n1 n2].
  repeat case_match; try done; intros [= <-] HP; try done;
    repeat (apply P_bump; [apply list_elem_of_In; vm_compute; tauto|lia|]); done.
Qed.

Lemma cross_fold_inv s pairs vc vc' :
  foldl (cross_section_violation s) (Ok vc) pairs = Ok vc' -> P vc -> P vc'.
Proof using P_bump.
  revert vc. induction pairs as [|pair pairs IH]; intros vc; cbn [foldl].
  - by intros [= <-].
  - destruct (cross_section_violation s (Ok vc) pair) as [vc1|e] eqn:E.
    + intros Hrest HP. apply (IH vc1 Hrest). by eapply cross_section_violation_inv.
    + intros Hrest. exfalso. clear -Hrest.
      induction pairs as [|p pairs IH]; cbn [foldl] in Hrest; [done|]. by apply IH.
Qed.

(** Whatever holds of the initial dictionary and is kept by every
    [violation_counts[key] += n] with a key of the dictionary and
    [n >= 1] holds of the result. *)
Lemma count_constraint_violations_inv s vc :
  count_constraint_violations s = Ok vc -> P initial_violation_counts -> P vc.
Proof using P_bump.
  unfold count_constraint_violations. rewrite violation_first_pass_split.
  intros Hrun HP.
  destruct (same_time_violation _ SLA101_SECTIONS _ _) as [vc5|] eqn:E5; [|done].
  destruct (same_time_violation _ SLA191_SECTIONS _ _) as [vc6|] eqn:E6; [|done].
  eapply cross_fold_inv; [exact Hrun|].
  eapply same_time_violation_inv; [|exact E6|]; [apply list_elem_of_In; vm_compute; tauto|].
  eapply same_time_violation_inv; [|exact E5|]; [apply list_elem_of_In; vm_compute; tauto|].
  apply count_conflicts_inv; [apply list_elem_of_In; vm_compute; tauto|].
  apply count_load_violations_inv.
  apply count_conflicts_inv; [apply list_elem_of_In; vm_compute; tauto|].
  by apply room_size_fold_inv.
Qed.
End CounterInvariant.

Lemma counts_ok_initial : counts_ok initial_violation_counts.
Proof.
  split.
  - intros k. unfold initial_violation_counts. rewrite <- elem_of_dom, dom_list_to_map_L.
    rewrite elem_of_list_to_set. done.
  - intros k v Hk. unfold initial_violation_counts in Hk.
    apply elem_of_list_to_map_2, list_elem_of_In in Hk. cbn in Hk.
    repeat (destruct Hk as [[= _ <-]|Hk]; [done|]). done.
Qed.

Lemma counts_ok_bump (key : string) (n : Z) (vc : gmap string Z) :
  key ∈ violation_keys -> (1 <= n)%Z -> counts_ok vc -> counts_ok (bump key n vc).
Proof.
  intros Hkey Hn [Hdom Hpos]. split.
  - intros k. destruct (decide (k = key)) as [->|Hne].
    + rewrite bump_lookup_eq. split; [done|by eexists].
    + rewrite bump_lookup_ne by done. apply Hdom.
  - intros k v. destruct (decide (k = key)) as [->|Hne].
    + rewrite bump_lookup_eq. intros [= <-].
      destruct (vc !! key) as [c|] eqn:E; cbn; [|lia]. specialize (Hpos _ _ E). lia.
    + rewrite bump_lookup_ne by done. apply Hpos.
Qed.

Lemma sections_present_counts (s : Schedule) :
  sections_present s -> exists vc, count_constraint_violations s = Ok vc.
Proof.
  rewrite sections_present_unfold. intros ([a1 E1] & [a2 E2] & [a3 E3] & [a4 E4]).
  unfold count_constraint_violations. rewrite violation_first_pass_split.
  set (vc4 := count_conflicts "facilitator_same_time_conflict" _ _). clearbody vc4.
  pose proof (same_time_violation_cases "sla101_same_time" SLA101_SECTIONS s vc4) as T1.
  cbn [SLA101_SECTIONS fst snd] in T1. rewrite E1, E2 in T1. destruct T1 as [vc5 ->].
  pose proof (same_time_violation_cases "sla191_same_time" SLA191_SECTIONS s vc5) as T2.
  cbn [SLA191_SECTIONS fst snd] in T2. rewrite E3, E4 in T2. destruct T2 as [vc6 ->].
  cbn [foldl CROSS_SECTION_PAIRS].
  pose proof (cross_section_violation_cases s (Ok vc6) ("SLA101A", "SLA191A")%string) as C1.
  cbn [fst snd] in C1. rewrite E1, E3 in C1. destruct C1 as [vc7 ->].
  pose proof (cross_section_violation_cases s (Ok vc7) ("SLA101A", "SLA191B")%string) as C2.
  cbn [fst snd] in C2. rewrite E1, E4 in C2. destruct C2 as [vc8 ->].
  pose proof (cross_section_violation_cases s (Ok vc8) ("SLA101B", "SLA191A")%string) as C3.
  cbn [fst snd] in C3. rewrite E2, E3 in C3. destruct C3 as [vc9 ->].
  pose proof (cross_section_violation_cases s (Ok vc9) ("SLA101B", "SLA191B")%string) as C4.
  cbn [fst snd] in C4. rewrite E2, E4 in C4. destruct C4 as [vc10 ->].
  by eexists.
Qed.

(** X4. On a schedule that has the four section activities the violation
    counter returns a dictionary with exactly the thirteen keys it starts
    from, none of them negative; it stores that dictionary in the schedule
    and changes neither the assignments nor the stored fitness. *)
Theorem violation_dictionary_is_well_formed (s : Schedule) :
  sections_present s ->
  exists vc s',
    calculate_constraint_violations s = Ok (vc, s')
    /\ counts_ok vc
    /\ s'.(_violation_summary) = Some vc
    /\ s'.(_assignments) = s.(_assignments)
    /\ s'.(_fitness_score) = s.(_fitness_score).
Proof.
  intros Hp. destruct (sections_present_counts s Hp) as [vc Hvc].
  exists vc, (set_violations (Some vc) s). unfold calculate_constraint_violations.
  rewrite Hvc. split_and!; try done.
  apply (count_constraint_violations_inv counts_ok counts_ok_bump s vc Hvc counts_ok_initial).
Qed.

Lemma sample_sections_present : sections_present sample_schedule.
Proof. apply sections_present_unfold. split_and!; by eexists. Qed.

Lemma violation_dictionary_is_well_formed_witness :
  sections_present sample_schedule
  /\ exists vc s',
       calculate_constraint_violations sample_schedule = Ok (vc, s')
       /\ counts_ok vc.
Proof.
  split; [exact sample_sections_present|].
  destruct (violation_dictionary_is_well_formed sample_schedule sample_sections_present)
    as (vc & s' & Hrun & Hok & _).
  exists vc, s'. split; [exact Hrun|exact Hok].
Defined.

(** ** The special rules: counters against scores *)

Lemma counter_bump_eq (key : string) (n : Z) (vc : gmap string Z) :
  counter (bump key n vc) key = (counter vc key + n)%Z.
Proof. unfold counter. by rewrite bump_lookup_eq. Qed.

Lemma counter_bump_ne (key key' : string) (n : Z) (vc : gmap string Z) :
  key ≠ key' -> counter (bump key n vc) key' = counter vc key'.
Proof. intros. unfold counter. by rewrite bump_lookup_ne. Qed.

Ltac counters :=
  repeat (rewrite counter_bump_eq || rewrite counter_bump_ne by done).

Lemma cross_pair_agrees (s : Schedule) (vc : gmap string Z) (n1 n2 : string)
    (a1 a2 : ActivityAssignment) :
  dict_get s.(_assignments) n1 = Some a1 -> dict_get s.(_assignments) n2 = Some a2 ->
  exists vc' x da db dc dd,
    cross_section_violation s (Ok vc) (n1, n2) = Ok vc'
    /\ _evaluate_cross_section_interaction n1 n2 s = Ok x
    /\ (forall k, k ∉ cross_keys -> vc' !! k = vc !! k)
    /\ counter vc' "sla101_191_same_time" = (counter vc "sla101_191_same_time" + da)%Z
    /\ counter vc' "sla101_191_consecutive_pair"
       = (counter vc "sla101_191_consecutive_pair" + db)%Z
    /\ counter vc' "sla101_191_one_hour_gap" = (counter vc "sla101_191_one_hour_gap" + dc)%Z
    /\ counter vc' "sla101_191_building_mismatch"
       = (counter vc "sla101_191_building_mismatch" + dd)%Z
    /\ (0 <= da /\ 0 <= db /\ 0 <= dc /\ 0 <= dd /\ da + db + dc <= 1 /\ dd <= db)%Z
    /\ x <= cross_counters_score da db dc dd
    /\ (truthy a1.(room) = true -> truthy a2.(room) = true ->
        x == cross_counters_score da db dc dd).
Proof.
  intros H1 H2. unfold cross_section_violation, _evaluate_cross_section_interaction, dict_getitem.
  rewrite H1, H2.
  assert (Hframe : forall (k : string) key n (m : gmap string Z),
             key ∈ cross_keys -> k ∉ cross_keys -> bump key n m !! k = m !! k).
  { intros k key n m Hkey Hk. apply bump_lookup_ne. by intros ->. }
  repeat case_match; subst;
    eexists _, _, _, _, _, _;
    (split; [reflexivity|]); (split; [reflexivity|]);
    (split; [intros k Hk; rewrite ?Hframe; try done; apply list_elem_of_In; vm_compute; tauto|]);
    counters;
    (split; [first [reflexivity | symmetry; apply Z.add_0_r]|]);
    (split; [first [reflexivity | symmetry; apply Z.add_0_r]|]);
    (split; [first [reflexivity | symmetry; apply Z.add_0_r]|]);
    (split; [first [reflexivity | symmetry; apply Z.add_0_r]|]);
    (split; [lia|]);
    (split; [vm_compute; discriminate|]);
    intros Hr1 Hr2; first [by vm_compute | rewrite Hr1, Hr2 in *; done].
Qed.

Lemma same_time_agrees (key : string) (n1 n2 : string) (s : Schedule) (vc : gmap string Z)
    (a1 a2 : ActivityAssignment) :
  dict_get s.(_assignments) n1 = Some a1 -> dict_get s.(_assignments) n2 = Some a2 ->
  exists vc' d,
    same_time_violation key (n1, n2) s vc = Ok vc'
    /\ (forall k, k ≠ key -> vc' !! k = vc !! k)
    /\ counter vc' key = (counter vc key + d)%Z
    /\ (d = 0 \/ d = 1)%Z
    /\ (d = 1%Z <-> _evaluate_section_spacing n1 n2 s = Ok (- (1 # 2))).
Proof.
  intros H1 H2. unfold same_time_violation, _evaluate_section_spacing, dict_getitem.
  cbn [fst snd]. rewrite H1, H2.
  destruct (truthy (time a1)), (truthy (time a2)), (same_field (time a1) (time a2));
    cbn [negb orb andb]; repeat case_match;
    eexists _, _; (split; [reflexivity|]);
    (split; [intros k Hk; by rewrite ?bump_lookup_ne|]);
    counters;
    (split; [first [reflexivity | symmetry; apply Z.add_0_r]|]);
    (split; [lia|]); split; (done || lia).
Qed.

Lemma counters_before_special_rules (s : Schedule) (k : string) :
  k ∈ cross_keys \/ k = "sla101_same_time"%string \/ k = "sla191_same_time"%string ->
  counter
    (count_conflicts "facilitator_same_time_conflict"
       (collect_usage s.(_assignments)).(facilitator_time_usage)
       (count_load_violations (collect_usage s.(_assignments)).(facilitator_total_load)
          (count_conflicts "room_conflicts"
             (collect_usage s.(_assignments)).(room_time_usage)
             (foldl (fun vc item => room_size_violation item vc) initial_violation_counts
                    s.(_assignments))))) k = 0%Z.
Proof.
  intros Hk.
  assert (Hin : k ∈ ["sla101_191_same_time"; "sla101_191_building_mismatch";
                     "sla101_191_one_hour_gap"; "sla101_191_consecutive_pair";
                     "sla101_same_time"; "sla191_same_time"]%string).
  { destruct Hk as [Hk|[->| ->]]; [|set_solver..].
    apply list_elem_of_In in Hk. apply list_elem_of_In. vm_compute in Hk |- *. tauto. }
  clear Hk. apply list_elem_of_In in Hin. cbn [In] in Hin. unfold counter.
  repeat (destruct Hin as [<-|Hin];
          [rewrite count_conflicts_lookup_ne by done;
           rewrite count_load_violations_lookup_ne by done;
           rewrite count_conflicts_lookup_ne by done;
           rewrite room_size_fold_lookup_ne by done; reflexivity|]).
  done.
Qed.

(** X5. The special-rule counters agree with the special-rule scores.  On a
    schedule with the four section activities: each of the two same-time
    counters is 0 or 1, and is 1 exactly when the evaluator's spacing rule
    gives -0.5; of the four cross pairs each is counted at most once among
    same time, consecutive and one-hour gap; a building mismatch is counted
    only for a consecutive pair; the evaluator's cross-section total is at
    most the value of these four counters (-0.25, +0.5, +0.25, -0.4 each),
    and equals it when the four sections have rooms. *)
Theorem special_rule_counters_match_scores (s : Schedule) :
  sections_present s ->
  exists vc x,
    count_constraint_violations s = Ok vc
    /\ cross_section_total s = Ok x
    /\ (counter vc "sla101_same_time" = 1%Z
        <-> _evaluate_section_spacing "SLA101A" "SLA101B" s = Ok (- (1 # 2)))
    /\ (counter vc "sla191_same_time" = 1%Z
        <-> _evaluate_section_spacing "SLA191A" "SLA191B" s = Ok (- (1 # 2)))
    /\ (0 <= counter vc "sla101_same_time" <= 1)%Z
    /\ (0 <= counter vc "sla191_same_time" <= 1)%Z
    /\ (0 <= counter vc "sla101_191_same_time")%Z
    /\ (0 <= counter vc "sla101_191_one_hour_gap")%Z
    /\ (0 <= counter vc "sla101_191_building_mismatch"
        <= counter vc "sla101_191_consecutive_pair")%Z
    /\ (counter vc "sla101_191_same_time" + counter vc "sla101_191_consecutive_pair"
        + counter vc "sla101_191_one_hour_gap" <= 4)%Z
    /\ x <= cross_counters_score (counter vc "sla101_191_same_time")
                                 (counter vc "sla101_191_consecutive_pair")
                                 (counter vc "sla101_191_one_hour_gap")
                                 (counter vc "sla101_191_building_mismatch")
    /\ (sections_have_rooms s ->
        x == cross_counters_score (counter vc "sla101_191_same_time")
                                  (counter vc "sla101_191_consecutive_pair")
                                  (counter vc "sla101_191_one_hour_gap")
                                  (counter vc "sla101_191_building_mismatch")).
Proof.
  rewrite sections_present_unfold. intros ([a1 E1] & [a2 E2] & [a3 E3] & [a4 E4]).
  unfold count_constraint_violations, cross_section_total.
  rewrite violation_first_pass_split.
  pose proof (counters_before_special_rules s) as H0.
  set (vc4 := count_conflicts "facilitator_same_time_conflict" _ _) in *. clearbody vc4.
  unfold SLA101_SECTIONS, SLA191_SECTIONS.
  destruct (same_time_agrees "sla101_same_time" _ _ s vc4 _ _ E1 E2)
    as (vc5 & e & -> & F5 & K5 & He & He').
  destruct (same_time_agrees "sla191_same_time" _ _ s vc5 _ _ E3 E4)
    as (vc6 & f & -> & F6 & K6 & Hf & Hf').
  cbn [foldl CROSS_SECTION_PAIRS].
  destruct (cross_pair_agrees s vc6 _ _ _ _ E1 E3)
    as (vc7 & x1 & da1 & db1 & dc1 & dd1 & -> & -> & F7 & A7 & B7 & C7 & D7 & R7 & L7 & Q7).
  destruct (cross_pair_agrees s vc7 _ _ _ _ E1 E4)
    as (vc8 & x2 & da2 & db2 & dc2 & dd2 & -> & -> & F8 & A8 & B8 & C8 & D8 & R8 & L8 & Q8).
  destruct (cross_pair_agrees s vc8 _ _ _ _ E2 E3)
    as (vc9 & x3 & da3 & db3 & dc3 & dd3 & -> & -> & F9 & A9 & B9 & C9 & D9 & R9 & L9 & Q9).
  destruct (cross_pair_agrees s vc9 _ _ _ _ E2 E4)
    as (vc10 & x4 & da4 & db4 & dc4 & dd4 & -> & -> & F10 & A10 & B10 & C10 & D10 & R10
        & L10 & Q10).
  cbn [add_res]. eexists _, _. split; [reflexivity|]. split; [reflexivity|].
  assert (Hnc : forall k : string,
             k = "sla101_same_time"%string \/ k = "sla191_same_time"%string -> k ∉ cross_keys).
  { intros k Hk Hc. apply list_elem_of_In in Hc. vm_compute in Hc.
    destruct Hk as [-> | ->]; intuition congruence. }
  assert (Hc : forall k : string, k ∈ cross_keys -> counter vc6 k = 0%Z).
  { intros k Hk. unfold counter. rewrite F6, F5.
    - apply H0. by left.
    - intros ->. eapply Hnc; [|exact Hk]. by left.
    - intros ->. eapply Hnc; [|exact Hk]. by right. }
  assert (H101 : counter vc10 "sla101_same_time" = e).
  { unfold counter in *. rewrite F10, F9, F8, F7, F6 by (try done; apply Hnc; tauto).
    rewrite K5, H0 by tauto. lia. }
  assert (H191 : counter vc10 "sla191_same_time" = f).
  { unfold counter in *. rewrite F10, F9, F8, F7 by (try done; apply Hnc; tauto).
    rewrite K6, F5 by done. rewrite H0 by tauto. lia. }
  rewrite H101, H191, A10, A9, A8, A7, B10, B9, B8, B7, C10, C9, C8, C7, D10, D9, D8, D7.
  rewrite !Hc by (apply list_elem_of_In; vm_compute; tauto).
  assert (Hlin : cross_counters_score (0 + da1 + da2 + da3 + da4) (0 + db1 + db2 + db3 + db4)
                   (0 + dc1 + dc2 + dc3 + dc4) (0 + dd1 + dd2 + dd3 + dd4)
                 == cross_counters_score da1 db1 dc1 dd1 + cross_counters_score da2 db2 dc2 dd2
                    + cross_counters_score da3 db3 dc3 dd3
                    + cross_counters_score da4 db4 dc4 dd4).
  { unfold cross_counters_score. rewrite !inject_Z_plus. change (inject_Z 0) with 0. ring. }
  split; [exact He'|]. split; [exact Hf'|].
  split; [lia|]. split; [lia|]. split; [lia|]. split; [lia|]. split; [lia|]. split; [lia|].
  split.
  - rewrite Hlin. lra.
  - intros Hrooms. rewrite Hlin.
    assert (Hr : forall name a, name ∈ section_names ->
                   dict_get s.(_assignments) name = Some a -> truthy a.(room) = true)
      by exact Hrooms.
    assert (R1 : truthy (room a1) = true)
      by (apply (Hr "SLA101A"%string); [apply list_elem_of_In; vm_compute; tauto|done]).
    assert (R2 : truthy (room a2) = true)
      by (apply (Hr "SLA101B"%string); [apply list_elem_of_In; vm_compute; tauto|done]).
    assert (R3 : truthy (room a3) = true)
      by (apply (Hr "SLA191A"%string); [apply list_elem_of_In; vm_compute; tauto|done]).
    assert (R4 : truthy (room a4) = true)
      by (apply (Hr "SLA191B"%string); [apply list_elem_of_In; vm_compute; tauto|done]).
    rewrite (Q7 R1 R3), (Q8 R1 R4), (Q9 R2 R3), (Q10 R2 R4). ring.
Qed.

Lemma special_rule_counters_match_scores_witness :
  sections_present sample_schedule
  /\ exists vc,
       count_constraint_violations sample_schedule = Ok vc
       /\ (counter vc "sla101_same_time" = 1%Z
           <-> _evaluate_section_spacing "SLA101A" "SLA101B" sample_schedule
               = Ok (- (1 # 2))).
Proof.
  split; [exact sample_sections_present|].
  destruct (special_rule_counters_match_scores sample_schedule sample_sections_present)
    as (vc & x & Hrun & _ & H101 & _).
  exists vc. split; [exact Hrun|exact H101].
Defined.

(** ** Room sizes: counters against scores *)

Lemma str_in_catalog (name : string) :
  str_in name ALL_ACTIVITIES = true <-> is_Some (dict_get ACTIVITY_DEFINITIONS name).
Proof.
  unfold str_in, ALL_ACTIVITIES, dict_keys.
  induction ACTIVITY_DEFINITIONS as [|[k v] d IH]; cbn [map existsb dict_get fst].
  - split; [done|by intros [? ?]].
  - rewrite (String.eqb_sym name k). destruct (String.eqb k name); [|exact IH].
    split; [by eexists|done].
Qed.

Lemma room_size_item_agrees (item : string * ActivityAssignment) (vc : gmap string Z) :
  exists ds d30 d15,
    counter (room_size_violation item vc) "room_too_small"
    = (counter vc "room_too_small" + ds)%Z
    /\ counter (room_size_violation item vc) "room_too_big_30"
       = (counter vc "room_too_big_30" + d30)%Z
    /\ counter (room_size_violation item vc) "room_too_big_15"
       = (counter vc "room_too_big_15" + d15)%Z
    /\ (0 <= ds /\ 0 <= d30 /\ 0 <= d15
        /\ ds + d30 + d15 <= (if has_room_in_catalog item then 1 else 0))%Z
    /\ _evaluate_room_size item.1 item.2.(room)
       == room_counters_score (if has_room_in_catalog item then 1 else 0) ds d30 d15.
Proof.
  destruct item as [name a]. unfold room_size_violation, _evaluate_room_size, has_room_in_catalog.
  cbn [fst snd].
  pose proof (str_in_catalog name) as Hcat.
  destruct (dict_get ACTIVITY_DEFINITIONS name) as [info|] eqn:Hinfo.
  2:{ destruct (str_in name ALL_ACTIVITIES); [by destruct Hcat as [[? ?] _]|].
      rewrite andb_false_r. exists 0%Z, 0%Z, 0%Z. rewrite !Z.add_0_r.
      split_and!; try done. by destruct (room a). }
  replace (str_in name ALL_ACTIVITIES) with true by (symmetry; apply Hcat; by eexists).
  rewrite andb_true_r.
  pose proof (expected_enrollment_bounds _ _ Hinfo) as Hexp.
  destruct (room a) as [r|]; cbn [truthy field_str default from_option id];
    [|exists 0%Z, 0%Z, 0%Z; rewrite !Z.add_0_r; split_and!; done].
  destruct (String.eqb r "") eqn:Hr; cbn [negb];
    [exists 0%Z, 0%Z, 0%Z; rewrite !Z.add_0_r; split_and!; done|].
  set (capacity := from_option id 0%Z (dict_get ROOMS_WITH_CAPACITIES r)).
  destruct (Z.ltb_spec capacity (expected_enrollment info)).
  { exists 1%Z, 0%Z, 0%Z. counters. rewrite !Z.add_0_r. split_and!; done. }
  replace (0 <? capacity)%Z with true by lia.
  replace (0 <? expected_enrollment info)%Z with true by lia. cbn [andb].
  destruct (Qlt_le_dec 3 _).
  { exists 0%Z, 1%Z, 0%Z. counters. rewrite !Z.add_0_r. split_and!; done. }
  destruct (Qlt_le_dec (3 # 2) _).
  { exists 0%Z, 0%Z, 1%Z. counters. rewrite !Z.add_0_r. split_and!; done. }
  exists 0%Z, 0%Z, 0%Z. rewrite !Z.add_0_r. split_and!; done.
Qed.

Lemma room_counters_score_add (r1 s1 b1 c1 r2 s2 b2 c2 : Z) :
  room_counters_score (r1 + r2) (s1 + s2) (b1 + b2) (c1 + c2)
  == room_counters_score r1 s1 b1 c1 + room_counters_score r2 s2 b2 c2.
Proof.
  unfold room_counters_score.
  replace (r1 + r2 - (s1 + s2) - (b1 + b2) - (c1 + c2))%Z
    with ((r1 - s1 - b1 - c1) + (r2 - s2 - b2 - c2))%Z by lia.
  rewrite !inject_Z_plus. ring.
Qed.

Lemma room_size_fold_agrees (items : list (string * ActivityAssignment))
    (vc : gmap string Z) (total : Q) :
  exists ds d30 d15,
    let vc' := foldl (fun vc item => room_size_violation item vc) vc items in
    counter vc' "room_too_small" = (counter vc "room_too_small" + ds)%Z
    /\ counter vc' "room_too_big_30" = (counter vc "room_too_big_30" + d30)%Z
    /\ counter vc' "room_too_big_15" = (counter vc "room_too_big_15" + d15)%Z
    /\ (0 <= ds /\ 0 <= d30 /\ 0 <= d15
        /\ ds + d30 + d15 <= count_where has_room_in_catalog items)%Z
    /\ foldl (fun total (item : string * ActivityAssignment) =>
                total + _evaluate_room_size item.1 item.2.(room)) total items
       == total + room_counters_score (count_where has_room_in_catalog items) ds d30 d15.
Proof.
  revert vc total. induction items as [|item items IH]; intros vc total.
  - exists 0%Z, 0%Z, 0%Z. cbn. rewrite !Z.add_0_r. split_and!; try done.
    unfold room_counters_score. change (count_where has_room_in_catalog []) with 0%Z.
    change (inject_Z (0 - 0 - 0 - 0)) with (inject_Z 0). change (inject_Z 0) with 0. ring.
  - cbn [foldl].
    destruct (room_size_item_agrees item vc) as (s1 & b1 & c1 & Hs1 & Hb1 & Hc1 & R1 & E1).
    destruct (IH (room_size_violation item vc)
                 (total + _evaluate_room_size item.1 item.2.(room)))
      as (s2 & b2 & c2 & Hs2 & Hb2 & Hc2 & R2 & E2).
    cbv zeta in *. exists (s1 + s2)%Z, (b1 + b2)%Z, (c1 + c2)%Z.
    assert (Hcw : count_where has_room_in_catalog (item :: items)
                  = ((if has_room_in_catalog item then 1 else 0)
                     + count_where has_room_in_catalog items)%Z) by reflexivity.
    rewrite Hs2, Hb2, Hc2, Hs1, Hb1, Hc1, E2, E1, Hcw, room_counters_score_add.
    split_and!; try lia. ring.
Qed.

(** The special rules leave every other counter as the second pass left
    it. *)
Lemma special_rules_frame (s : Schedule) :
  sections_present s ->
  exists vc,
    count_constraint_violations s = Ok vc
    /\ forall k : string,
         k ∉ cross_keys -> k ≠ "sla101_same_time"%string -> k ≠ "sla191_same_time"%string ->
         vc !! k =
         count_conflicts "facilitator_same_time_conflict"
           (collect_usage s.(_assignments)).(facilitator_time_usage)
           (count_load_violations (collect_usage s.(_assignments)).(facilitator_total_load)
              (count_conflicts "room_conflicts"
                 (collect_usage s.(_assignments)).(room_time_usage)
                 (foldl (fun vc item => room_size_violation item vc) initial_violation_counts
                        s.(_assignments)))) !! k.
Proof.
  rewrite sections_present_unfold. intros ([a1 E1] & [a2 E2] & [a3 E3] & [a4 E4]).
  unfold count_constraint_violations. rewrite violation_first_pass_split.
  set (vc4 := count_conflicts "facilitator_same_time_conflict" _ _) in *. clearbody vc4.
  unfold SLA101_SECTIONS, SLA191_SECTIONS.
  destruct (same_time_agrees "sla101_same_time" _ _ s vc4 _ _ E1 E2) as (vc5 & e & -> & F5 & _).
  destruct (same_time_agrees "sla191_same_time" _ _ s vc5 _ _ E3 E4) as (vc6 & f & -> & F6 & _).
  cbn [foldl CROSS_SECTION_PAIRS].
  destruct (cross_pair_agrees s vc6 _ _ _ _ E1 E3) as (vc7 & ? & ? & ? & ? & ? & -> & _ & F7 & _).
  destruct (cross_pair_agrees s vc7 _ _ _ _ E1 E4) as (vc8 & ? & ? & ? & ? & ? & -> & _ & F8 & _).
  destruct (cross_pair_agrees s vc8 _ _ _ _ E2 E3) as (vc9 & ? & ? & ? & ? & ? & -> & _ & F9 & _).
  destruct (cross_pair_agrees s vc9 _ _ _ _ E2 E4) as (vc10 & ? & ? & ? & ? & ? & -> & _ & F10 & _).
  exists vc10. split; [done|]. intros k Hk H101 H191.
  by rewrite F10, F9, F8, F7, F6, F5.
Qed.

(** X6. The room-size counters agree with the room-size scores.  On a
    schedule with the four section activities the counters room_too_small,
    room_too_big_30 and room_too_big_15 are not negative, together count at
    most the activities of the catalog that have a room, and determine the
    room-size part of the fitness: -0.5, -0.4 and -0.2 for each activity
    counted, +0.3 for each other activity of the catalog with a room. *)
Theorem room_size_counters_match_scores (s : Schedule) :
  sections_present s ->
  exists vc,
    count_constraint_violations s = Ok vc
    /\ (0 <= counter vc "room_too_small")%Z
    /\ (0 <= counter vc "room_too_big_30")%Z
    /\ (0 <= counter vc "room_too_big_15")%Z
    /\ (counter vc "room_too_small" + counter vc "room_too_big_30"
        + counter vc "room_too_big_15" <= count_where has_room_in_catalog s.(_assignments))%Z
    /\ room_size_total s
       == room_counters_score (count_where has_room_in_catalog s.(_assignments))
            (counter vc "room_too_small") (counter vc "room_too_big_30")
            (counter vc "room_too_big_15").
Proof.
  intros Hp. destruct (special_rules_frame s Hp) as (vc & Hrun & Hframe).
  exists vc. split; [exact Hrun|].
  destruct (room_size_fold_agrees s.(_assignments) initial_violation_counts 0)
    as (ds & d30 & d15 & Hs & H30 & H15 & Hr & Htotal).
  cbv zeta in *.
  assert (Hk : forall k : string,
             k ∈ ["room_too_small"; "room_too_big_30"; "room_too_big_15"]%string ->
             counter vc k
             = counter (foldl (fun vc item => room_size_violation item vc)
                              initial_violation_counts s.(_assignments)) k).
  { intros k Hin. unfold counter. rewrite Hframe.
    - apply list_elem_of_In in Hin. cbn [In] in Hin.
      repeat (destruct Hin as [<-|Hin];
              [rewrite count_conflicts_lookup_ne by done;
               rewrite count_load_violations_lookup_ne by done;
               rewrite count_conflicts_lookup_ne by done; reflexivity|]).
      done.
    - intros Hc. apply list_elem_of_In in Hin, Hc. vm_compute in Hin, Hc.
      intuition congruence.
    - intros ->. apply list_elem_of_In in Hin. vm_compute in Hin. intuition congruence.
    - intros ->. apply list_elem_of_In in Hin. vm_compute in Hin. intuition congruence. }
  rewrite !Hk by (apply list_elem_of_In; vm_compute; tauto). rewrite Hs, H30, H15.
  change (counter initial_violation_counts "room_too_small") with 0%Z.
  change (counter initial_violation_counts "room_too_big_30") with 0%Z.
  change (counter initial_violation_counts "room_too_big_15") with 0%Z.
  rewrite !Z.add_0_l. unfold room_size_total. rewrite Htotal.
  split_and!; try lia. ring.
Qed.

Lemma room_size_counters_match_scores_witness :
  sections_present sample_schedule
  /\ exists vc,
       count_constraint_violations sample_schedule = Ok vc
       /\ room_size_total sample_schedule
          == room_counters_score (count_where has_room_in_catalog sample_schedule.(_assignments))
               (counter vc "room_too_small") (counter vc "room_too_big_30")
               (counter vc "room_too_big_15").
Proof.
  split; [exact sample_sections_present|].
  destruct (room_size_counters_match_scores sample_schedule sample_sections_present)
    as (vc & Hrun & _ & _ & _ & _ & Htotal).
  exists vc. split; [exact Hrun|exact Htotal].
Defined.

(** ** Conflicts: counters against penalties *)
















(** ** Bounds on the fitness *)

Lemma room_size_bounds (activity_name : string) (room_name : option string) :
  - (1 # 2) <= _evaluate_room_size activity_name room_name <= 3 # 10.
Proof. unfold _evaluate_room_size. repeat case_match; split; by vm_compute. Qed.

Lemma facilitator_preference_bounds (activity_name : string) (fac : option string) :
  - (1 # 10) <= _evaluate_facilitator_preference activity_name fac <= 1 # 2.
Proof. unfold _evaluate_facilitator_preference. repeat case_match; split; by vm_compute. Qed.

Lemma room_conflict_step_bounds (u : Usage) (a : ActivityAssignment) (x : Q) :
  x - (1 # 2) <= room_conflict_step u a x <= x.
Proof. unfold room_conflict_step. repeat case_match; lra. Qed.

Lemma facilitator_time_step_bounds (u : Usage) (a : ActivityAssignment) (x : Q) :
  x - (1 # 5) <= facilitator_time_step u a x <= x + (1 # 5).
Proof. unfold facilitator_time_step. repeat case_match; lra. Qed.

Lemma facilitator_load_step_bounds (u : Usage) (a : ActivityAssignment) (x : Q) :
  x - (1 # 2) <= facilitator_load_step u a x <= x.
Proof. unfold facilitator_load_step. repeat case_match; lra. Qed.

Lemma activity_score_bounds (u : Usage) (item : string * ActivityAssignment) :
  - (9 # 5) <= activity_score u item <= 1.
Proof.
  destruct item as [activity_name a]. unfold activity_score.
  pose proof (room_size_bounds activity_name a.(room)).
  pose proof (facilitator_preference_bounds activity_name a.(facilitator)).
  set (x1 := 0 + _evaluate_room_size activity_name (room a)
             + _evaluate_facilitator_preference activity_name (facilitator a)).
  pose proof (room_conflict_step_bounds u a x1).
  pose proof (facilitator_time_step_bounds u a (room_conflict_step u a x1)).
  pose proof (facilitator_load_step_bounds u a
                (facilitator_time_step u a (room_conflict_step u a x1))).
  unfold x1 in *. lra.
Qed.

Lemma activity_scores_bounds (u : Usage) (items : list (string * ActivityAssignment))
    (total : Q) :
  total - (9 # 5) * inject_Z (Z.of_nat (length items))
  <= foldl (fun total item => total + activity_score u item) total items
  <= total + inject_Z (Z.of_nat (length items)).
Proof.
  revert total. induction items as [|item items IH]; intros total.
  - cbn [foldl length]. change (inject_Z (Z.of_nat 0)) with 0. lra.
  - cbn [foldl length]. rewrite Nat2Z.inj_succ. unfold Z.succ. rewrite inject_Z_plus.
    pose proof (activity_score_bounds u item).
    pose proof (IH (total + activity_score u item)).
    change (inject_Z 1) with 1. lra.
Qed.

Lemma section_spacing_bounds (n1 n2 : string) (s : Schedule) (v : Q) :
  _evaluate_section_spacing n1 n2 s = Ok v -> - (1 # 2) <= v <= 1 # 2.
Proof.
  unfold _evaluate_section_spacing. repeat case_match; try done; intros [= <-]; by vm_compute.
Qed.

Lemma cross_section_bounds (n1 n2 : string) (s : Schedule) (v : Q) :
  _evaluate_cross_section_interaction n1 n2 s = Ok v -> - (1 # 4) <= v <= 1 # 2.
Proof.
  unfold _evaluate_cross_section_interaction.
  repeat case_match; try done; intros [= <-]; by vm_compute.
Qed.

(** X8. The fitness is bounded by the number of activities.  On a schedule
    with the four section activities and [n] activities in all the
    evaluator returns a score between [-(9/5) n - 2] and [n + 3]: every
    activity contributes between -1.8 and +1, the two spacing rules between
    -0.5 and +0.5 each, the four cross pairs between -0.25 and +0.5 each.
    For the eleven activities of the catalog this is -21.8 to 14. *)
Theorem fitness_is_bounded (s : Schedule) :
  sections_present s ->
  exists v,
    compute_schedule_fitness s = Ok v
    /\ - (9 # 5) * inject_Z (Z.of_nat (length s.(_assignments))) - 2 <= v
    /\ v <= inject_Z (Z.of_nat (length s.(_assignments))) + 3
    /\ (catalog_ordered s -> - (109 # 5) <= v <= 14).
Proof.
  rewrite sections_present_unfold. intros ([a1 E1] & [a2 E2] & [a3 E3] & [a4 E4]).
  pose proof (section_spacing_cases "SLA101A" "SLA101B" s) as S1.
  pose proof (section_spacing_cases "SLA191A" "SLA191B" s) as S2.
  pose proof (cross_section_cases "SLA101A" "SLA191A" s) as X1.
  pose proof (cross_section_cases "SLA101A" "SLA191B" s) as X2.
  pose proof (cross_section_cases "SLA101B" "SLA191A" s) as X3.
  pose proof (cross_section_cases "SLA101B" "SLA191B" s) as X4.
  rewrite E1, E2 in S1. rewrite E3, E4 in S2. rewrite E1, E3 in X1. rewrite E1, E4 in X2.
  rewrite E2, E3 in X3. rewrite E2, E4 in X4.
  destruct S1 as [v1 S1], S2 as [v2 S2], X1 as [x1 X1], X2 as [x2 X2], X3 as [x3 X3],
    X4 as [x4 X4].
  unfold compute_schedule_fitness. cbn [SLA101_SECTIONS SLA191_SECTIONS fst snd].
  cbn [foldl CROSS_SECTION_PAIRS]. rewrite S1, S2, X1, X2, X3, X4. cbn [add_res].
  eexists. split; [reflexivity|].
  pose proof (activity_scores_bounds (collect_usage s.(_assignments)) s.(_assignments) 0) as Hb.
  pose proof (section_spacing_bounds _ _ _ _ S1).
  pose proof (section_spacing_bounds _ _ _ _ S2).
  pose proof (cross_section_bounds _ _ _ _ X1).
  pose proof (cross_section_bounds _ _ _ _ X2).
  pose proof (cross_section_bounds _ _ _ _ X3).
  pose proof (cross_section_bounds _ _ _ _ X4).
  set (base := foldl _ 0 _) in *. clearbody base.
  split; [lra|]. split; [lra|].
  intros Hcat.
  assert (Hlen : length s.(_assignments) = 11%nat).
  { unfold catalog_ordered, dict_keys in Hcat.
    rewrite <- (length_map fst), Hcat. reflexivity. }
  rewrite Hlen in Hb. change (inject_Z (Z.of_nat 11)) with 11 in Hb. lra.
Qed.

Lemma fitness_is_bounded_witness :
  sections_present sample_schedule
  /\ exists v, compute_schedule_fitness sample_schedule = Ok v /\ - (109 # 5) <= v <= 14.
Proof.
  split; [exact sample_sections_present|].
  destruct (fitness_is_bounded sample_schedule sample_sections_present)
    as (v & Hrun & _ & _ & Hcat).
  exists v. split; [exact Hrun|]. apply Hcat. reflexivity.
Defined.

(** ** The random module, with the number of draws *)

Lemma advance_advance (n m : nat) (w : World) : advance n (advance m w) = advance (n + m) w.
Proof. unfold advance. cbn. f_equal. lia. Qed.

Lemma advance_0 (w : World) : advance 0 w = w.
Proof. by destruct w. Qed.

Lemma random_random_run (w : World) :
  exists u, random_random w = (Ok u, advance 1 w) /\ 0 <= u /\ u < 1.
Proof.
  unfold random_random, bind, next_draw, ret. eexists. split; [reflexivity|].
  set (k := random_source w (draws_used w)).
  assert (k mod N.pos two_53 < N.pos two_53)%N by (by apply N.mod_lt).
  set (m := (k mod N.pos two_53)%N) in *. clearbody m.
  unfold Qle, Qlt. cbn [Qnum Qden]. lia.
Qed.

Lemma random_choice_run {A} (seq : list A) (w : World) :
  seq ≠ [] -> exists x, random_choice seq w = (Ok x, advance 1 w) /\ x ∈ seq.
Proof.
  intros Hne. destruct seq as [|x0 seq]; [done|]. unfold random_choice, bind, next_draw, ret.
  eexists. split; [reflexivity|].
  apply list_elem_of_In, nth_In.
  assert (N.of_nat (length (x0 :: seq)) ≠ 0%N) by (simpl; lia).
  pose proof (N.mod_lt (random_source w (draws_used w)) _ H). lia.
Qed.

Lemma random_randint_run (a b : Z) (w : World) :
  (a <= b)%Z -> exists x, random_randint a b w = (Ok x, advance 1 w) /\ (a <= x <= b)%Z.
Proof.
  intros Hab. unfold random_randint. replace (b <? a)%Z with false by lia.
  unfold bind, next_draw, ret. eexists. split; [reflexivity|].
  pose proof (Z.mod_pos_bound (Z.of_N (random_source w (draws_used w))) (b - a + 1)). lia.
Qed.

(** ** Mutation *)

Ltac draw_step :=
  match goal with
  | |- context [random_random ?w] =>
      let u := fresh "u" in
      let E := fresh "E" in
      destruct (random_random_run w) as (u & E & ? & ?); rewrite E; clear E; cbv beta iota;
      destruct (Qlt_le_dec u _)
  | |- context [random_choice ?l ?w] =>
      let x := fresh "x" in
      let E := fresh "E" in
      destruct (random_choice_run l w) as (x & E & ?); [done|]; rewrite E; clear E;
      cbv beta iota
  end.

Lemma mutate_assignment_run (p : Q) (item : string * ActivityAssignment) (w : World) :
  exists item' k,
    mutate_assignment p item w = (Ok item', advance k w)
    /\ (3 <= k <= 6)%nat
    /\ item'.1 = item.1
    /\ kept_or_drawn (dict_keys ROOMS_WITH_CAPACITIES) item.2.(room) item'.2.(room)
    /\ kept_or_drawn ALL_TIME_SLOTS item.2.(time) item'.2.(time)
    /\ kept_or_drawn ALL_FACILITATORS item.2.(facilitator) item'.2.(facilitator)
    /\ (p <= 0 -> item' = item /\ k = 3%nat)
    /\ (1 <= p -> from_catalog item'.2 /\ k = 6%nat).
Proof.
  destruct item as [name [r t f]]. unfold mutate_assignment, bind, ret.
  repeat draw_step; rewrite ?advance_advance; cbn [Nat.add];
    eexists _, _; (split; [reflexivity|]); cbn [fst snd room time facilitator];
    (split; [lia|]); (split; [reflexivity|]);
    (split; [first [by left | right; eexists; by split]|]);
    (split; [first [by left | right; eexists; by split]|]);
    (split; [first [by left | right; eexists; by split]|]);
    (split; [intros Hp; first [done | exfalso; lra]|]);
    intros Hp; first [exfalso; lra | split; [|done]; eexists _, _, _; by split_and!].
Qed.

(** A loop whose rounds each make between [lo] and [hi] draws and do
    nothing else to the process. *)
Lemma for_each_run {A B} (f : A -> M B) (R : A -> B -> Prop) (lo hi : nat)
    (xs : list A) (w : World) :
  (forall x w, x ∈ xs ->
     exists y k, f x w = (Ok y, advance k w) /\ (lo <= k <= hi)%nat /\ R x y) ->
  exists ys k,
    for_each f xs w = (Ok ys, advance k w)
    /\ (lo * length xs <= k <= hi * length xs)%nat
    /\ Forall2 R xs ys.
Proof.
  revert w. induction xs as [|x xs IH]; intros w Hf.
  - exists [], 0%nat. cbn [for_each]. unfold ret. rewrite advance_0.
    split; [done|]. split; [cbn; lia|constructor].
  - cbn [for_each]. unfold bind.
    destruct (Hf x w) as (y & k1 & -> & Hk1 & HR); [by left|].
    destruct (IH (advance k1 w)) as (ys & k2 & -> & Hk2 & HRs).
    { intros x' w' Hx'. apply Hf. by right. }
    exists (y :: ys), (k2 + k1)%nat. unfold ret. rewrite advance_advance.
    split; [done|]. split; [cbn [length]; lia|by constructor].
Qed.

(** X9. [apply_mutation] never fails and never touches the fitness cache.
    It keeps the activities and their order; every field of the result is
    the old field or a value drawn from the catalog, so a fully assigned
    schedule stays fully assigned; it makes between 3 and 6 draws per
    activity.  With a probability of 0 or less nothing is changed (3 draws
    per activity are still made), with a probability of 1 or more every
    field is drawn anew (6 draws per activity). *)
Theorem mutation_stays_within_the_catalog (s : Schedule) (p : Q) (w : World) :
  exists s' k,
    apply_mutation s p w = (Ok s', advance k w)
    /\ (3 * length s.(_assignments) <= k <= 6 * length s.(_assignments))%nat
    /\ Forall2 (fun old new : string * ActivityAssignment =>
                  new.1 = old.1
                  /\ kept_or_drawn (dict_keys ROOMS_WITH_CAPACITIES) old.2.(room) new.2.(room)
                  /\ kept_or_drawn ALL_TIME_SLOTS old.2.(time) new.2.(time)
                  /\ kept_or_drawn ALL_FACILITATORS old.2.(facilitator) new.2.(facilitator))
               s.(_assignments) s'.(_assignments)
    /\ (fully_assigned s -> fully_assigned s')
    /\ (p <= 0 ->
        s'.(_assignments) = s.(_assignments) /\ k = (3 * length s.(_assignments))%nat)
    /\ (1 <= p ->
        Forall (fun item => from_catalog item.2) s'.(_assignments)
        /\ k = (6 * length s.(_assignments))%nat).
Proof.
  unfold apply_mutation, bind.
  destruct (for_each_run (mutate_assignment p)
              (fun old new : string * ActivityAssignment =>
                 new.1 = old.1
                 /\ kept_or_drawn (dict_keys ROOMS_WITH_CAPACITIES) old.2.(room) new.2.(room)
                 /\ kept_or_drawn ALL_TIME_SLOTS old.2.(time) new.2.(time)
                 /\ kept_or_drawn ALL_FACILITATORS old.2.(facilitator) new.2.(facilitator))
              3 6 s.(_assignments) w) as (ys & k & Hrun & Hk & HF).
  { intros item w0 _.
    destruct (mutate_assignment_run p item w0) as (item' & k & E & Hk & H1 & H2 & H3 & H4 & _).
    by exists item', k. }
  rewrite Hrun. exists (set_fitness None (mkSchedule ys s.(_fitness_score)
                                                   s.(_violation_summary))), k.
  unfold set_fitness. cbn [_assignments _fitness_score _violation_summary]. unfold ret.
  split; [done|]. split; [done|]. split; [done|]. split; [|split].
  - intros [Hcat Hfull]. split.
    + unfold catalog_ordered, dict_keys in *. cbn [_assignments]. rewrite <- Hcat.
      clear -HF. induction HF as [|old new olds news (H1 & _) _ IH]; [done|].
      cbn [map]. by rewrite H1, IH.
    + cbn [_assignments]. clear -HF Hfull.
      induction HF as [|old new olds news (_ & Hr & Ht & Hf) _ IH]; [constructor|].
      apply Forall_cons_1 in Hfull as [(r & t & f & Ha & Hrc & Htc & Hfc) Hfull].
      constructor; [|by apply IH].
      rewrite Ha in Hr, Ht, Hf. cbn [room time facilitator] in Hr, Ht, Hf.
      destruct new as [name [r' t' f']]. cbn [snd room time facilitator] in *.
      assert (exists x, r' = Some x /\ x ∈ dict_keys ROOMS_WITH_CAPACITIES) as (xr & -> & ?).
      { destruct Hr as [->|(x & ? & ->)]; by eexists. }
      assert (exists x, t' = Some x /\ x ∈ ALL_TIME_SLOTS) as (xt & -> & ?).
      { destruct Ht as [->|(x & ? & ->)]; by eexists. }
      assert (exists x, f' = Some x /\ x ∈ ALL_FACILITATORS) as (xf & -> & ?).
      { destruct Hf as [->|(x & ? & ->)]; by eexists. }
      by exists xr, xt, xf.
  - intros Hp.
    destruct (for_each_run (mutate_assignment p) (fun old new => new = old)
                3 3 s.(_assignments) w) as (ys' & k' & Hrun' & Hk' & HF').
    { intros item w0 _.
      destruct (mutate_assignment_run p item w0) as (item' & k0 & E & _ & _ & _ & _ & _ & H0 & _).
      destruct (H0 Hp) as [-> ->]. by exists item, 3%nat. }
    rewrite Hrun in Hrun'. injection Hrun' as <- Hw. assert (k' = k) as -> by lia.
    split; [|lia]. clear -HF'. induction HF' as [|? ? ? ? -> _ IH]; [done|]. by rewrite IH.
  - intros Hp.
    destruct (for_each_run (mutate_assignment p)
                (fun _ new : string * ActivityAssignment => from_catalog new.2)
                6 6 s.(_assignments) w) as (ys' & k' & Hrun' & Hk' & HF').
    { intros item w0 _.
      destruct (mutate_assignment_run p item w0) as (item' & k0 & E & _ & _ & _ & _ & _ & _ & H1).
      destruct (H1 Hp) as [Hc ->]. by exists item', 6%nat. }
    rewrite Hrun in Hrun'. injection Hrun' as <- Hw. assert (k' = k) as -> by lia.
    split; [|lia]. clear -HF'. induction HF' as [|? ? ? ? Hc _ IH]; by constructor.
Qed.

(** ** Crossover *)

Lemma dict_get_later {V} (k : string) (v : V) (d : list (string * V)) (name : string) :
  name ≠ k -> dict_get ((k, v) :: d) name = dict_get d name.
Proof. intros Hne. cbn [dict_get]. by rewrite (proj2 (String.eqb_neq k name)). Qed.

Lemma Forall2_dict_get_later {V} (k : string) (v : V) (d : list (string * V))
    (names : list string) (items : list (string * V)) :
  k ∉ names ->
  Forall2 (fun name (item : string * V) =>
             item.1 = name /\ dict_get ((k, v) :: d) name = Some item.2) names items ->
  Forall2 (fun name (item : string * V) => item.1 = name /\ dict_get d name = Some item.2)
          names items.
Proof.
  intros Hk HF. induction HF as [|name item names items [H1 H2] _ IH]; [constructor|].
  apply not_elem_of_cons in Hk as [Hne Hk].
  constructor; [|by apply IH]. split; [done|]. by rewrite dict_get_later in H2.
Qed.

(** A dictionary is determined by its keys, in order, and the value of
    each key. *)
Lemma dict_rebuild {V} (d items : list (string * V)) :
  NoDup (dict_keys d) ->
  Forall2 (fun name (item : string * V) => item.1 = name /\ dict_get d name = Some item.2)
          (dict_keys d) items ->
  items = d.
Proof.
  revert items. induction d as [|[k v] d IH]; intros items Hnd HF.
  - by inversion HF.
  - unfold dict_keys in *. cbn [map fst] in *.
    apply NoDup_cons in Hnd as [Hk Hnd].
    inversion HF as [|? [k' v'] ? items' [Hk' Hv'] HF' ]. cbn [fst snd] in Hk', Hv'.
    subst. cbn [dict_get] in Hv'. rewrite String.eqb_refl in Hv'. injection Hv' as <-.
    f_equal. apply IH; [done|]. by eapply Forall2_dict_get_later.
Qed.

Lemma ALL_ACTIVITIES_NoDup : NoDup ALL_ACTIVITIES.
Proof. apply NoDup_ListNoDup. repeat constructor; cbn; intuition congruence. Qed.

Lemma copy_from_run (parent : Schedule) (name : string) :
  catalog_ordered parent -> name ∈ ALL_ACTIVITIES ->
  exists a, copy_from parent name = Ok (name, a)
            /\ dict_get parent.(_assignments) name = Some a
            /\ (name, a) ∈ parent.(_assignments).
Proof.
  intros Hcat Hin. destruct (copy_from_spec parent name Hcat Hin) as (a & Hc & Hg).
  exists a. split; [done|]. split; [done|]. by apply dict_get_elem_of.
Qed.

(** X10. [perform_uniform_crossover] on two parents over the catalog never
    fails, makes exactly one draw per activity and returns a fresh schedule
    over the catalog, without fitness or violations, in which every
    activity has the fields the same activity has in one of the parents.
    With a probability of 0 or less the child is a copy of the first
    parent, with 1 or more a copy of the second; parents with the same
    assignments give a child with those assignments; fully assigned
    parents give a fully assigned child. *)
Theorem uniform_crossover_takes_each_activity_from_a_parent
    (parent_1 parent_2 : Schedule) (crossover_probability : Q) (w : World) :
  catalog_ordered parent_1 -> catalog_ordered parent_2 ->
  exists child,
    perform_uniform_crossover parent_1 parent_2 crossover_probability w
    = (Ok child, advance (length ALL_ACTIVITIES) w)
    /\ catalog_ordered child
    /\ child.(_fitness_score) = None /\ child.(_violation_summary) = None
    /\ (forall name a,
          dict_get child.(_assignments) name = Some a ->
          dict_get parent_1.(_assignments) name = Some a
          \/ dict_get parent_2.(_assignments) name = Some a)
    /\ (crossover_probability <= 0 -> child.(_assignments) = parent_1.(_assignments))
    /\ (1 <= crossover_probability -> child.(_assignments) = parent_2.(_assignments))
    /\ (parent_1.(_assignments) = parent_2.(_assignments) ->
        child.(_assignments) = parent_1.(_assignments))
    /\ (fully_assigned parent_1 -> fully_assigned parent_2 -> fully_assigned child).
Proof.
  intros Hc1 Hc2. unfold perform_uniform_crossover.
  set (q := crossover_probability).
  destruct (for_each_run
              (fun activity_name =>
                 u <- random_random ;;
                 if Qlt_le_dec u q then lift_res (copy_from parent_2 activity_name)
                 else lift_res (copy_from parent_1 activity_name))
              (fun name (item : string * ActivityAssignment) =>
                 item.1 = name
                 /\ ((dict_get parent_1.(_assignments) name = Some item.2 /\ ~ 1 <= q)
                     \/ (dict_get parent_2.(_assignments) name = Some item.2 /\ ~ q <= 0)))
              1 1 ALL_ACTIVITIES w) as (items & k & Hrun & Hk & HF).
  { intros name w0 Hin. unfold bind.
    destruct (random_random_run w0) as (u & -> & Hu0 & Hu1).
    destruct (copy_from_run parent_1 name Hc1 Hin) as (a1 & E1 & G1 & _).
    destruct (copy_from_run parent_2 name Hc2 Hin) as (a2 & E2 & G2 & _).
    destruct (Qlt_le_dec u q); unfold lift_res; rewrite ?E1, ?E2; eexists _, 1%nat;
      (split; [reflexivity|]); (split; [lia|]); (split; [reflexivity|]); cbn [snd].
    - right. split; [done|]. lra.
    - left. split; [done|]. lra. }
  assert (k = length ALL_ACTIVITIES) as -> by lia.
  unfold bind at 1. rewrite Hrun. unfold ret. eexists. split; [reflexivity|].
  cbn [Schedule_init _assignments _fitness_score _violation_summary].
  assert (Hkeys : dict_keys items = ALL_ACTIVITIES).
  { unfold dict_keys. apply Forall2_names. eapply Forall2_impl; [exact HF|]. by intros ? ? [? _]. }
  assert (Hfrom : forall parent : Schedule,
             catalog_ordered parent ->
             Forall2 (fun name (item : string * ActivityAssignment) =>
                        item.1 = name /\ dict_get parent.(_assignments) name = Some item.2)
                     ALL_ACTIVITIES items ->
             items = parent.(_assignments)).
  { intros parent Hcat HFp. apply dict_rebuild.
    - rewrite Hcat. apply ALL_ACTIVITIES_NoDup.
    - by rewrite Hcat. }
  split; [exact Hkeys|]. split; [done|]. split; [done|]. split_and!.
  - intros name a Hg.
    assert (Hname : name ∈ ALL_ACTIVITIES).
    { rewrite <- Hkeys. unfold dict_keys. apply list_elem_of_fmap.
      exists (name, a). split; [done|]. by apply dict_get_elem_of. }
    apply dict_get_elem_of, list_elem_of_lookup_1 in Hg as [i Hi].
    destruct (Forall2_lookup_r _ _ _ _ _ HF Hi) as (name' & Hn & Hname' & Hor).
    cbn [fst snd] in *. subst name'. destruct Hor as [[? _]|[? _]]; auto.
  - intros Hq. apply Hfrom; [done|]. eapply Forall2_impl; [exact HF|].
    intros name item [Hn [[? _]|[_ Hno]]]; [done|]. by destruct Hno.
  - intros Hq. apply Hfrom; [done|]. eapply Forall2_impl; [exact HF|].
    intros name item [Hn [[_ Hno]|[? _]]]; [|done]. by destruct Hno.
  - intros Hsame. apply Hfrom; [done|]. eapply Forall2_impl; [exact HF|].
    intros name item [Hn [[? _]|[? _]]]; [done|]. by rewrite Hsame.
  - intros [_ Hf1] [_ Hf2]. split; [exact Hkeys|].
    rewrite Forall_forall in Hf1, Hf2. apply Forall_forall. intros [name a] Hin.
    apply list_elem_of_lookup_1 in Hin as [i Hi].
    destruct (Forall2_lookup_r _ _ _ _ _ HF Hi) as (name' & Hn & Hname' & Hor).
    cbn [fst snd] in *.
    destruct Hor as [[Hg _]|[Hg _]]; apply dict_get_elem_of in Hg.
    + apply (Hf1 _ Hg).
    + apply (Hf2 _ Hg).
Qed.

Lemma uniform_crossover_takes_each_activity_from_a_parent_witness :
  catalog_ordered sample_schedule /\ catalog_ordered sample_moved
  /\ exists child,
       perform_uniform_crossover sample_schedule sample_moved (1 # 2) sample_world
       = (Ok child, advance 11 sample_world)
       /\ catalog_ordered child.
Proof.
  split; [reflexivity|]. split; [reflexivity|].
  destruct (uniform_crossover_takes_each_activity_from_a_parent
              sample_schedule sample_moved (1 # 2) sample_world eq_refl eq_refl)
    as (child & Hrun & Hcat & _).
  exists child. split; [exact Hrun|exact Hcat].
Defined.

Lemma Forall2_enumerate {A B} (P : Z * A -> B -> Prop) (l : list A) (items : list B) :
  Forall2 P (enumerate l) items ->
  Forall2 (fun x item => exists i, (0 <= i < Z.of_nat (length l))%Z /\ P (i, x) item) l items.
Proof.
  intros HF. apply Forall2_same_length_lookup_2.
  - apply Forall2_length in HF. unfold enumerate in HF. by rewrite length_imap in HF.
  - intros i x item Hx Hitem.
    assert (He : enumerate l !! i = Some (Z.of_nat i, x)) by (by rewrite enumerate_lookup, Hx).
    exists (Z.of_nat i). split; [apply lookup_lt_Some in Hx; lia|].
    by apply (Forall2_lookup_lr _ _ _ _ _ _ HF He Hitem).
Qed.

(** X11. [perform_single_point_crossover] on two parents over the catalog
    never fails, makes exactly one draw and returns a fresh schedule
    without fitness or violations.  When the crossover point is the last
    index the child is a copy of the first parent alone; parents with the
    same assignments give a child with those assignments; fully assigned
    parents give a fully assigned child. *)
Theorem single_point_crossover_extremes (parent_1 parent_2 : Schedule) (w : World) :
  catalog_ordered parent_1 -> catalog_ordered parent_2 ->
  exists crossover_point child,
    perform_single_point_crossover parent_1 parent_2 w = (Ok child, advance 1 w)
    /\ (0 <= crossover_point <= Z.of_nat (length ALL_ACTIVITIES) - 1)%Z
    /\ single_point_child crossover_point parent_1 parent_2 = Ok child.(_assignments)
    /\ child.(_fitness_score) = None /\ child.(_violation_summary) = None
    /\ (crossover_point = (Z.of_nat (length ALL_ACTIVITIES) - 1)%Z ->
        child.(_assignments) = parent_1.(_assignments))
    /\ (parent_1.(_assignments) = parent_2.(_assignments) ->
        child.(_assignments) = parent_1.(_assignments))
    /\ (fully_assigned parent_1 -> fully_assigned parent_2 -> fully_assigned child).
Proof.
  intros Hc1 Hc2. unfold perform_single_point_crossover, bind.
  destruct (random_randint_run 0 (Z.of_nat (length ALL_ACTIVITIES) - 1) w)
    as (point & -> & Hpoint); [by vm_compute|].
  destruct (single_point_child_spec point parent_1 parent_2 Hc1 Hc2) as (items & Hitems & HF).
  unfold lift_res. rewrite Hitems. unfold ret. exists point. eexists.
  split; [reflexivity|]. cbn [Schedule_init _assignments _fitness_score _violation_summary].
  pose proof (single_point_child_keys _ _ _ _ HF) as Hkeys.
  apply Forall2_enumerate in HF.
  assert (Hfrom : forall parent : Schedule,
             catalog_ordered parent ->
             Forall2 (fun name (item : string * ActivityAssignment) =>
                        item.1 = name /\ dict_get parent.(_assignments) name = Some item.2)
                     ALL_ACTIVITIES items ->
             items = parent.(_assignments)).
  { intros parent Hcat HFp. apply dict_rebuild.
    - rewrite Hcat. apply ALL_ACTIVITIES_NoDup.
    - by rewrite Hcat. }
  split; [done|]. split; [done|]. split; [done|]. split; [done|]. split_and!.
  - intros ->. apply Hfrom; [done|]. eapply Forall2_impl; [exact HF|].
    intros name item (i & Hi & Hn & Hd). cbn [fst snd] in *. split; [done|].
    unfold donor in Hd. by replace (i <=? Z.of_nat (length ALL_ACTIVITIES) - 1)%Z with true in Hd
      by lia.
  - intros Hsame. apply Hfrom; [done|]. eapply Forall2_impl; [exact HF|].
    intros name item (i & Hi & Hn & Hd). cbn [fst snd] in *. split; [done|].
    unfold donor in Hd. destruct (i <=? point)%Z; [done|]. by rewrite Hsame.
  - intros [_ Hf1] [_ Hf2]. split; [exact Hkeys|].
    rewrite Forall_forall in Hf1, Hf2. apply Forall_forall. intros [name a] Hin.
    apply list_elem_of_lookup_1 in Hin as [j Hj].
    destruct (Forall2_lookup_r _ _ _ _ _ HF Hj) as (name' & Hn & i & Hi & Hname' & Hd).
    cbn [fst snd] in *. apply dict_get_elem_of in Hd.
    unfold donor in Hd. destruct (i <=? point)%Z.
    + apply (Hf1 _ Hd).
    + apply (Hf2 _ Hd).
Qed.

Lemma single_point_crossover_extremes_witness :
  catalog_ordered sample_schedule /\ catalog_ordered sample_moved
  /\ exists child,
       perform_single_point_crossover sample_schedule sample_moved sample_world
       = (Ok child, advance 1 sample_world)
       /\ child.(_fitness_score) = None.
Proof.
  split; [reflexivity|]. split; [reflexivity|].
  destruct (single_point_crossover_extremes sample_schedule sample_moved sample_world
              eq_refl eq_refl)
    as (point & child & Hrun & _ & _ & Hfit & _).
  exists child. split; [exact Hrun|exact Hfit].
Defined.

(** ** The initial population *)

Lemma generate_random_assignment_run (w : World) :
  exists a, generate_random_assignment w = (Ok a, advance 3 w) /\ from_catalog a.
Proof.
  unfold generate_random_assignment, bind, ret.
  destruct (random_choice_run (dict_keys ROOMS_WITH_CAPACITIES) w) as (r & -> & Hr); [done|].
  destruct (random_choice_run ALL_TIME_SLOTS (advance 1 w)) as (t & -> & Ht); [done|].
  destruct (random_choice_run ALL_FACILITATORS (advance 1 (advance 1 w))) as (f & -> & Hf);
    [done|].
  rewrite !advance_advance. eexists. split; [reflexivity|]. by exists r, t, f.
Qed.

Lemma generate_random_schedule_run (w : World) :
  exists s,
    generate_random_schedule w = (Ok s, advance (3 * length ALL_ACTIVITIES) w)
    /\ fully_assigned s
    /\ s.(_fitness_score) = None /\ s.(_violation_summary) = None.
Proof.
  unfold generate_random_schedule.
  destruct (for_each_run
              (fun activity_name => a <- generate_random_assignment ;; ret (activity_name, a))
              (fun name (item : string * ActivityAssignment) =>
                 item.1 = name /\ from_catalog item.2)
              3 3 (dict_keys ACTIVITY_DEFINITIONS) w) as (items & k & Hrun & Hk & HF).
  { intros name w0 _. unfold bind, ret.
    destruct (generate_random_assignment_run w0) as (a & -> & Ha).
    exists (name, a), 3%nat. by split_and!. }
  unfold bind at 1. rewrite Hrun. unfold ret.
  assert (k = (3 * length ALL_ACTIVITIES)%nat) as -> by (unfold ALL_ACTIVITIES; lia).
  eexists. split; [reflexivity|]. clear Hrun. split; [|by split]. split.
  - unfold catalog_ordered. cbn [Schedule_init _assignments]. unfold dict_keys at 1.
    apply Forall2_names. eapply Forall2_impl; [exact HF|]. by intros ? ? [? _].
  - cbn [Schedule_init _assignments]. clear -HF.
    induction HF as [|? ? ? ? [_ ?] _ IH]; by constructor.
Qed.

(** X12. [create_initial_population]: below 250 it raises ValueError before
    any draw is made; from 250 on it returns as many schedules as asked
    for, each over the catalog with a room, a time slot and a facilitator
    of the catalog for every activity and no fitness or violations yet, and
    it makes exactly three draws per activity and schedule. *)
Theorem initial_population_is_fully_assigned (population_size : Z) (w : World) :
  ((population_size < 250)%Z ->
     create_initial_population population_size w = (Raise ValueError, w))
  /\ ((250 <= population_size)%Z ->
      exists population,
        create_initial_population population_size w
        = (Ok population,
           advance (3 * length ALL_ACTIVITIES * Z.to_nat population_size) w)
        /\ Z.of_nat (length population) = population_size
        /\ Forall (fun s => fully_assigned s /\ s.(_fitness_score) = None
                            /\ s.(_violation_summary) = None) population).
Proof.
  unfold create_initial_population. split; intros Hsize.
  - by replace (population_size <? 250)%Z with true by lia.
  - replace (population_size <? 250)%Z with false by lia.
    destruct (for_each_run (fun _ : Z => generate_random_schedule)
                (fun _ s => fully_assigned s /\ s.(_fitness_score) = None
                            /\ s.(_violation_summary) = None)
                (3 * length ALL_ACTIVITIES) (3 * length ALL_ACTIVITIES)
                (py_range population_size) w) as (population & k & Hrun & Hk & HF).
    { intros i w0 _. destruct (generate_random_schedule_run w0) as (s & -> & Hs).
      exists s, (3 * length ALL_ACTIVITIES)%nat. split; [done|]. split; [lia|done]. }
    rewrite py_range_length in Hk.
    assert (k = (3 * length ALL_ACTIVITIES * Z.to_nat population_size)%nat) as -> by lia.
    exists population. split; [exact Hrun|]. split.
    + apply Forall2_length in HF. rewrite py_range_length in HF. lia.
    + clear -HF. induction HF; by constructor.
Qed.

(** ** Elitism: the sort and the selection *)

Lemma insert_descending_perm x l : insert_descending x l ≡ₚ x :: l.
Proof.
  induction l as [|y l IH]; [done|]. cbn [insert_descending].
  destruct (Qle_bool y.2 x.2); [done|]. rewrite IH. apply Permutation_swap.
Qed.

Lemma sort_descending_perm l : sort_descending l ≡ₚ l.
Proof.
  induction l as [|x l IH]; [done|]. cbn. fold (sort_descending l).
  by rewrite insert_descending_perm, IH.
Qed.

Lemma insert_descending_descending x l : descending l -> descending (insert_descending x l).
Proof.
  induction l as [|y l IH]; intros Hd.
  - cbn. by split.
  - cbn [insert_descending]. destruct (Qle_bool y.2 x.2) eqn:E.
    + apply Qle_bool_iff in E. destruct Hd as [Hy Hl]. cbn [descending]. split_and!; try done.
      constructor; [done|]. eapply Forall_impl; [exact Hy|]. cbn. intros z Hz. lra.
    + assert (Hlt : x.2 < y.2).
      { apply Qnot_le_lt. intros Hle. apply Qle_bool_iff in Hle. congruence. }
      destruct Hd as [Hy Hl]. cbn [descending]. split; [|by apply IH].
      apply Forall_forall. intros z Hz. apply insert_descending_elem_of in Hz as [->|Hz].
      * lra.
      * rewrite Forall_forall in Hy. by apply Hy.
Qed.

Lemma sort_descending_descending l : descending (sort_descending l).
Proof.
  induction l as [|x l IH]; [done|]. cbn. fold (sort_descending l).
  by apply insert_descending_descending.
Qed.

Lemma insert_descending_with_score (v : Q) x l :
  with_score v (insert_descending x l)
  = if Qeq_bool x.2 v then x :: with_score v l else with_score v l.
Proof.
  unfold with_score. induction l as [|y l IH]; [done|]. cbn [insert_descending].
  destruct (Qle_bool y.2 x.2) eqn:E; [done|].
  cbn [List.filter]. rewrite IH.
  destruct (Qeq_bool x.2 v) eqn:Ex; [|done].
  destruct (Qeq_bool y.2 v) eqn:Ey; [|done].
  apply Qeq_bool_iff in Ex, Ey.
  assert (Qle_bool y.2 x.2 = true) by (apply Qle_bool_iff; lra). congruence.
Qed.

Lemma sort_descending_with_score (v : Q) l :
  with_score v (sort_descending l) = with_score v l.
Proof.
  induction l as [|x l IH]; [done|]. cbn [sort_descending foldr].
  fold (sort_descending l). rewrite insert_descending_with_score, IH.
  unfold with_score. cbn [List.filter]. done.
Qed.

Lemma descending_app (l k : list (Schedule * Q)) :
  descending (l ++ k) ->
  descending l /\ descending k /\ forall c r, c ∈ l -> r ∈ k -> r.2 <= c.2.
Proof.
  induction l as [|x l IH]; cbn [app descending].
  - intros Hk. split_and!; try done. intros c r Hc. inversion Hc.
  - intros [Hx Hd]. destruct (IH Hd) as (Hl & Hk & Hlk).
    apply Forall_app in Hx as [Hxl Hxk]. split_and!; try done.
    intros c r [->|Hc]%elem_of_cons Hr.
    + rewrite Forall_forall in Hxk. by apply Hxk.
    + by apply Hlk.
Qed.

(** X13. [select_best_schedules] returns copies of the best schedules.  The
    (schedule, score) pairs are split into the chosen ones and the rest:
    together they are the pairs of the population, the chosen ones are in
    descending order of score, no pair of the rest has a higher score than
    a chosen one, and pairs of equal score keep the order they have in the
    population; the result is the list of copies of the chosen schedules.
    A count of 0 or more chooses that many (all if there are fewer); a
    negative count leaves out that many of the worst. *)
Theorem elites_are_copies_of_the_best (population : list Schedule) (fitness_scores : list Q)
    (number_to_select : Z) :
  exists chosen rest,
    chosen ++ rest ≡ₚ py_zip population fitness_scores
    /\ select_best_schedules population fitness_scores number_to_select
       = map (fun p : Schedule * Q => create_copy p.1) chosen
    /\ descending chosen
    /\ (forall c r, c ∈ chosen -> r ∈ rest -> r.2 <= c.2)
    /\ (forall v, with_score v (chosen ++ rest)
                  = with_score v (py_zip population fitness_scores))
    /\ length chosen
       = (let n := Nat.min (length population) (length fitness_scores) in
          if (0 <=? number_to_select)%Z then Nat.min (Z.to_nat number_to_select) n
          else Z.to_nat (Z.of_nat n + number_to_select)).
Proof.
  set (sorted := sort_descending (py_zip population fitness_scores)).
  assert (Hsplit : exists m, py_slice_to number_to_select sorted = take m sorted).
  { unfold py_slice_to. destruct (0 <=? number_to_select)%Z; by eexists. }
  destruct Hsplit as [m Hm].
  exists (take m sorted), (drop m sorted). rewrite take_drop.
  pose proof (sort_descending_descending (py_zip population fitness_scores)) as Hd.
  fold sorted in Hd. rewrite <- (take_drop m sorted) in Hd.
  apply descending_app in Hd as (Hd1 & _ & Hd2).
  split_and!; try done.
  - apply sort_descending_perm.
  - unfold select_best_schedules. fold sorted. rewrite Hm.
    apply map_ext. by intros [s v].
  - intros v. apply sort_descending_with_score.
  - rewrite <- Hm, py_slice_to_length. unfold sorted.
    rewrite sort_descending_length. unfold py_zip. by rewrite length_zip.
Qed.

(** ** Maxima, minima and means *)

Lemma argmax_fold (pre xs : list Q) (bi : nat) (bs : Q) :
  first_maximum pre bi bs ->
  let r := foldl (fun '(best_index, best_score, index) y =>
                    if Qlt_le_dec best_score y then (index, y, S index)
                    else (best_index, best_score, S index))
                 (bi, bs, length pre) xs in
  first_maximum (pre ++ xs) r.1.1 r.1.2
  /\ r.1.2 = foldl (fun m y => if Qlt_le_dec m y then y else m) bs xs.
Proof.
  revert pre bi bs. induction xs as [|y xs IH]; intros pre bi bs Hfm; cbn [foldl].
  - rewrite app_nil_r. by split.
  - destruct Hfm as (Hbi & Hall & Hbefore).
    assert (Hlen : length (pre ++ [y]) = S (length pre)) by (rewrite length_app; cbn; lia).
    replace (pre ++ y :: xs) with ((pre ++ [y]) ++ xs) by (by rewrite <- app_assoc).
    destruct (Qlt_le_dec bs y) as [Hlt|Hge]; rewrite <- Hlen; apply IH.
    + split_and!.
      * rewrite lookup_app_r by lia. by rewrite Nat.sub_diag.
      * intros j w Hj. destruct (decide (j < length pre)%nat).
        -- rewrite lookup_app_l in Hj by done. specialize (Hall _ _ Hj). lra.
        -- rewrite lookup_app_r in Hj by lia.
           destruct (j - length pre)%nat; [|done]. injection Hj as <-. lra.
      * intros j w Hj Hw. rewrite lookup_app_l in Hw by done. specialize (Hall _ _ Hw). lra.
    + split_and!.
      * rewrite lookup_app_l; [done|]. by eapply lookup_lt_Some.
      * intros j w Hj. destruct (decide (j < length pre)%nat).
        -- rewrite lookup_app_l in Hj by done. by eapply Hall.
        -- rewrite lookup_app_r in Hj by lia.
           destruct (j - length pre)%nat; [|done]. by injection Hj as <-.
      * intros j w Hj Hw. apply (Hbefore j w Hj).
        rewrite lookup_app_l in Hw; [done|]. apply lookup_lt_Some in Hbi. lia.
Qed.

(** [max(range(len(scores)), key=...)] and [max(scores)] agree: the first
    position of a maximal score, and that score. *)
Lemma py_argmax_first_maximum (x : Q) (xs : list Q) :
  exists i, py_argmax (x :: xs) = Ok i /\ first_maximum (x :: xs) i (py_max x xs).
Proof.
  unfold py_argmax, py_max. eexists. split; [reflexivity|].
  destruct (argmax_fold [x] xs 0%nat x) as [Hfm Heq].
  - split_and!; [done| |intros; lia].
    intros [|j] w; cbn; [|done]. intros [= <-]. lra.
  - cbv zeta in Hfm, Heq. cbn [length app] in Hfm, Heq. by rewrite <- Heq.
Qed.

Lemma py_min_fold (bs : Q) (xs : list Q) :
  let m := foldl (fun m y => if Qlt_le_dec y m then y else m) bs xs in
  (m = bs \/ m ∈ xs) /\ m <= bs /\ forall w, w ∈ xs -> m <= w.
Proof.
  revert bs. induction xs as [|y xs IH]; intros bs; cbn [foldl].
  - split_and!; [by left|lra|]. intros w Hw. inversion Hw.
  - destruct (Qlt_le_dec y bs) as [Hlt|Hge].
    + destruct (IH y) as (Hin & Hle & Hall). cbv zeta in *. split_and!.
      * right. destruct Hin as [->|Hin]; [by left|by right].
      * lra.
      * intros w [->|Hw]%elem_of_cons; [done|by apply Hall].
    + destruct (IH bs) as (Hin & Hle & Hall). cbv zeta in *. split_and!.
      * destruct Hin as [->|Hin]; [by left|right; by right].
      * done.
      * intros w [->|Hw]%elem_of_cons; [lra|by apply Hall].
Qed.

Lemma py_min_spec (x : Q) (xs : list Q) :
  py_min x xs ∈ x :: xs /\ forall w, w ∈ x :: xs -> py_min x xs <= w.
Proof.
  destruct (py_min_fold x xs) as (Hin & Hle & Hall). cbv zeta in *. fold (py_min x xs) in *.
  split.
  - destruct Hin as [->|Hin]; [by left|by right].
  - intros w [->|Hw]%elem_of_cons; [done|by apply Hall].
Qed.

Lemma foldl_Qplus_bounds (lo hi acc : Q) (xs : list Q) :
  (forall w, w ∈ xs -> lo <= w <= hi) ->
  acc + lo * inject_Z (Z.of_nat (length xs)) <= foldl Qplus acc xs
  /\ foldl Qplus acc xs <= acc + hi * inject_Z (Z.of_nat (length xs)).
Proof.
  revert acc. induction xs as [|x xs IH]; intros acc Hall.
  - cbn [foldl length]. change (inject_Z (Z.of_nat 0)) with 0. lra.
  - cbn [foldl length]. rewrite Nat2Z.inj_succ. unfold Z.succ. rewrite inject_Z_plus.
    change (inject_Z 1) with 1.
    destruct (IH (acc + x)) as [H1 H2]; [intros w Hw; apply Hall; by right|].
    destruct (Hall x) as [? ?]; [by left|]. lra.
Qed.

Lemma mean_bounds (lo hi : Q) (xs : list Q) :
  xs ≠ [] -> (forall w, w ∈ xs -> lo <= w <= hi) -> lo <= mean xs <= hi.
Proof.
  intros Hne Hall. unfold mean.
  destruct (foldl_Qplus_bounds lo hi 0 xs Hall) as [H1 H2].
  assert (Hn : 0 < inject_Z (Z.of_nat (length xs))).
  { destruct xs; [done|]. cbn [length]. rewrite <- (Zlt_Qlt 0). lia. }
  split.
  - apply Qle_shift_div_l; [done|]. lra.
  - apply Qle_shift_div_r; [done|]. lra.
Qed.

(** ** The memoized evaluator and the cache *)

Lemma sections_present_fitness (s : Schedule) :
  sections_present s -> exists v, compute_schedule_fitness s = Ok v.
Proof.
  rewrite sections_present_unfold. intros ([a1 E1] & [a2 E2] & [a3 E3] & [a4 E4]).
  pose proof (section_spacing_cases "SLA101A" "SLA101B" s) as S1.
  pose proof (section_spacing_cases "SLA191A" "SLA191B" s) as S2.
  pose proof (cross_section_cases "SLA101A" "SLA191A" s) as X1.
  pose proof (cross_section_cases "SLA101A" "SLA191B" s) as X2.
  pose proof (cross_section_cases "SLA101B" "SLA191A" s) as X3.
  pose proof (cross_section_cases "SLA101B" "SLA191B" s) as X4.
  rewrite E1, E2 in S1. rewrite E3, E4 in S2. rewrite E1, E3 in X1. rewrite E1, E4 in X2.
  rewrite E2, E3 in X3. rewrite E2, E4 in X4.
  destruct S1 as [v1 S1], S2 as [v2 S2], X1 as [x1 X1], X2 as [x2 X2], X3 as [x3 X3],
    X4 as [x4 X4].
  unfold compute_schedule_fitness. cbn [SLA101_SECTIONS SLA191_SECTIONS fst snd].
  cbn [foldl CROSS_SECTION_PAIRS]. rewrite S1, S2, X1, X2, X3, X4. cbn [add_res].
  by eexists.
Qed.

Lemma calculate_schedule_fitness_run
    (hash_str : list (option string * option string * option string) -> Z)
    (s : Schedule) (w : World) :
  sections_present s \/ is_Some (w.(_fitness_cache) !! cache_key hash_str s) ->
  exists v w',
    calculate_schedule_fitness hash_str s w = (Ok (v, set_fitness (Some v) s), w')
    /\ same_draws w w'
    /\ w.(_fitness_cache) ⊆ w'.(_fitness_cache)
    /\ w'.(_fitness_cache) !! cache_key hash_str s = Some v
    /\ (forall cached, w.(_fitness_cache) !! cache_key hash_str s = Some cached ->
          v = cached /\ w' = w)
    /\ (w.(_fitness_cache) !! cache_key hash_str s = None ->
          compute_schedule_fitness s = Ok v
          /\ w'.(_fitness_cache) = <[cache_key hash_str s := v]> w.(_fitness_cache)).
Proof.
  intros Hok. unfold calculate_schedule_fitness.
  destruct (_fitness_cache w !! cache_key hash_str s) as [cached|] eqn:Hc.
  - exists cached, w. split_and!; try done. by intros ? [= <-].
  - destruct Hok as [Hp|[? ?]]; [|done].
    destruct (sections_present_fitness s Hp) as [v ->].
    eexists v, _. split; [reflexivity|]. cbn [_fitness_cache random_source draws_used].
    split_and!; try done.
    + by apply insert_subseteq.
    + apply lookup_insert_eq.
Qed.

(** X15. The memoized evaluator.  A call on a schedule that has the four
    section activities, or whose key is in the cache, returns a score,
    writes it to the schedule's fitness and leaves the random stream alone;
    the cache only grows, and afterwards it holds the returned score under
    the schedule's key; a key that is in the cache is answered from the
    cache, without a look at the assignments and without any change of
    state, so a second call returns the same score; a key that is not is
    given the freshly computed score. *)
Theorem memoized_evaluator_only_adds_to_the_cache
    (hash_str : list (option string * option string * option string) -> Z)
    (s : Schedule) (w : World) :
  sections_present s \/ is_Some (w.(_fitness_cache) !! cache_key hash_str s) ->
  exists v w',
    calculate_schedule_fitness hash_str s w = (Ok (v, set_fitness (Some v) s), w')
    /\ same_draws w w'
    /\ w.(_fitness_cache) ⊆ w'.(_fitness_cache)
    /\ w'.(_fitness_cache) !! cache_key hash_str s = Some v
    /\ (forall cached, w.(_fitness_cache) !! cache_key hash_str s = Some cached ->
          v = cached /\ w' = w)
    /\ (w.(_fitness_cache) !! cache_key hash_str s = None ->
          compute_schedule_fitness s = Ok v
          /\ w'.(_fitness_cache) = <[cache_key hash_str s := v]> w.(_fitness_cache))
    /\ calculate_schedule_fitness hash_str s w' = (Ok (v, set_fitness (Some v) s), w')
    /\ (forall s2, assignment_triples s2 = assignment_triples s ->
          calculate_schedule_fitness hash_str s2 w' = (Ok (v, set_fitness (Some v) s2), w')).
Proof.
  intros Hok.
  destruct (calculate_schedule_fitness_run hash_str s w Hok)
    as (v & w' & Hrun & Hdraws & Hsub & Hkey & Hhit & Hmiss).
  exists v, w'. split_and!; try done.
  - unfold calculate_schedule_fitness. by rewrite Hkey.
  - intros s2 Htriples. unfold calculate_schedule_fitness, cache_key in *.
    by rewrite Htriples, Hkey.
Qed.

Lemma memoized_evaluator_only_adds_to_the_cache_witness :
  (sections_present sample_schedule
   \/ is_Some (sample_world.(_fitness_cache) !! cache_key sample_hash sample_schedule))
  /\ exists v w',
       calculate_schedule_fitness sample_hash sample_schedule sample_world
       = (Ok (v, set_fitness (Some v) sample_schedule), w')
       /\ calculate_schedule_fitness sample_hash sample_schedule w'
          = (Ok (v, set_fitness (Some v) sample_schedule), w').
Proof.
  split; [left; exact sample_sections_present|].
  destruct (memoized_evaluator_only_adds_to_the_cache sample_hash sample_schedule sample_world
              (or_introl sample_sections_present))
    as (v & w' & Hrun & _ & _ & _ & _ & _ & Hagain & _).
  exists v, w'. split; [exact Hrun|exact Hagain].
Defined.

(** The evaluation loop over a population. *)
Lemma evaluate_all_run
    (hash_str : list (option string * option string * option string) -> Z)
    (population : list Schedule) (w : World) :
  Forall sections_present population ->
  exists evaluated w',
    for_each (calculate_schedule_fitness hash_str) population w = (Ok evaluated, w')
    /\ same_draws w w'
    /\ w.(_fitness_cache) ⊆ w'.(_fitness_cache)
    /\ Forall2 (fun s (r : Q * Schedule) =>
                  r.2 = set_fitness (Some r.1) s
                  /\ w'.(_fitness_cache) !! cache_key hash_str s = Some r.1)
               population evaluated
    /\ (forall i s cached,
          population !! i = Some s ->
          w.(_fitness_cache) !! cache_key hash_str s = Some cached ->
          exists r, evaluated !! i = Some r /\ r.1 = cached).
Proof.
  revert w. induction population as [|s ss IH]; intros w Hpop.
  - exists [], w. cbn [for_each]. unfold ret. split_and!; try done; by constructor.
  - apply Forall_cons_1 in Hpop as [Hs Hss]. cbn [for_each]. unfold bind.
    destruct (calculate_schedule_fitness_run hash_str s w (or_introl Hs))
      as (v & w1 & -> & [Hd1 Hd1'] & Hsub1 & Hkey1 & Hhit1 & _).
    destruct (IH w1 Hss) as (evaluated & w2 & -> & [Hd2 Hd2'] & Hsub2 & HF & Hhits).
    unfold ret. exists ((v, set_fitness (Some v) s) :: evaluated), w2.
    split_and!; try done.
    + split; congruence.
    + by etrans.
    + constructor; [|done]. split; [done|]. cbn [fst].
      eapply lookup_weaken; [exact Hkey1|exact Hsub2].
    + intros [|i] s0 cached Hi Hc; cbn in Hi.
      * injection Hi as <-. exists (v, set_fitness (Some v) s). split; [done|].
        by destruct (Hhit1 _ Hc).
      * apply (Hhits i s0 cached Hi). eapply lookup_weaken; [exact Hc|exact Hsub1].
Qed.

(** X14. [_evaluate_entire_population] on schedules that have the four
    section activities returns one score per schedule, in order, and the
    schedules with their score written to [fitness]; it makes no draw and
    only adds to the cache, which afterwards holds the score of every
    schedule of the population; a schedule whose key was in the cache gets
    the cached score.  For an empty population the three statistics are 0;
    otherwise worst <= average <= best, every score lies between worst and
    best, worst is one of the scores, and best is the score at the first
    position of a maximal score, the position [max(range(..), key=..)]
    picks. *)
Theorem population_statistics_are_consistent
    (hash_str : list (option string * option string * option string) -> Z)
    (population : list Schedule) (w : World) :
  Forall sections_present population ->
  exists fitness_scores best_fitness average_fitness worst_fitness evaluated w',
    _evaluate_entire_population hash_str population w
    = (Ok (fitness_scores, best_fitness, average_fitness, worst_fitness, evaluated), w')
    /\ same_draws w w'
    /\ w.(_fitness_cache) ⊆ w'.(_fitness_cache)
    /\ Forall2 (fun s v => w'.(_fitness_cache) !! cache_key hash_str s = Some v)
               population fitness_scores
    /\ Forall2 (fun s s' => exists v, s' = set_fitness (Some v) s) population evaluated
    /\ map _fitness_score evaluated = map Some fitness_scores
    /\ (forall i s cached,
          population !! i = Some s ->
          w.(_fitness_cache) !! cache_key hash_str s = Some cached ->
          fitness_scores !! i = Some cached)
    /\ (population = [] ->
        fitness_scores = [] /\ best_fitness = 0 /\ average_fitness = 0 /\ worst_fitness = 0)
    /\ (population ≠ [] ->
        worst_fitness <= average_fitness <= best_fitness
        /\ (forall v, v ∈ fitness_scores -> worst_fitness <= v <= best_fitness)
        /\ worst_fitness ∈ fitness_scores
        /\ exists i, py_argmax fitness_scores = Ok i
                     /\ first_maximum fitness_scores i best_fitness).
Proof.
  intros Hpop. unfold _evaluate_entire_population, bind.
  destruct (evaluate_all_run hash_str population w Hpop)
    as (evaluated & w' & -> & Hdraws & Hsub & HF & Hhits).
  assert (Hscores : Forall2 (fun s v => w'.(_fitness_cache) !! cache_key hash_str s = Some v)
                            population (map fst evaluated)).
  { clear -HF. induction HF as [|s r ss rs [_ Hr] _ IH]; by constructor. }
  assert (Hwritten : Forall2 (fun s s' => exists v, s' = set_fitness (Some v) s)
                             population (map snd evaluated)).
  { clear -HF. induction HF as [|s r ss rs [Hr _] _ IH]; constructor; [by eexists|done]. }
  assert (Hfit : map _fitness_score (map snd evaluated) = map Some (map fst evaluated)).
  { clear -HF. induction HF as [|s r ss rs [Hr _] _ IH]; [done|].
    cbn [map]. rewrite IH, Hr. done. }
  assert (Hcached : forall i s cached,
             population !! i = Some s ->
             w.(_fitness_cache) !! cache_key hash_str s = Some cached ->
             map fst evaluated !! i = Some cached).
  { intros i s cached Hi Hc. destruct (Hhits i s cached Hi Hc) as (r & Hr & <-).
    by rewrite list_lookup_fmap, Hr. }
  destruct (map fst evaluated) as [|x xs] eqn:E; unfold ret.
  - eexists _, _, _, _, _, _. split; [reflexivity|]. split_and!; try done.
    intros Hne. exfalso. apply Hne. apply Forall2_length in Hscores.
    by destruct population.
  - eexists _, _, _, _, _, _. split; [reflexivity|]. split_and!; try done.
    { intros ->. by inversion Hscores. }
    intros _.
    destruct (py_argmax_first_maximum x xs) as (i & Hi & Hfm).
    destruct (py_min_spec x xs) as [Hmin_in Hmin].
    assert (Hall : forall v, v ∈ x :: xs -> py_min x xs <= v <= py_max x xs).
    { intros v Hv. split; [by apply Hmin|].
      apply list_elem_of_lookup_1 in Hv as [j Hj]. destruct Hfm as (_ & Hmax & _).
      by apply (Hmax j). }
    destruct (mean_bounds (py_min x xs) (py_max x xs) (x :: xs)) as [Hlo Hhi]; [done..|].
    split_and!; try done. by exists i.
Qed.

Lemma population_statistics_are_consistent_witness :
  Forall sections_present [sample_schedule; sample_moved]
  /\ exists fitness_scores best_fitness average_fitness worst_fitness evaluated w',
       _evaluate_entire_population sample_hash [sample_schedule; sample_moved] sample_world
       = (Ok (fitness_scores, best_fitness, average_fitness, worst_fitness, evaluated), w')
       /\ worst_fitness <= average_fitness <= best_fitness.
Proof.
  assert (Hp : Forall sections_present [sample_schedule; sample_moved]).
  { constructor; [exact sample_sections_present|]. constructor; [|constructor].
    apply sections_present_unfold. split_and!; by eexists. }
  split; [exact Hp|].
  destruct (population_statistics_are_consistent sample_hash
              [sample_schedule; sample_moved] sample_world Hp)
    as (scores & b & a & wo & ev & w' & Hrun & _ & _ & _ & _ & _ & _ & _ & Hne).
  exists scores, b, a, wo, ev, w'. split; [exact Hrun|].
  destruct Hne as [Hbounds _]; [discriminate|exact Hbounds].
Defined.
